(** * employee_tracker: the extraction and loading pipeline of [page_reader.py]

    A shallow embedding of [src/src/page_reader.py]: the column resolvers,
    the label locators, the period extractors, the block extractors and the
    loader, followed by the properties the specification states about them.

    Conventions of the embedding.
    - Python exceptions are values: every function that can raise returns a
      [result].
    - A Python [str] is a [string]; a character stands for the code point of
      the same number, so the text modelled is the text over code points
      below 256.
    - A Python [dict] is an association list in insertion order with one
      entry per key ([dict_set] overwrites in place, as Python does).
    - A page is what [pd.read_excel] returns: column labels and data rows
      with the default index 0, 1, 2, ...
    - The SQLite file is a record of ten tables, each a list of rows in
      insertion order.
    - [pd.to_datetime] is a parameter of the functions that call it.
    - The rest of the program follows the same conventions: the loop body
      of [main] in [scripts/spreadsheet_manage.py], [get_firm_data],
      [clean_up] on two folders of file names, and the paths to the
      database file of [main] and of [src/dashboard.py]. *)

From Stdlib Require Import List String Ascii Bool Arith ZArith Lia.
From Stdlib Require Import Floats.PrimFloat Floats.SpecFloat Floats.FloatOps.
From Stdlib Require Uint63 Floats.FloatAxioms.
Import ListNotations.


(* ================================================================= *)
(** ** Python values and control *)

Module Py.

(** The exceptions the embedded code can raise. *)
Inductive exn : Type :=
| TypeError | ValueError | IndexError | KeyError
| AttributeError | UnboundLocalError | OverflowError | ParserError.

Inductive result (A : Type) : Type :=
| Ok (a : A)
| Raise (e : exn).
Arguments Ok {A} a.
Arguments Raise {A} e.

Definition bind {A B} (r : result A) (k : A -> result B) : result B :=
  match r with
  | Ok a => k a
  | Raise e => Raise e
  end.

(** [for x in xs: body] over a state [s]; an exception leaves the loop. *)
Fixpoint for_each {A S} (xs : list A) (s : S) (body : S -> A -> result S)
  : result S :=
  match xs with
  | [] => Ok s
  | x :: rest => bind (body s x) (fun s' => for_each rest s' body)
  end.

(** [enumerate(xs)]. *)
Definition enumerate {A} (xs : list A) : list (nat * A) :=
  combine (seq 0 (List.length xs)) xs.

(** [xs[i]] for [i >= 0]; out of range is an IndexError. *)
Definition getitem {A} (xs : list A) (i : nat) : result A :=
  match nth_error xs i with
  | Some x => Ok x
  | None => Raise IndexError
  end.

(** *** str *)

(** [sub in s]. *)
Fixpoint contains (sub s : string) : bool :=
  match s with
  | EmptyString => prefix sub EmptyString
  | String _ s' => prefix sub s || contains sub s'
  end.

(** [s.find(c)] for a one-character [c]: the first position, if any. *)
Fixpoint find (c : ascii) (s : string) : option nat :=
  match s with
  | EmptyString => None
  | String a s' =>
      if Ascii.eqb a c then Some 0 else option_map S (find c s')
  end.

(** [s.index(c)]: as [find], but a ValueError when [c] does not occur. *)
Definition index (c : ascii) (s : string) : result nat :=
  match find c s with
  | Some n => Ok n
  | None => Raise ValueError
  end.

(** [s[n:]] for [n >= 0]. *)
Fixpoint slice_from (n : nat) (s : string) : string :=
  match n, s with
  | 0, _ => s
  | S _, EmptyString => EmptyString
  | S n', String _ s' => slice_from n' s'
  end.

(** [s[:n]] for [n >= 0]. *)
Fixpoint slice_to (n : nat) (s : string) : string :=
  match n, s with
  | 0, _ => EmptyString
  | S _, EmptyString => EmptyString
  | S n', String a s' => String a (slice_to n' s')
  end.

(** [s[lo:hi]] for [0 <= lo <= hi]. *)
Definition slice (lo hi : nat) (s : string) : string :=
  slice_to (hi - lo) (slice_from lo s).

(** [s.split(c)] for a one-character separator: never empty. *)
Fixpoint split (c : ascii) (s : string) : list string :=
  match s with
  | EmptyString => [EmptyString]
  | String a s' =>
      if Ascii.eqb a c then EmptyString :: split c s'
      else match split c s' with
           | [] => [String a EmptyString]
           | h :: t => String a h :: t
           end
  end.

(** [a, b = parts]: exactly two parts, or a ValueError. *)
Definition unpack2 {A} (parts : list A) : result (A * A) :=
  match parts with
  | [a; b] => Ok (a, b)
  | _ => Raise ValueError
  end.

(** [ch.isspace()] on code points below 256: TAB..CR, FS..US, space,
    NEL and the no-break space. *)
Definition isspace (a : ascii) : bool :=
  let n := nat_of_ascii a in
  ((9 <=? n) && (n <=? 13)) || ((28 <=? n) && (n <=? 32))
  || (n =? 133) || (n =? 160).

Fixpoint lstrip (s : string) : string :=
  match s with
  | EmptyString => EmptyString
  | String a s' => if isspace a then lstrip s' else s
  end.

Fixpoint rstrip (s : string) : string :=
  match s with
  | EmptyString => EmptyString
  | String a s' =>
      match rstrip s' with
      | EmptyString => if isspace a then EmptyString else String a EmptyString
      | r => String a r
      end
  end.

(** [s.strip()]. *)
Definition strip (s : string) : string := rstrip (lstrip s).

(** [ch.lower()] on code points below 256: A..Z and the Latin-1 capitals
    (all of 192..222 but the multiplication sign 215) move up by 32. *)
Definition lower_char (a : ascii) : ascii :=
  let n := nat_of_ascii a in
  if ((65 <=? n) && (n <=? 90))
     || ((192 <=? n) && (n <=? 222) && negb (n =? 215))
  then ascii_of_nat (n + 32) else a.

Fixpoint map_chars (f : ascii -> ascii) (s : string) : string :=
  match s with
  | EmptyString => EmptyString
  | String a s' => String (f a) (map_chars f s')
  end.

(** [s.lower()]. *)
Definition lower (s : string) : string := map_chars lower_char s.

(** [s.replace(x, y)] for one-character [x] and [y]. *)
Definition replace (x y : ascii) (s : string) : string :=
  map_chars (fun a => if Ascii.eqb a x then y else a) s.

(** *** dict with str keys *)

Definition dict (V : Type) : Type := list (string * V).

(** [d.get(k)]. *)
Fixpoint dict_get {V} (k : string) (d : dict V) : option V :=
  match d with
  | [] => None
  | (k', v) :: rest => if String.eqb k k' then Some v else dict_get k rest
  end.

(** [d[k]]: a KeyError when [k] is absent. *)
Definition dict_getitem {V} (k : string) (d : dict V) : result V :=
  match dict_get k d with
  | Some v => Ok v
  | None => Raise KeyError
  end.

(** [d[k] = v]: an existing key keeps its place, a new one goes last. *)
Fixpoint dict_set {V} (k : string) (v : V) (d : dict V) : dict V :=
  match d with
  | [] => [(k, v)]
  | (k', v') :: rest =>
      if String.eqb k k' then (k, v) :: rest
      else (k', v') :: dict_set k v rest
  end.

(** [d.keys()], which is also what [for k in d] runs over. *)
Definition keys {V} (d : dict V) : list string := map fst d.

(** [d[k].append(v)] on a [defaultdict(list)]. *)
Definition dd_append {V} (k : string) (v : V) (d : dict (list V))
  : dict (list V) :=
  match dict_get k d with
  | Some l => dict_set k (l ++ [v]) d
  | None => dict_set k [v] d
  end.

(** [float(z)], as [int / float] converts its left operand: round to
    nearest even, and an OverflowError beyond the largest double. *)
Definition float_of_int (z : Z) : result float :=
  match binary_normalize prec emax z 0 false with
  | S754_infinity _ => Raise OverflowError
  | sf => Ok (SF2Prim sf)
  end.

End Py.

Export Py.

Declare Scope py_scope.
Notation "x <- c1 ;; c2" := (Py.bind c1 (fun x => c2))
  (at level 61, c1 at next level, right associativity) : py_scope.
Notation "' pat <- c1 ;; c2" := (Py.bind c1 (fun x => match x with pat => c2 end))
  (at level 61, pat pattern, c1 at next level, right associativity) : py_scope.
Open Scope py_scope.
Open Scope string_scope.
Open Scope list_scope.

(* ================================================================= *)
(** ** The pandas objects the program handles *)

Module Pandas.

(** A cell of a sheet read by [pd.read_excel]: empty (NaN), text, an
    integer, a float, or a date (nanoseconds since the epoch). *)
Inductive cell : Type :=
| CNull
| CStr (s : string)
| CInt (z : Z)
| CFloat (f : float)
| CTime (t : Z).

Definition row : Type := list cell.

(** The sheet as read: [page.columns] (the sheet's first line) and the
    data rows below it, indexed 0, 1, 2, ... *)
Record page : Type := Page {
  columns : list cell;
  rows : list row
}.

(** [page.iloc[i]] and [row.iloc[i]] for [i >= 0]. *)
Definition iloc {A} (xs : list A) (i : nat) : result A := getitem xs i.

(** [page.iterrows()]: each row with its index label. *)
Definition iterrows (p : page) : list (nat * row) := enumerate (rows p).

(** [pd.notna(v)]. *)
Definition notna (v : cell) : bool :=
  match v with CNull => false | _ => true end.

(** A [DataFrame] built by the program: the name of its index, its column
    labels, and one row of values per index key. *)
Record frame (K : Type) : Type := Frame {
  index_name : option string;
  frame_columns : list string;
  frame_rows : list (K * list cell)
}.
Arguments Frame {K} index_name frame_columns frame_rows.
Arguments index_name {K} f.
Arguments frame_columns {K} f.
Arguments frame_rows {K} f.

(** [pd.DataFrame.from_dict(d, orient='index', columns=cols)]: one row per
    entry of [d]. pandas refuses rows that are longer than [cols] and pads
    shorter ones; the loops of this program only build rows as long as
    [cols], and every other row length is refused here. *)
Definition from_dict {K} (d : list (K * list cell)) (cols : list string)
  : result (frame K) :=
  if forallb (fun r => Nat.eqb (List.length (snd r)) (List.length cols)) d
  then Ok (Frame None cols d)
  else Raise ValueError.

(** [df.index.name = name]. *)
Definition set_index_name {K} (name : string) (df : frame K) : frame K :=
  Frame (Some name) (frame_columns df) (frame_rows df).

(** The position of a column label. *)
Fixpoint position (name : string) (cols : list string) : option nat :=
  match cols with
  | [] => None
  | c :: rest =>
      if String.eqb name c then Some 0 else option_map S (position name rest)
  end.

(** [xs] with the value at position [i] replaced. *)
Fixpoint set_nth {A} (i : nat) (v : A) (xs : list A) : list A :=
  match i, xs with
  | _, [] => []
  | 0, _ :: rest => v :: rest
  | S i', x :: rest => x :: set_nth i' v rest
  end.

(** [df[name]]: the column as a list of values in row order; a KeyError
    when there is no such column. *)
Definition getcol {K} (name : string) (df : frame K) : result (list cell) :=
  match position name (frame_columns df) with
  | Some i => Ok (map (fun r => nth i (snd r) CNull) (frame_rows df))
  | None => Raise KeyError
  end.

(** [v / 100.] on one value: NaN stays NaN, a number is divided as a
    float, text and dates are a TypeError. *)
Definition truediv100 (v : cell) : result cell :=
  match v with
  | CNull => Ok CNull
  | CFloat f => Ok (CFloat (f / 100)%float)
  | CInt z => f <- float_of_int z ;; Ok (CFloat (f / 100)%float)
  | CStr _ => Raise TypeError
  | CTime _ => Raise TypeError
  end.

(** [series / 100.], value by value. *)
Fixpoint series_truediv100 (vs : list cell) : result (list cell) :=
  match vs with
  | [] => Ok []
  | v :: rest =>
      q <- truediv100 v ;;
      qs <- series_truediv100 rest ;;
      Ok (q :: qs)
  end.

(** Row [r] with position [i] taken from the head of [vs]. *)
Fixpoint assign_rows {K} (i : nat) (rs : list (K * list cell)) (vs : list cell)
  : list (K * list cell) :=
  match rs, vs with
  | (k, vals) :: rs', v :: vs' => (k, set_nth i v vals) :: assign_rows i rs' vs'
  | _, _ => rs
  end.

(** [df.loc[:, name] = series] for an existing column [name] and a series
    with one value per row. *)
Definition loc_setcol {K} (name : string) (vs : list cell) (df : frame K)
  : result (frame K) :=
  match position name (frame_columns df) with
  | Some i =>
      Ok (Frame (index_name df) (frame_columns df)
                (assign_rows i (frame_rows df) vs))
  | None => Raise KeyError
  end.

(** [df[name] = v] for a scalar [v]: an existing column is overwritten,
    a new one is added last. *)
Definition setcol_scalar {K} (name : string) (v : cell) (df : frame K)
  : frame K :=
  match position name (frame_columns df) with
  | Some i =>
      Frame (index_name df) (frame_columns df)
            (map (fun r => (fst r, set_nth i v (snd r))) (frame_rows df))
  | None =>
      Frame (index_name df) (frame_columns df ++ [name])
            (map (fun r => (fst r, snd r ++ [v])) (frame_rows df))
  end.

(** [df.rename(columns=mapping, inplace=True)]. *)
Definition rename {K} (mapping : dict string) (df : frame K) : frame K :=
  Frame (index_name df)
        (map (fun c => match dict_get c mapping with
                       | Some c' => c'
                       | None => c
                       end) (frame_columns df))
        (frame_rows df).

(** [df.empty]: no row, or no column. *)
Definition empty {K} (df : frame K) : bool :=
  match frame_rows df, frame_columns df with
  | [], _ => true
  | _, [] => true
  | _, _ => false
  end.

(** The value of column [name] in the row of key [k], if both exist. *)
Definition at_ (name : string) (k : string) (df : frame string) : option cell :=
  match position name (frame_columns df), dict_get k (frame_rows df) with
  | Some i, Some vals => nth_error vals i
  | _, _ => None
  end.

(** A stored row: the index value and the named fields. *)
Definition sqlrow (K : Type) : Type := (K * list (string * cell))%type.

(** The rows [df.to_sql(..., index=True)] sends to the table. *)
Definition sql_rows {K} (df : frame K) : list (sqlrow K) :=
  map (fun r => (fst r, combine (frame_columns df) (snd r))) (frame_rows df).

(** [df.to_sql(table, engine, if_exists="append", index=True)]. *)
Definition to_sql_append {K} (df : frame K) (table : list (sqlrow K))
  : list (sqlrow K) :=
  table ++ sql_rows df.

End Pandas.

Export Pandas.

(* ================================================================= *)
(** ** [page_reader.py] *)

Module PageReader.

Definition nl : string := String "010" EmptyString.

(** *** Column Resolver: [get_columns], [get_firm_columns] *)

(** The [mapping] of [get_columns]. *)
Definition employee_mapping : dict string :=
  [ ("Target", "target_pct");
    ("Actual", "actual_pct");
    ("Direct", "direct");
    (("Trgt" ++ nl ++ "Hrs")%string, "target_hrs");
    ("Indirect", "indirect");
    ("Hol", "holiday");
    ("PPL", "paid_personal_leave");
    ("Admin", "admin");
    ("Mktg", "marketing");
    ("BD", "business_development");
    ("Prop", "proposal");
    ("TD", "tech_development");
    ("UPL/PTL", "upl_ptl");
    ("Hours", "hours");
    ("Stand", "standard") ].

(** The [mapping] of [get_firm_columns]. *)
Definition firm_mapping : dict string :=
  [ (("Target" ++ nl ++ "%")%string, "target_pct");
    (("Actual" ++ nl ++ "%")%string, "actual_pct");
    ("Direct", "direct");
    ("Target", "target_hrs");
    ("Indirect", "indirect");
    ("Hol", "holiday");
    ("PPL", "paid_personal_leave");
    ("Admin", "admin");
    ("Mktg", "marketing");
    ("BD", "business_development");
    ("Prop", "proposal");
    ("TD", "tech_development");
    ("UPL/PTL", "upl_ptl");
    ("Total", "total");
    ("Std", "standard") ].

(** [val.strip().lower().replace(" ", "_")]. *)
Definition slug (val : string) : string :=
  replace " " "_" (lower (strip val)).

(** [mapping.get(val, val.strip().lower().replace(" ", "_"))]. Python
    evaluates the default before the call, so a value that is not text
    has no [strip] and raises, in the mapping or not. *)
Definition standardize (mapping : dict string) (val : cell) : result string :=
  match val with
  | CStr s =>
      let default := slug s in
      Ok (match dict_get s mapping with
          | Some name => name
          | None => default
          end)
  | _ => Raise AttributeError
  end.

(** The loop [for i, val in enumerate(column_names)] of both resolvers,
    one step. *)
Definition resolve_step (mapping : dict string)
           (col_name_idx : dict nat) (it : nat * cell) : result (dict nat) :=
  let (i, val) := it in
  if notna val then
    standardized <- standardize mapping val ;;
    Ok (dict_set standardized i col_name_idx)
  else Ok col_name_idx.

Definition resolve (mapping : dict string) (column_names : list cell)
  : result (dict nat) :=
  for_each (enumerate column_names) [] (resolve_step mapping).

Definition get_columns (p : page) : result (dict nat) :=
  column_names <- iloc (rows p) 0 ;;
  resolve employee_mapping column_names.

Definition get_firm_columns (p : page) : result (dict nat) :=
  column_names <- iloc (rows p) 7 ;;
  resolve firm_mapping column_names.

(** *** Period Extractor: [get_pay_period], [get_firm_pay_period] *)

Definition period_marker : string := "For the period".

(** [i[i.index('-') + 2:]]. *)
Definition after_hyphen (s : string) : result string :=
  period_idx <- index "-" s ;;
  Ok (slice_from (period_idx + 2) s).

(** The loop of [get_pay_period] over [page.columns]; [in] on a label
    that is not text is a TypeError. Leaving the loop is [return None]. *)
Fixpoint get_pay_period_loop (cols : list cell) : result (option string) :=
  match cols with
  | [] => Ok None
  | CStr col :: rest =>
      if contains period_marker col then
        period_end <- after_hyphen col ;;
        Ok (Some period_end)
      else get_pay_period_loop rest
  | _ :: _ => Raise TypeError
  end.

Definition get_pay_period (p : page) : result (option string) :=
  get_pay_period_loop (columns p).

(** The inner loop [for i in row] of [get_firm_pay_period], on the local
    variable [period_end]; its [break] leaves this loop only. *)
Fixpoint firm_period_row (period_end : option string) (r : row)
  : result (option string) :=
  match r with
  | [] => Ok period_end
  | CStr i :: rest =>
      if contains period_marker i then
        e <- after_hyphen i ;;
        Ok (Some e)
      else firm_period_row period_end rest
  | _ :: rest => firm_period_row period_end rest
  end.

(** The value of the local [period_end] when the loops of
    [get_firm_pay_period] end ([None]: never assigned). *)
Definition get_firm_pay_period_locals (p : page) : result (option string) :=
  for_each (map snd (iterrows p)) None firm_period_row.

(** [get_firm_pay_period] has no [return]: when its loops end without an
    exception, the caller receives [None]. *)
Definition get_firm_pay_period (p : page) : result (option string) :=
  _ <- get_firm_pay_period_locals p ;;
  Ok None.

(** *** Label Locator: [get_employees], [get_sections], [get_firm_totals] *)

(** [marker in str(v)] for the three label markers. [str] of a cell that
    is not text is ["nan"], a numeral, a float repr or a date, none of
    which holds the capital letter every marker starts with: only text
    can match. *)
Definition in_str (marker : string) (v : cell) : bool :=
  match v with
  | CStr s => contains marker s
  | _ => false
  end.

(** The text of a cell on which [.index] and slicing are called. *)
Definition text_of (v : cell) : result string :=
  match v with
  | CStr s => Ok s
  | _ => Raise AttributeError
  end.

Definition employee_state : Type := (dict nat * dict (list cell))%type.

(** One step of the loop of [get_employees]. *)
Definition get_employees_step (st : employee_state) (it : nat * row)
  : result employee_state :=
  let (employee_rows, employee_data) := st in
  let (idx, r) := it in
  c <- iloc r 0 ;;
  if in_str "Employee Number:" c then
    s <- text_of c ;;
    colon <- index ":" s ;;
    let employee_name := slice_from (colon + 7) s in
    let number := slice (colon + 2) (colon + 6) s in
    '(last, first) <- unpack2 (split "," employee_name) ;;
    Ok (dict_set number idx employee_rows,
        dict_set number
                 [CStr (strip employee_name); CStr (strip last);
                  CStr (strip first); CStr number]
                 employee_data)
  else Ok st.

Definition employee_columns : list string :=
  ["name"; "last"; "first"; "employee_number"].

Definition get_employees (p : page) : result (dict nat * frame string) :=
  '(employee_rows, employee_data) <-
     for_each (iterrows p) ([], []) get_employees_step ;;
  employee_df <- from_dict employee_data employee_columns ;;
  Ok (employee_rows, set_index_name "employee_id" employee_df).

(** One step of the loop of [get_sections]. *)
Definition get_sections_step (st : employee_state) (it : nat * row)
  : result employee_state :=
  let (section_rows, section_data) := st in
  let (idx, r) := it in
  c <- iloc r 0 ;;
  if in_str "Section:" c then
    s <- text_of c ;;
    colon <- index ":" s ;;
    let section_name := slice_from (colon + 2) s in
    Ok (dict_set section_name idx section_rows,
        dict_set section_name [CStr section_name] section_data)
  else Ok st.

Definition get_sections (p : page) : result (dict nat * frame string) :=
  '(section_rows, section_data) <-
     for_each (iterrows p) ([], []) get_sections_step ;;
  section_df <- from_dict section_data ["section_name"] ;;
  Ok (section_rows, set_index_name "section" section_df).

(** The loop of [get_firm_totals] with its [break], then
    [return company_row]: when no row matched, [company_row] was never
    bound and the [return] raises. *)
Fixpoint get_firm_totals_loop (its : list (nat * row)) : result nat :=
  match its with
  | [] => Raise UnboundLocalError
  | (idx, r) :: rest =>
      c <- iloc r 0 ;;
      if in_str "Final Totals" c then Ok idx
      else get_firm_totals_loop rest
  end.

Definition get_firm_totals (p : page) : result nat :=
  get_firm_totals_loop (iterrows p).

(** *** Entity Block Extractor: [get_employee_data], [get_section_data] *)

(** [week_dict], [mtd_dict] and [ytd_dict]. *)
Definition blocks : Type :=
  (dict (list cell) * dict (list cell) * dict (list cell))%type.

(** The inner loop [for col in col_name_idx] for one entity. *)
Definition copy_cells (entity : string) (week_row mtd_row ytd_row : row)
           (col_name_idx : dict nat) (st : blocks) : result blocks :=
  for_each (keys col_name_idx) st
    (fun st col =>
       cidx <- dict_getitem col col_name_idx ;;
       w <- iloc week_row cidx ;;
       m <- iloc mtd_row cidx ;;
       y <- iloc ytd_row cidx ;;
       let '(week_dict, mtd_dict, ytd_dict) := st in
       Ok (dd_append entity w week_dict,
           dd_append entity m mtd_dict,
           dd_append entity y ytd_dict)).

(** The outer loop [for employee in employee_rows] of
    [get_employee_data], which is also the loop
    [for section in section_rows] of [get_section_data]. *)
Definition read_blocks (p : page) (label_rows : dict nat)
           (col_name_idx : dict nat) : result blocks :=
  for_each (keys label_rows) ([], [], [])
    (fun st entity =>
       idx <- dict_getitem entity label_rows ;;
       week_row <- iloc (rows p) (idx + 1) ;;
       mtd_row <- iloc (rows p) (idx + 2) ;;
       ytd_row <- iloc (rows p) (idx + 3) ;;
       copy_cells entity week_row mtd_row ytd_row col_name_idx st).

Section WithDates.

(** [pd.to_datetime], applied to the period end the caller passes (a
    [str], or [None]); how it reads a date is pandas' own. *)
Variable to_datetime : option string -> result cell.

(** The body of [for df in [...]]: the period column, then the name of
    the index. *)
Definition stamp (name : string) (period_end : option string)
           (df : frame string) : result (frame string) :=
  t <- to_datetime period_end ;;
  Ok (set_index_name name (setcol_scalar "period_ending" t df)).

Definition get_employee_data (p : page) (period_end : option string)
           (employee_rows : dict nat) (col_name_idx : dict nat)
  : result (frame string * frame string * frame string) :=
  '(week_dict, mtd_dict, ytd_dict) <-
     read_blocks p employee_rows col_name_idx ;;
  week_df <- from_dict week_dict (keys col_name_idx) ;;
  mtd_df <- from_dict mtd_dict (keys col_name_idx) ;;
  ytd_df <- from_dict ytd_dict (keys col_name_idx) ;;
  actual <- getcol "actual_pct" week_df ;;
  scaled <- series_truediv100 actual ;;
  week_df <- loc_setcol "actual_pct" scaled week_df ;;
  week_df <- stamp "employee_id" period_end week_df ;;
  mtd_df <- stamp "employee_id" period_end mtd_df ;;
  ytd_df <- stamp "employee_id" period_end ytd_df ;;
  Ok (week_df, mtd_df, ytd_df).

Definition get_section_data (p : page) (period_end : option string)
           (section_rows : dict nat) (col_name_idx : dict nat)
  : result (frame string * frame string * frame string) :=
  '(section_week_dict, section_mtd_dict, section_ytd_dict) <-
     read_blocks p section_rows col_name_idx ;;
  section_week_df <- from_dict section_week_dict (keys col_name_idx) ;;
  section_mtd_df <- from_dict section_mtd_dict (keys col_name_idx) ;;
  section_ytd_df <- from_dict section_ytd_dict (keys col_name_idx) ;;
  section_week_df <- stamp "section" period_end section_week_df ;;
  section_mtd_df <- stamp "section" period_end section_mtd_df ;;
  section_ytd_df <- stamp "section" period_end section_ytd_df ;;
  Ok (section_week_df, section_mtd_df, section_ytd_df).

End WithDates.

(** *** Incremental Loader: [write_data] *)

(** The tables of [employee_tracker.db]. A table that does not exist yet
    is the empty list: reading it is the [except] branch of [write_data]
    (no identifier), and appending to it creates it. *)
Record database : Type := Database {
  employee : list (sqlrow string);
  employee_week : list (sqlrow string);
  employee_mtd : list (sqlrow string);
  employee_ytd : list (sqlrow string);
  section_week : list (sqlrow string);
  section_mtd : list (sqlrow string);
  section_ytd : list (sqlrow string);
  firm_week : list (sqlrow (option string));
  firm_mtd : list (sqlrow (option string));
  firm_ytd : list (sqlrow (option string))
}.

(** The frames one call of [write_data] receives. *)
Record batch : Type := Batch {
  employee_df : frame string;
  emp_week_df : frame string;
  emp_mtd_df : frame string;
  emp_ytd_df : frame string;
  sec_week_df : frame string;
  sec_mtd_df : frame string;
  sec_ytd_df : frame string;
  firm_week_df : frame (option string);
  firm_mtd_df : frame (option string);
  firm_ytd_df : frame (option string)
}.

Definition rename_mapping : dict string :=
  [ (("direct" ++ nl ++ "hours")%string, "direct");
    (("indirect" ++ nl ++ "hours")%string, "indirect");
    (("hours" ++ nl ++ "hours")%string, "hours") ].

Definition rename_section : dict string :=
  [ (("direct" ++ nl ++ "amount")%string, "direct");
    (("indirect" ++ nl ++ "amount")%string, "indirect");
    (("total" ++ nl ++ "amount")%string, "total") ].

(** [set(pd.read_sql("SELECT employee_id FROM employee", engine)
    ['employee_id'])]. *)
Definition existing_ids (db : database) : list string :=
  map fst (employee db).

(** [employee_df[~employee_df.index.isin(existing_ids)]]. *)
Definition new_employees (ids : list string) (df : frame string)
  : frame string :=
  Frame (index_name df) (frame_columns df)
        (filter (fun r => negb (existsb (String.eqb (fst r)) ids))
                (frame_rows df)).

(** [write_data], on the database as explicit state: [proj_dir] only names
    the database file and [period_end] is only printed. The storage engine
    is taken to accept every write. The frames are renamed in place in the
    source; here the renamed frames are local values. *)
Definition write_data (db : database) (b : batch) : database :=
  let ids := existing_ids db in
  let fresh := new_employees ids (employee_df b) in
  let employee' :=
    if negb (empty fresh) then to_sql_append fresh (employee db)
    else employee db in
  let emp_week_r := rename rename_mapping (emp_week_df b) in
  let emp_mtd_r := rename rename_mapping (emp_mtd_df b) in
  let emp_ytd_r := rename rename_mapping (emp_ytd_df b) in
  let sec_week_r := rename rename_section (sec_week_df b) in
  let sec_mtd_r := rename rename_section (sec_mtd_df b) in
  let sec_ytd_r := rename rename_section (sec_ytd_df b) in
  let firm_week_r := rename rename_section (firm_week_df b) in
  let firm_mtd_r := rename rename_section (firm_mtd_df b) in
  let firm_ytd_r := rename rename_section (firm_ytd_df b) in
  Database employee'
           (to_sql_append emp_week_r (employee_week db))
           (to_sql_append emp_mtd_r (employee_mtd db))
           (to_sql_append emp_ytd_r (employee_ytd db))
           (to_sql_append sec_week_r (section_week db))
           (to_sql_append sec_mtd_r (section_mtd db))
           (to_sql_append sec_ytd_r (section_ytd db))
           (to_sql_append firm_week_r (firm_week db))
           (to_sql_append firm_mtd_r (firm_mtd db))
           (to_sql_append firm_ytd_r (firm_ytd db)).

End PageReader.

Export PageReader.

(* ================================================================= *)
(** ** [page_reader.py], continued: [get_firm_data] *)

Module FirmData.

(** The key of the firm dicts: the period end, a [str] or [None]. *)
Definition period_key : Type := option string.

Definition period_key_eqb (a b : period_key) : bool :=
  match a, b with
  | Some x, Some y => String.eqb x y
  | None, None => true
  | _, _ => false
  end.

(** A [defaultdict(list)] with such keys. *)
Definition period_dict : Type := list (period_key * list cell).

Fixpoint period_dict_get (k : period_key) (d : period_dict)
  : option (list cell) :=
  match d with
  | [] => None
  | (k', v) :: rest =>
      if period_key_eqb k k' then Some v else period_dict_get k rest
  end.

Fixpoint period_dict_set (k : period_key) (v : list cell) (d : period_dict)
  : period_dict :=
  match d with
  | [] => [(k, v)]
  | (k', v') :: rest =>
      if period_key_eqb k k' then (k, v) :: rest
      else (k', v') :: period_dict_set k v rest
  end.

(** [d[period_end].append(v)]. *)
Definition period_dict_append (k : period_key) (v : cell) (d : period_dict)
  : period_dict :=
  match period_dict_get k d with
  | Some l => period_dict_set k (l ++ [v]) d
  | None => period_dict_set k [v] d
  end.

Definition firm_blocks : Type := (period_dict * period_dict * period_dict)%type.

(** The loop [for col in col_name_idx] of [get_firm_data]. *)
Definition copy_firm_cells (period_end : period_key)
           (firm_week_row firm_mtd_row firm_ytd_row : row)
           (col_name_idx : dict nat) : result firm_blocks :=
  for_each (keys col_name_idx) ([], [], [])
    (fun st col =>
       cidx <- dict_getitem col col_name_idx ;;
       w <- iloc firm_week_row cidx ;;
       m <- iloc firm_mtd_row cidx ;;
       y <- iloc firm_ytd_row cidx ;;
       let '(firm_week_dict, firm_mtd_dict, firm_ytd_dict) := st in
       Ok (period_dict_append period_end w firm_week_dict,
           period_dict_append period_end m firm_mtd_dict,
           period_dict_append period_end y firm_ytd_dict)).

Section WithDates.

Variable to_datetime : option string -> result cell.

(** The body of [for df in [...]] of [get_firm_data]: the period column
    only; the index keeps no name. *)
Definition firm_stamp (period_end : period_key) (df : frame period_key)
  : result (frame period_key) :=
  t <- to_datetime period_end ;;
  Ok (setcol_scalar "period_ending" t df).

Definition get_firm_data (p : page) (period_end : period_key)
           (company_row : nat) (col_name_idx : dict nat)
  : result (frame period_key * frame period_key * frame period_key) :=
  firm_week_row <- iloc (rows p) (company_row + 1) ;;
  firm_mtd_row <- iloc (rows p) (company_row + 2) ;;
  firm_ytd_row <- iloc (rows p) (company_row + 3) ;;
  '(firm_week_dict, firm_mtd_dict, firm_ytd_dict) <-
     copy_firm_cells period_end firm_week_row firm_mtd_row firm_ytd_row
                     col_name_idx ;;
  firm_week_df <- from_dict firm_week_dict (keys col_name_idx) ;;
  firm_mtd_df <- from_dict firm_mtd_dict (keys col_name_idx) ;;
  firm_ytd_df <- from_dict firm_ytd_dict (keys col_name_idx) ;;
  firm_week_df <- firm_stamp period_end firm_week_df ;;
  firm_mtd_df <- firm_stamp period_end firm_mtd_df ;;
  firm_ytd_df <- firm_stamp period_end firm_ytd_df ;;
  Ok (firm_week_df, firm_mtd_df, firm_ytd_df).

End WithDates.

End FirmData.

Export FirmData.

(* ================================================================= *)
(** ** [scripts/spreadsheet_manage.py] *)

Module SpreadsheetManage.

Definition section_page : string := "Mekong - Fisheries Aquatic".
Definition firm_page : string := "$ Utilization".

(** What stops [main]: an exception of the extraction, or the file to move
    not being where [clean_up] looks for it. *)
Inductive abort : Type :=
| Raised (e : exn)
| FileNotFound.

(** The folders [data/raw] and [data/processed], as the file names they
    hold. *)
Record folders : Type := Folders {
  raw_dir : list string;
  processed_dir : list string
}.

(** [clean_up]: [shutil.move] takes the file out of [raw] and puts it in
    [processed], over a file of the same name if there is one. *)
Definition clean_up (fs : folders) (worksheet : string) : option folders :=
  if existsb (String.eqb worksheet) (raw_dir fs) then
    Some (Folders
            (filter (fun f => negb (String.eqb worksheet f)) (raw_dir fs))
            (if existsb (String.eqb worksheet) (processed_dir fs)
             then processed_dir fs
             else processed_dir fs ++ [worksheet]))
  else None.

Section WithFiles.

Variable to_datetime : option string -> result cell.

(** [pd.read_excel(sheet_path, sheet_name=...)] on the files of [raw]. *)
Variable read_excel : string -> string -> result page.

(** The body of the loop of [main] from the column maps to [write_data],
    for the two pages of one file. *)
Definition process_pages (db : database) (employee_page util_page : page)
  : result database :=
  emp_col_name_idx <- get_columns employee_page ;;
  util_col_name_idx <- get_firm_columns util_page ;;
  period_end <- get_pay_period employee_page ;;
  firm_period_end <- get_firm_pay_period util_page ;;
  firm_row <- get_firm_totals util_page ;;
  '(employee_rows, employee_df) <- get_employees employee_page ;;
  '(section_rows, section_df) <- get_sections util_page ;;
  '(emp_week_df, emp_mtd_df, emp_ytd_df) <-
     get_employee_data to_datetime employee_page period_end
                       employee_rows emp_col_name_idx ;;
  '(sec_week_df, sec_mtd_df, sec_ytd_df) <-
     get_section_data to_datetime util_page period_end
                      section_rows util_col_name_idx ;;
  '(firm_week_df, firm_mtd_df, firm_ytd_df) <-
     get_firm_data to_datetime util_page period_end firm_row
                   util_col_name_idx ;;
  Ok (write_data db
        (Batch employee_df emp_week_df emp_mtd_df emp_ytd_df
               sec_week_df sec_mtd_df sec_ytd_df
               firm_week_df firm_mtd_df firm_ytd_df)).

(** The loop body of [main] up to [write_data], for one file of [raw]:
    the two pages are read, then processed. *)
Definition process_sheet (db : database) (sheet : string) : result database :=
  employee_page <- read_excel sheet section_page ;;
  util_page <- read_excel sheet firm_page ;;
  process_pages db employee_page util_page.

(** The state [main] works on: the database and the two folders. *)
Record world : Type := World {
  db_of : database;
  files_of : folders
}.

(** One turn of the loop of [main]: the state it leaves and what stopped
    it, if anything did. Nothing is written before [write_data], so an
    exception of the extraction leaves the state as it was; a failed move
    comes after the database was written. *)
Definition main_step (w : world) (sheet : string) : world * option abort :=
  match process_sheet (db_of w) sheet with
  | Raise e => (w, Some (Raised e))
  | Ok db' =>
      match clean_up (files_of w) sheet with
      | Some fs' => (World db' fs', None)
      | None => (World db' (files_of w), Some FileNotFound)
      end
  end.

(** The loop of [main] over a listing of [raw]: an abort ends it. *)
Fixpoint main_loop (sheets : list string) (w : world) : world * option abort :=
  match sheets with
  | [] => (w, None)
  | sheet :: rest =>
      match main_step w sheet with
      | (w', None) => main_loop rest w'
      | (w', Some a) => (w', Some a)
      end
  end.

(** [main]: [sheets = os.listdir(raw)], then the loop. *)
Definition main (w : world) : world * option abort :=
  main_loop (raw_dir (files_of w)) w.

End WithFiles.

End SpreadsheetManage.

Export SpreadsheetManage.

(* ================================================================= *)
(** ** Where the two programs keep the database *)

Module Paths.

(** An absolute path, as its components below the root. *)
Definition path : Type := list string.

(** [os.path.join(p, *parts)] for relative [parts]. *)
Definition join (p : path) (parts : list string) : path := p ++ parts.

(** [os.path.dirname(p)]. *)
Definition dirname (p : path) : path := removelast p.

(** [os.path.normpath] on an absolute path: [..] drops the component
    before it (the root has none to drop), [.] and empty components are
    dropped. *)
Fixpoint normpath_onto (done todo : path) : path :=
  match todo with
  | [] => done
  | c :: rest =>
      if String.eqb c ".." then normpath_onto (removelast done) rest
      else if String.eqb c "." || String.eqb c EmptyString
           then normpath_onto done rest
           else normpath_onto (done ++ [c]) rest
  end.

(** [os.path.abspath(p)] for an absolute [p]. *)
Definition abspath (p : path) : path := normpath_onto [] p.

(** [spreadsheet_manage.py]: [src_path], from the script's [__file__]. *)
Definition manage_src_path (file : path) : path :=
  let script_dir := dirname (abspath file) in
  abspath (join script_dir [".."; "src"]).

(** The database file [write_data] opens when [main] calls it with
    [src_path] as [proj_dir]. *)
Definition manage_database (file : path) : path :=
  join (manage_src_path file) ["data"; "employee_tracker.db"].

(** [dashboard.py]: [data_path], from the dashboard's [__file__]. *)
Definition dashboard_data_path (file : path) : path :=
  let dashboard_dir := dirname (abspath file) in
  abspath (join dashboard_dir [".."; "data"]).

(** The folder the dashboard adds to [sys.path] to import
    [spreadsheet_manage]. *)
Definition dashboard_script_path (file : path) : path :=
  let dashboard_dir := dirname (abspath file) in
  abspath (join dashboard_dir [".."; "scripts"]).

(** The database file the dashboard connects to. *)
Definition dashboard_database (file : path) : path :=
  join (dashboard_data_path file) ["employee_tracker.db"].

(** The file [from spreadsheet_manage import main] loads when the
    dashboard runs: the module of that name in the folder the dashboard
    added to [sys.path] for it. *)
Definition imported_manage_file (file : path) : path :=
  join (dashboard_script_path file) ["spreadsheet_manage.py"].

(** A component that [normpath] keeps. *)
Definition plain_component (c : string) : bool :=
  negb (String.eqb c ".." || String.eqb c "." || String.eqb c EmptyString).

End Paths.

Export Paths.

(* ================================================================= *)
(** ** Vocabulary of the properties *)

Module Spec.

(** The cell of a page at a row and a column position. *)
Definition cell_at (p : page) (r c : nat) : option cell :=
  match nth_error (rows p) r with
  | Some cells => nth_error cells c
  | None => None
  end.

(** The [k]-th value recorded for an entity. *)
Definition record_at (d : dict (list cell)) (entity : string) (k : nat)
  : option cell :=
  match dict_get entity d with
  | Some vals => nth_error vals k
  | None => None
  end.

(** The [k]-th field (name and value) stored for an entity. *)
Definition field_at (table : list (sqlrow string)) (entity : string) (k : nat)
  : option (string * cell) :=
  match dict_get entity table with
  | Some fields => nth_error fields k
  | None => None
  end.

(** Writing a list of entries into a dict, one after the other. *)
Definition set_all {V} (l : list (string * V)) (d : dict V) : dict V :=
  fold_left (fun acc e => dict_set (fst e) (snd e) acc) l d.

(** A header cell the resolvers accept: empty, or text. *)
Definition text_or_null (c : cell) : Prop :=
  c = CNull \/ exists s, c = CStr s.

(** The canonical name of a raw header: the vocabulary's, else the slug. *)
Definition canonical (mapping : dict string) (raw : string) : string :=
  match dict_get raw mapping with
  | Some name => name
  | None => slug raw
  end.

(** The text cells of a header row, in order, each as its canonical name
    and its column index (the row starts at column [i]). *)
Fixpoint entries_from (mapping : dict string) (i : nat) (hdr : list cell)
  : list (string * nat) :=
  match hdr with
  | [] => []
  | CStr s :: rest => (canonical mapping s, i) :: entries_from mapping (S i) rest
  | _ :: rest => entries_from mapping (S i) rest
  end.

Definition entries (mapping : dict string) (hdr : list cell)
  : list (string * nat) :=
  entries_from mapping 0 hdr.

(** The number of non-null cells of a header row. *)
Definition count_notna (hdr : list cell) : nat :=
  List.length (filter notna hdr).

(** Column [i] is the last one of the row whose text resolves to [name]. *)
Definition resolves_last (mapping : dict string) (hdr : list cell)
           (name : string) (i : nat) : Prop :=
  (exists s, nth_error hdr i = Some (CStr s) /\ canonical mapping s = name)
  /\ (forall j s', i < j -> nth_error hdr j = Some (CStr s') ->
                   canonical mapping s' <> name).

(** What a resolver's result [m] is on the header row [hdr]: one entry per
    canonical name that a text cell resolves to, at the index of the last
    such cell; the cells' entries themselves, in column order, one per
    non-null cell, when no two cells resolve to the same name. *)
Definition column_map_of (mapping : dict string) (hdr : list cell)
           (m : dict nat) : Prop :=
  NoDup (keys m)
  /\ (forall name,
        In name (keys m) <->
        exists i s, nth_error hdr i = Some (CStr s)
                    /\ canonical mapping s = name)
  /\ (forall name i, dict_get name m = Some i <-> resolves_last mapping hdr name i)
  /\ (NoDup (map fst (entries mapping hdr)) ->
      m = entries mapping hdr /\ List.length m = count_notna hdr).

(** A vocabulary decides the name of each of its headers, and the slug
    names every other header. *)
Definition vocabulary_respected (mapping : dict string) : Prop :=
  (forall raw name, In (raw, name) mapping -> canonical mapping raw = name)
  /\ (forall raw, ~ In raw (keys mapping) -> canonical mapping raw = slug raw).

(** A column label the loop of [get_pay_period] steps over: text without
    the period marker. *)
Definition plain_label (c : cell) : Prop :=
  exists s, c = CStr s /\ contains period_marker s = false.

(** A row the loop of [get_firm_totals] steps over: it has a first cell,
    which does not hold the marker. *)
Definition no_totals_row (r : row) : Prop :=
  exists c rest, r = c :: rest /\ in_str "Final Totals" c = false.

(** The entries a scan of [xs] from index [i] writes: for each element
    that [f] reads as a key and a value, the key with the element's index
    and the value. *)
Fixpoint tagged_from {A V} (f : A -> option (string * V)) (i : nat)
         (xs : list A) : list (string * (nat * V)) :=
  match xs with
  | [] => []
  | x :: rest =>
      match f x with
      | Some (k, v) => (k, (i, v)) :: tagged_from f (S i) rest
      | None => tagged_from f (S i) rest
      end
  end.

(** Element [i] of [xs] is the last one that [f] reads with key [k], and
    [f] reads it with value [v]. *)
Definition last_with {A V} (f : A -> option (string * V)) (xs : list A)
           (k : string) (i : nat) (v : V) : Prop :=
  (exists x, nth_error xs i = Some x /\ f x = Some (k, v))
  /\ (forall j x' v', i < j -> nth_error xs j = Some x' -> f x' <> Some (k, v')).

(** The employee number and the metadata record an employee label text
    parses into; [None] when the text after the number does not split
    into two parts on a comma. *)
Definition parse_label (s : string) : option (string * list cell) :=
  match find ":" s with
  | Some colon =>
      let employee_name := slice_from (colon + 7) s in
      let number := slice (colon + 2) (colon + 6) s in
      match split "," employee_name with
      | [last; first] =>
          Some (number, [CStr (strip employee_name); CStr (strip last);
                         CStr (strip first); CStr number])
      | _ => None
      end
  | None => None
  end.

(** The same for a row: [None] also when the first cell is not an
    employee label. *)
Definition parse_row (r : row) : option (string * list cell) :=
  match r with
  | CStr s :: _ =>
      if contains "Employee Number:" s then parse_label s else None
  | _ => None
  end.

(** A row [get_employees] steps through without an exception: it has a
    first cell, and if that is an employee label it parses. *)
Definition employee_row_ok (r : row) : bool :=
  match r with
  | [] => false
  | c :: _ =>
      if in_str "Employee Number:" c then
        match parse_row r with Some _ => true | None => false end
      else true
  end.

(** The cells of the three rows of a block at the column positions
    [idxs]; [None] when a position is beyond a row. *)
Fixpoint pick3 (week_row mtd_row ytd_row : row) (idxs : list nat)
  : option (list cell * list cell * list cell) :=
  match idxs with
  | [] => Some ([], [], [])
  | i :: rest =>
      match nth_error week_row i, nth_error mtd_row i, nth_error ytd_row i,
            pick3 week_row mtd_row ytd_row rest with
      | Some w, Some m, Some y, Some (ws, ms, ys) =>
          Some (w :: ws, m :: ms, y :: ys)
      | _, _, _, _ => None
      end
  end.

(** The block below the label row [R]: the cells of rows [R + 1], [R + 2]
    and [R + 3] at the positions of the column map. *)
Definition block_of (p : page) (R : nat) (col_name_idx : dict nat)
  : option (list cell * list cell * list cell) :=
  match nth_error (rows p) (R + 1), nth_error (rows p) (R + 2),
        nth_error (rows p) (R + 3) with
  | Some week_row, Some mtd_row, Some ytd_row =>
      pick3 week_row mtd_row ytd_row (map snd col_name_idx)
  | _, _, _ => None
  end.

(** The blocks of all entities of a label index, in its order. *)
Fixpoint all_blocks (p : page) (label_rows : dict nat) (col_name_idx : dict nat)
  : option (list (string * (list cell * list cell * list cell))) :=
  match label_rows with
  | [] => Some []
  | (entity, R) :: rest =>
      match block_of p R col_name_idx, all_blocks p rest col_name_idx with
      | Some b, Some bs => Some ((entity, b) :: bs)
      | _, _ => None
      end
  end.

(** [d[entity].append(v)] for each [v] of [vals] in turn. *)
Definition append_all (entity : string) (vals : list cell)
           (d : dict (list cell)) : dict (list cell) :=
  fold_left (fun acc v => dd_append entity v acc) vals d.

(** The entry a [defaultdict] holds for an entity after its values were
    appended: none when there was no value. *)
Definition entry_of (entity : string) (vals : list cell) : dict (list cell) :=
  match vals with
  | [] => []
  | _ => [(entity, vals)]
  end.

Definition week_of (bs : list (string * (list cell * list cell * list cell)))
  : dict (list cell) :=
  flat_map (fun b => entry_of (fst b) (fst (fst (snd b)))) bs.

Definition mtd_of (bs : list (string * (list cell * list cell * list cell)))
  : dict (list cell) :=
  flat_map (fun b => entry_of (fst b) (snd (fst (snd b)))) bs.

Definition ytd_of (bs : list (string * (list cell * list cell * list cell)))
  : dict (list cell) :=
  flat_map (fun b => entry_of (fst b) (snd (snd b))) bs.

(** The three rows below the label row [R] exist and hold every column
    position of the column map. *)
Definition block_in_range (p : page) (R : nat) (col_name_idx : dict nat)
  : Prop :=
  R + 3 < List.length (rows p)
  /\ forall col cidx, In (col, cidx) col_name_idx ->
       cell_at p (R + 1) cidx <> None
       /\ cell_at p (R + 2) cidx <> None
       /\ cell_at p (R + 3) cidx <> None.

(** The section key as the specification words it: the full remainder of
    the cell text after the colon, trimmed. *)
Definition claimed_section_key (s : string) : option string :=
  match find ":" s with
  | Some colon => Some (strip (slice_from (colon + 1) s))
  | None => None
  end.

(** The name under which [write_data] stores an employee column. *)
Definition stored_name (col : string) : string :=
  match dict_get col rename_mapping with
  | Some col' => col'
  | None => col
  end.

(** The nine period tables. *)
Inductive fact_table : Type :=
| EmployeeWeek | EmployeeMtd | EmployeeYtd
| SectionWeek | SectionMtd | SectionYtd
| FirmWeek | FirmMtd | FirmYtd.

(** A row of a period table, whatever the table: the index value (an
    employee number, a section name, or the firm's period text, which may
    be [None]) and the fields. *)
Definition fact_row : Type := sqlrow (option string).

Definition entity_row (r : sqlrow string) : fact_row := (Some (fst r), snd r).

(** The rows of a period table of the database. *)
Definition fact_rows (t : fact_table) (db : database) : list fact_row :=
  match t with
  | EmployeeWeek => map entity_row (employee_week db)
  | EmployeeMtd => map entity_row (employee_mtd db)
  | EmployeeYtd => map entity_row (employee_ytd db)
  | SectionWeek => map entity_row (section_week db)
  | SectionMtd => map entity_row (section_mtd db)
  | SectionYtd => map entity_row (section_ytd db)
  | FirmWeek => firm_week db
  | FirmMtd => firm_mtd db
  | FirmYtd => firm_ytd db
  end.

(** The rows one call of [write_data] sends to a period table: those of
    the table's frame, its columns renamed. *)
Definition batch_rows (t : fact_table) (b : batch) : list fact_row :=
  match t with
  | EmployeeWeek => map entity_row (sql_rows (rename rename_mapping (emp_week_df b)))
  | EmployeeMtd => map entity_row (sql_rows (rename rename_mapping (emp_mtd_df b)))
  | EmployeeYtd => map entity_row (sql_rows (rename rename_mapping (emp_ytd_df b)))
  | SectionWeek => map entity_row (sql_rows (rename rename_section (sec_week_df b)))
  | SectionMtd => map entity_row (sql_rows (rename rename_section (sec_mtd_df b)))
  | SectionYtd => map entity_row (sql_rows (rename rename_section (sec_ytd_df b)))
  | FirmWeek => sql_rows (rename rename_section (firm_week_df b))
  | FirmMtd => sql_rows (rename rename_section (firm_mtd_df b))
  | FirmYtd => sql_rows (rename rename_section (firm_ytd_df b))
  end.

(** The period a row is stamped with: the date in its [period_ending]
    field, if it holds one. *)
Definition period_of (fields : list (string * cell)) : option Z :=
  match dict_get "period_ending" fields with
  | Some (CTime t) => Some t
  | _ => None
  end.

(** The logical key of a fact row: (entity, period_ending). *)
Definition fact_key : Type := (option string * option Z)%type.

Definition key_of (r : fact_row) : fact_key := (fst r, period_of (snd r)).

Definition option_eqb {A} (eqb : A -> A -> bool) (a b : option A) : bool :=
  match a, b with
  | Some x, Some y => eqb x y
  | None, None => true
  | _, _ => false
  end.

Definition key_eqb (a b : fact_key) : bool :=
  option_eqb String.eqb (fst a) (fst b) && option_eqb Z.eqb (snd a) (snd b).

(** The number of rows with a given key. *)
Definition count_key (k : fact_key) (table : list fact_row) : nat :=
  List.length (filter (fun r => key_eqb k (key_of r)) table).

(** Modelled from the spec: the duplicate-detection hardening of the
    loader, which the source does not have (spec, section 7,
    DuplicatePeriodIngestion: "the same (entity, period_ending)
    combination is about to be appended twice" is "detected and reported
    as a recoverable skip"). A row whose key the table already holds is
    skipped; any other row is appended. *)
Definition append_guarded (table rows : list fact_row) : list fact_row :=
  fold_left
    (fun acc r =>
       if existsb (fun r' => key_eqb (key_of r) (key_of r')) acc
       then acc else acc ++ [r])
    rows table.

(** The double that stands for an integer cell when it is divided by a
    float: for an integer of fewer than 64 bits, the machine conversion of
    its magnitude ([of_uint63], exact up to 2^53 and rounded to nearest
    even above) with its sign; for a larger one, the IEEE 754 rounding to
    nearest even of the Standard Library's specification. *)
Definition double_of_int (z : Z) : float :=
  if ((0 <=? z) && (z <? 2 ^ 63))%Z then of_uint63 (Uint63.of_Z z)
  else if ((- 2 ^ 63 <? z) && (z <? 0))%Z
       then (- of_uint63 (Uint63.of_Z (- z)))%float
       else SF2Prim (binary_normalize prec emax z 0 false).

End Spec.

Export Spec.

(* ================================================================= *)
(** ** Vocabulary of the further properties *)

Module SpecMore.

(** The section name and the metadata record a row gives [get_sections];
    [None] when its first cell is not a section label. *)
Definition parse_section_row (r : row) : option (string * list cell) :=
  match r with
  | CStr s :: _ =>
      if contains "Section:" s then
        match find ":" s with
        | Some colon =>
            let section_name := slice_from (colon + 2) s in
            Some (section_name, [CStr section_name])
        | None => None
        end
      else None
  | _ => None
  end.

(** A weekly [actual_pct] cell that [/ 100.] accepts. *)
Definition divides (v : cell) : Prop := exists q, truediv100 v = Ok q.

(** The weekly [actual_pct] cell of every entity of the label index is
    there and divides. *)
Definition weekly_actual_divides (p : page) (label_rows col_name_idx : dict nat)
  : Prop :=
  forall e R cidx,
    In (e, R) label_rows -> dict_get "actual_pct" col_name_idx = Some cidx ->
    exists w, cell_at p (R + 1) cidx = Some w /\ divides w.

(** The cell that decides what a row gives the inner loop of
    [get_firm_pay_period]: the first text cell that holds the period
    marker, if the row has one. *)
Fixpoint first_marker_cell (r : row) : option string :=
  match r with
  | [] => None
  | CStr i :: rest =>
      if contains period_marker i then Some i else first_marker_cell rest
  | _ :: rest => first_marker_cell rest
  end.

(** The entry the firm dicts hold for the period end after the values
    were appended: none when there was no value. *)
Definition period_entry (period_end : option string) (vals : list cell)
  : list (option string * list cell) :=
  match vals with
  | [] => []
  | _ => [(period_end, vals)]
  end.

(** A frame of one row, keyed by the period end, with the period column
    set to [t]. *)
Definition one_row_frame (t : cell) (period_end : option string)
           (cols : list string) (vals : list cell) : frame (option string) :=
  setcol_scalar "period_ending" t (Frame None cols [(period_end, vals)]).

(** A frame whose rows each hold one value per column. *)
Definition rectangular {K} (df : frame K) : Prop :=
  Forall (fun r => List.length (snd r) = List.length (frame_columns df))
         (frame_rows df).

(** A frame whose [period_ending] column holds [t] in every row. *)
Definition period_column {K} (t : cell) (df : frame K) : Prop :=
  exists i, position "period_ending" (frame_columns df) = Some i
            /\ Forall (fun r => nth_error (snd r) i = Some t) (frame_rows df).

(** Stored rows whose [period_ending] field is [t]. *)
Definition stamped {K} (t : cell) (table : list (sqlrow K)) : Prop :=
  Forall (fun r => dict_get "period_ending" (snd r) = Some t) table.

(** The database after the files [done] were processed one after the
    other, each of them without an exception. *)
Fixpoint ingested (process : database -> string -> result database)
         (done : list string) (db db' : database) : Prop :=
  match done with
  | [] => db' = db
  | sheet :: rest =>
      exists db1, process db sheet = Ok db1 /\ ingested process rest db1 db'
  end.

(** A table that kept its rows, in place, and may have gained rows after
    them. *)
Definition extends {A} (before after : list A) : Prop :=
  exists new, after = before ++ new.

End SpecMore.

Export SpecMore.

(* ================================================================= *)
(** ** Sample inputs *)

Module Samples.

(** A roster header row with two empty cells and an unmapped header. *)
Definition c8_header : row :=
  [CNull; CStr "Target"; CStr "Actual"; CStr " Direct Hours "; CNull; CStr "PPL"].

(** A firm summary page whose first row holds the period text. *)
Definition firm_page_with_period : page :=
  Page [CStr "Unnamed: 0"; CStr "Unnamed: 1"]
       [ [CStr "$ Utilization"; CNull];
         [CStr "For the period Jan 1 - Jan 7"; CNull];
         [CStr "Final Totals"; CNull] ].

(** The same page without the period text. *)
Definition firm_page_without_period : page :=
  Page [CStr "Unnamed: 0"; CStr "Unnamed: 1"]
       [ [CStr "$ Utilization"; CNull];
         [CNull; CNull];
         [CStr "Final Totals"; CNull] ].

(** A firm summary page with the period text in two rows. *)
Definition firm_page_two_periods : page :=
  Page [CStr "Unnamed: 0"; CStr "Unnamed: 1"]
       [ [CStr "For the period Jan 1 - Jan 7"; CStr "For the period Feb 1 - Feb 7"];
         [CStr "For the period Mar 1 - Mar 7"; CNull] ].

(** A roster page, with the period text among its column labels. *)
Definition roster_columns : list cell :=
  [CStr "Unnamed: 0"; CStr "For the period Jan 1 - Jan 7"; CStr "For the period Feb 1 - Feb 7"].

(** A roster page: the header row, then two employee blocks. The weekly
    and the month-to-date [Actual] cells of the first employee both read
    87.5. *)
Definition roster_page : page :=
  Page roster_columns
       [ [CNull; CStr "Target"; CStr "Actual"; CStr "Direct"];
         [CStr "Employee Number: 1001 Doe, Jane"; CNull; CNull; CNull];
         [CStr "Week"; CInt 80; CFloat 87.5; CFloat 35];
         [CStr "MTD"; CInt 80; CFloat 87.5; CFloat 140];
         [CStr "YTD"; CInt 80; CFloat 90; CFloat 1500];
         [CStr "Employee Number: 1002 Roe, Rick"; CNull; CNull; CNull];
         [CStr "Week"; CInt 75; CInt 50; CFloat 20];
         [CStr "MTD"; CInt 75; CFloat 62.5; CFloat 100];
         [CStr "YTD"; CInt 75; CNull; CFloat 1100] ].

(** Its label index and its column map, as [get_employees] and
    [get_columns] return them. *)
Definition roster_labels : dict nat := [("1001", 1); ("1002", 5)].

Definition roster_colmap : dict nat :=
  [("target_pct", 1); ("actual_pct", 2); ("direct", 3)].

(** A date parser for the samples: every period end is day 7. *)
Definition sample_to_datetime (period_end : option string) : result cell :=
  Ok (CTime 7).

(** A roster page on which the number 1001 labels two blocks. *)
Definition roster_page_twice : page :=
  Page roster_columns
       [ [CNull; CStr "Target"; CStr "Actual"];
         [CStr "Employee Number: 1001 Doe, Jane"; CNull; CNull];
         [CStr "Week"; CInt 80; CFloat 87.5];
         [CStr "MTD"; CInt 80; CFloat 87.5];
         [CStr "YTD"; CInt 80; CFloat 90];
         [CStr "Employee Number: 1002 Roe, Rick"; CNull; CNull];
         [CStr "Week"; CInt 75; CInt 50];
         [CStr "MTD"; CInt 75; CFloat 62.5];
         [CStr "YTD"; CInt 75; CNull];
         [CStr "Employee Number: 1001 Doe, John"; CNull; CNull];
         [CStr "Week"; CInt 60; CInt 40];
         [CStr "MTD"; CInt 60; CInt 45];
         [CStr "YTD"; CInt 60; CInt 50] ].

(** The frames [get_employee_data] builds from the roster page. *)
Definition no_frame : frame string := Frame None [] [].

Definition roster_week : frame string :=
  match get_employee_data sample_to_datetime roster_page (Some "Jan 7")
                          roster_labels roster_colmap with
  | Ok (week_df, _, _) => week_df
  | Raise _ => no_frame
  end.

Definition roster_mtd : frame string :=
  match get_employee_data sample_to_datetime roster_page (Some "Jan 7")
                          roster_labels roster_colmap with
  | Ok (_, mtd_df, _) => mtd_df
  | Raise _ => no_frame
  end.

Definition roster_ytd : frame string :=
  match get_employee_data sample_to_datetime roster_page (Some "Jan 7")
                          roster_labels roster_colmap with
  | Ok (_, _, ytd_df) => ytd_df
  | Raise _ => no_frame
  end.

(** The employee metadata of the roster page. *)
Definition roster_employees : frame string :=
  match get_employees roster_page with
  | Ok (_, employee_df) => employee_df
  | Raise _ => no_frame
  end.

Definition no_firm_frame : frame (option string) := Frame None [] [].

(** One call of [write_data] for the roster page alone. *)
Definition roster_batch : batch :=
  Batch roster_employees roster_week roster_mtd roster_ytd
        no_frame no_frame no_frame
        no_firm_frame no_firm_frame no_firm_frame.

(** The database before the first run. *)
Definition empty_db : database :=
  Database [] [] [] [] [] [] [] [] [] [].

(** A database that holds employee 1001, and the metadata of a second
    file with 1001 (under another first name) and 1002. *)
Definition db_with_1001 : database :=
  Database
    [("1001", [("name", CStr "Doe, Jane"); ("last", CStr "Doe");
               ("first", CStr "Jane"); ("employee_number", CStr "1001")])]
    [] [] [] [] [] [] [] [] [].

Definition second_file_employees : frame string :=
  Frame (Some "employee_id") employee_columns
        [("1001", [CStr "Doe, Janet"; CStr "Doe"; CStr "Janet"; CStr "1001"]);
         ("1002", [CStr "Roe, Rick"; CStr "Roe"; CStr "Rick"; CStr "1002"])].

Definition second_file_batch : batch :=
  Batch second_file_employees no_frame no_frame no_frame
        no_frame no_frame no_frame
        no_firm_frame no_firm_frame no_firm_frame.

End Samples.

Export Samples.

(* ================================================================= *)
(** ** Further sample inputs *)

Module SamplesMore.

(** A roster page whose second label row is the last row but two: its
    block reaches beyond the page. *)
Definition roster_page_cut : page :=
  Page roster_columns
       [ [CNull; CStr "Target"; CStr "Actual"];
         [CStr "Employee Number: 1001 Doe, Jane"; CNull; CNull];
         [CStr "Week"; CInt 80; CFloat 87.5];
         [CStr "MTD"; CInt 80; CFloat 87.5];
         [CStr "YTD"; CInt 80; CFloat 90];
         [CStr "Employee Number: 1002 Roe, Rick"; CNull; CNull];
         [CStr "Week"; CInt 75; CInt 50];
         [CStr "MTD"; CInt 75; CFloat 62.5] ].

Definition short_colmap : dict nat := [("target_pct", 1); ("actual_pct", 2)].

(** A firm summary page: title rows, the header row at index 7, two
    section blocks (one name twice) and the totals block. *)
Definition util_page : page :=
  Page [CStr "Unnamed: 0"; CStr "Unnamed: 1"; CStr "Unnamed: 2"]
       [ [CStr "$ Utilization"; CNull; CNull];
         [CStr "For the period Jan 1 - Jan 7"; CNull; CNull];
         [CNull; CNull; CNull];
         [CNull; CNull; CNull];
         [CNull; CNull; CNull];
         [CNull; CNull; CNull];
         [CNull; CNull; CNull];
         [CNull; CStr ("Actual" ++ nl ++ "%"); CStr "Direct"];
         [CStr "Section: Fisheries"; CNull; CNull];
         [CStr "Week"; CFloat 81.5; CFloat 300];
         [CStr "MTD"; CFloat 80; CFloat 1200];
         [CStr "YTD"; CFloat 79; CFloat 9000];
         [CStr "Section: Hydrology"; CNull; CNull];
         [CStr "Week"; CFloat 71.5; CFloat 200];
         [CStr "MTD"; CFloat 70; CFloat 800];
         [CStr "YTD"; CFloat 69; CFloat 7000];
         [CStr "Section: Fisheries"; CNull; CNull];
         [CStr "Week"; CFloat 61.5; CFloat 100];
         [CStr "MTD"; CFloat 60; CFloat 400];
         [CStr "YTD"; CFloat 59; CFloat 5000];
         [CStr "Final Totals"; CNull; CNull];
         [CStr "Week"; CFloat 75; CFloat 600];
         [CStr "MTD"; CFloat 74; CFloat 2400];
         [CStr "YTD"; CFloat 73; CFloat 21000] ].

Definition util_colmap : dict nat := [("actual_pct", 1); ("direct", 2)].

(** The database after the first file, whose pages are the roster page
    and the firm summary page. *)
Definition first_run : database :=
  match process_pages sample_to_datetime empty_db roster_page util_page with
  | Ok db' => db'
  | Raise _ => empty_db
  end.

(** Three files in [raw]: the first reads as the roster page and the firm
    summary page, the second as the cut roster page, the third is not a
    workbook. *)
Definition sample_read_excel (sheet page_name : string) : result page :=
  if String.eqb sheet "week1.xlsx" then
    if String.eqb page_name section_page then Ok roster_page else Ok util_page
  else if String.eqb sheet "week2.xlsx" then
    if String.eqb page_name section_page then Ok roster_page_cut
    else Ok util_page
  else Raise ValueError.

Definition sample_world : world :=
  World empty_db (Folders ["week1.xlsx"; "week2.xlsx"; "notes.txt"] []).

End SamplesMore.

Export SamplesMore.

(* ================================================================= *)
(** ** Facts about the Python primitives *)

Section DictFacts.

Context {V : Type}.
Implicit Types (d : dict V) (k : string) (v : V).

Lemma dict_get_set d k k' v :
  dict_get k (dict_set k' v d) =
  if String.eqb k k' then Some v else dict_get k d.
Proof.
  induction d as [|[k0 v0] d IH]; simpl.
  - reflexivity.
  - destruct (String.eqb k' k0) eqn:E'; simpl.
    + apply String.eqb_eq in E'; subst k0.
      destruct (String.eqb k k'); reflexivity.
    + destruct (String.eqb k k0) eqn:E0.
      * apply String.eqb_eq in E0; subst k0.
        rewrite String.eqb_sym, E'. reflexivity.
      * apply IH.
Qed.

Lemma dict_get_None d k : dict_get k d = None <-> ~ In k (keys d).
Proof.
  induction d as [|[k0 v0] d IH]; simpl.
  - intuition.
  - destruct (String.eqb_spec k k0) as [->|N].
    + split; [discriminate | intros H; exfalso; apply H; now left].
    + rewrite IH. intuition congruence.
Qed.

Lemma dict_get_NoDup d k v :
  NoDup (keys d) -> In (k, v) d -> dict_get k d = Some v.
Proof.
  induction d as [|[k0 v0] d IH]; simpl; intros ND HIn; [contradiction|].
  inversion ND as [|? ? Hk0 ND']; subst.
  destruct HIn as [[= -> ->]|HIn].
  - now rewrite String.eqb_refl.
  - destruct (String.eqb_spec k k0) as [->|N]; [|auto].
    exfalso. apply Hk0. apply (in_map fst) in HIn. exact HIn.
Qed.

Lemma dict_get_app d1 d2 k :
  dict_get k (d1 ++ d2) =
  match dict_get k d1 with
  | Some v => Some v
  | None => dict_get k d2
  end.
Proof.
  induction d1 as [|[k0 v0] d1 IH]; simpl; [reflexivity|].
  destruct (String.eqb k k0); [reflexivity | apply IH].
Qed.

Lemma keys_dict_set d k v :
  forall k', In k' (keys (dict_set k v d)) <-> k' = k \/ In k' (keys d).
Proof.
  induction d as [|[k0 v0] d IH]; simpl; intros k'.
  - intuition.
  - destruct (String.eqb_spec k k0) as [->|N]; simpl.
    + intuition.
    + rewrite IH. intuition.
Qed.

Lemma dict_set_fresh d k v :
  ~ In k (keys d) -> dict_set k v d = d ++ [(k, v)].
Proof.
  induction d as [|[k0 v0] d IH]; simpl; intros H; [reflexivity|].
  destruct (String.eqb_spec k k0) as [->|N].
  - exfalso. apply H. now left.
  - f_equal. apply IH. intuition.
Qed.

Lemma dict_set_last d k v v' :
  ~ In k (keys d) -> dict_set k v' (d ++ [(k, v)]) = d ++ [(k, v')].
Proof.
  induction d as [|[k0 v0] d IH]; simpl; intros H.
  - now rewrite String.eqb_refl.
  - destruct (String.eqb_spec k k0) as [->|N].
    + exfalso. apply H. now left.
    + f_equal. apply IH. intuition.
Qed.

Lemma NoDup_keys_dict_set d k v :
  NoDup (keys d) -> NoDup (keys (dict_set k v d)).
Proof.
  induction d as [|[k0 v0] d IH]; simpl; intros ND.
  - constructor; [intros [] | constructor].
  - inversion ND as [|? ? Hk0 ND']; subst.
    destruct (String.eqb_spec k k0) as [->|N]; simpl.
    + constructor; assumption.
    + constructor; [|auto].
      intros HIn. apply keys_dict_set in HIn. destruct HIn as [->|HIn]; auto.
Qed.

Lemma NoDup_keys_set_all l d : NoDup (keys d) -> NoDup (keys (set_all l d)).
Proof.
  revert d; induction l as [|[k v] l IH]; intros d ND; simpl; [exact ND|].
  apply IH. now apply NoDup_keys_dict_set.
Qed.

Lemma keys_set_all l d k :
  In k (keys (set_all l d)) <-> In k (map fst l) \/ In k (keys d).
Proof.
  revert d; induction l as [|[k0 v0] l IH]; intros d; simpl.
  - intuition.
  - rewrite IH, keys_dict_set. intuition.
Qed.

(** The entry read back is the last one written for the key. *)
Lemma dict_get_set_all l d k :
  dict_get k (set_all l d) =
  match dict_get k (rev l) with
  | Some v => Some v
  | None => dict_get k d
  end.
Proof.
  revert d; induction l as [|[k0 v0] l IH]; intros d; simpl; [reflexivity|].
  rewrite IH, dict_get_app. simpl.
  destruct (dict_get k (rev l)); [reflexivity|].
  rewrite dict_get_set. destruct (String.eqb k k0); reflexivity.
Qed.

Lemma set_all_fresh l d :
  NoDup (keys (d ++ l)) -> set_all l d = d ++ l.
Proof.
  revert d; induction l as [|[k v] l IH]; intros d ND; simpl.
  - now rewrite app_nil_r.
  - assert (Hfresh : ~ In k (keys d)).
    { unfold keys in ND. rewrite map_app in ND. simpl in ND.
      apply NoDup_remove_2 in ND. intros H. apply ND.
      apply in_or_app. now left. }
    rewrite dict_set_fresh by exact Hfresh.
    change (d ++ (k, v) :: l) with (d ++ [(k, v)] ++ l).
    rewrite app_assoc. apply IH. now rewrite <- app_assoc.
Qed.

End DictFacts.

Section DictMoreFacts.

Context {V W : Type}.

Lemma dict_get_map_values (h : V -> W) (l : dict V) (k : string) :
  dict_get k (map (fun e => (fst e, h (snd e))) l) = option_map h (dict_get k l).
Proof.
  induction l as [|[k0 v0] l IH]; simpl; [reflexivity|].
  destruct (String.eqb k k0); [reflexivity | exact IH].
Qed.

Lemma in_dict_set (d : dict V) (k k' : string) (v v' : V) :
  In (k, v) (dict_set k' v' d) -> (k, v) = (k', v') \/ In (k, v) d.
Proof.
  induction d as [|[k0 v0] d IH]; simpl.
  - intros [H|[]]. left. now symmetry.
  - destruct (String.eqb k' k0); simpl.
    + intros [H|H]; [left; now symmetry | right; now right].
    + intros [H|H]; [right; now left|].
      destruct (IH H); [now left | right; now right].
Qed.

Lemma in_set_all (l : list (string * V)) (d : dict V) (k : string) (v : V) :
  In (k, v) (set_all l d) -> In (k, v) l \/ In (k, v) d.
Proof.
  revert d; induction l as [|[k0 v0] l IH]; intros d; simpl; [auto|].
  intros H. destruct (IH _ H) as [H'|H']; [auto|].
  destruct (in_dict_set _ _ _ _ _ H') as [E|E]; [left; left; now symmetry | auto].
Qed.

End DictMoreFacts.

Section StringFacts.

Implicit Types (a b s : string) (c : ascii).

Lemma find_app_first a b c :
  find c a = None -> find c (a ++ String c b) = Some (String.length a).
Proof.
  induction a as [|x a IH]; simpl.
  - intros _. now rewrite Ascii.eqb_refl.
  - destruct (Ascii.eqb x c); [discriminate|].
    destruct (find c a); [discriminate|].
    intros _. now rewrite IH.
Qed.

Lemma option_map_S_None (o : option nat) : option_map S o = None <-> o = None.
Proof. destruct o; simpl; split; congruence. Qed.

Lemma find_None_app a b c :
  find c (a ++ b) = None <-> find c a = None /\ find c b = None.
Proof.
  induction a as [|x a IH]; simpl.
  - intuition.
  - destruct (Ascii.eqb x c).
    + split; [discriminate | intros [H _]; discriminate].
    + now rewrite !option_map_S_None.
Qed.

Lemma slice_from_app a b n :
  slice_from (String.length a + n) (a ++ b) = slice_from n b.
Proof. induction a as [|x a IH]; simpl; auto. Qed.

Lemma split_no_sep a c : find c a = None -> split c a = [a].
Proof.
  induction a as [|x a IH]; simpl; [reflexivity|].
  destruct (Ascii.eqb x c); [discriminate|].
  destruct (find c a); [discriminate|].
  intros _. now rewrite IH.
Qed.

Lemma split_app_sep a b c :
  find c a = None -> split c (a ++ String c b) = a :: split c b.
Proof.
  induction a as [|x a IH]; simpl.
  - intros _. now rewrite Ascii.eqb_refl.
  - destruct (Ascii.eqb x c); [discriminate|].
    destruct (find c a); [discriminate|].
    intros _. now rewrite IH.
Qed.

(** [sub in s] holds exactly when [s] is some text, then [sub], then
    some text. *)
Lemma prefix_app sub s : prefix sub s = true <-> exists t : string, s = (sub ++ t)%string.
Proof.
  revert s; induction sub as [|x sub IH]; intros s; simpl.
  - split; [intros _; now exists s | intros _; now destruct s].
  - destruct s as [|y s]; simpl.
    + split; [discriminate | intros [t H]; discriminate].
    + destruct (Ascii.ascii_dec x y) as [->|N].
      * rewrite IH. split; intros [t H]; exists t; congruence.
      * split; [discriminate | intros [t H]; congruence].
Qed.

Lemma contains_nil sub : contains sub EmptyString = prefix sub EmptyString.
Proof. reflexivity. Qed.

Lemma contains_cons sub y s :
  contains sub (String y s) = prefix sub (String y s) || contains sub s.
Proof. reflexivity. Qed.

Lemma contains_app sub s :
  contains sub s = true <-> exists u t : string, s = (u ++ sub ++ t)%string.
Proof.
  induction s as [|y s IH].
  - rewrite contains_nil, prefix_app. split.
    + intros [t H]. exists EmptyString, t. exact H.
    + intros (u & t & H). destruct u; simpl in H.
      * eauto.
      * discriminate.
  - rewrite contains_cons, Bool.orb_true_iff, IH, prefix_app. split.
    + intros [[t H]|(u & t & H)].
      * exists EmptyString, t. exact H.
      * exists (String y u), t. simpl. now rewrite H.
    + intros (u & t & H). destruct u as [|x u]; simpl in H.
      * left. eauto.
      * right. injection H as _ H. eauto.
Qed.

End StringFacts.

(* ================================================================= *)
(** ** Column Resolver *)

Section ResolverFacts.

Variable mapping : dict string.

Lemma text_or_null_dec (c : cell) : {text_or_null c} + {~ text_or_null c}.
Proof.
  destruct c; try (left; unfold text_or_null; eauto; fail);
    right; intros [H|[s H]]; discriminate.
Qed.

(** On a row of text and empty cells the loop writes the entries in
    column order. *)
Lemma resolve_loop_ok (hdr : list cell) :
  Forall text_or_null hdr ->
  forall i d,
    for_each (combine (seq i (List.length hdr)) hdr) d (resolve_step mapping)
    = Ok (set_all (entries_from mapping i hdr) d).
Proof.
  induction 1 as [|c hdr Hc _ IH]; intros i d; simpl; [reflexivity|].
  destruct Hc as [->|[s ->]]; apply IH.
Qed.

(** Any other cell stops the loop with an AttributeError. *)
Lemma resolve_loop_raise (hdr : list cell) :
  ~ Forall text_or_null hdr ->
  forall i d,
    for_each (combine (seq i (List.length hdr)) hdr) d (resolve_step mapping)
    = Raise AttributeError.
Proof.
  induction hdr as [|c hdr IH]; intros H i d; simpl.
  - exfalso. apply H. constructor.
  - destruct (text_or_null_dec c) as [Hc|Hc].
    + assert (H' : ~ Forall text_or_null hdr).
      { intros F. apply H. now constructor. }
      destruct Hc as [->|[s ->]]; now apply IH.
    + destruct c; try reflexivity; exfalso; apply Hc;
        unfold text_or_null; eauto.
Qed.

Lemma entries_from_app (a b : list cell) (i : nat) :
  entries_from mapping i (a ++ b) =
  entries_from mapping i a ++ entries_from mapping (i + List.length a) b.
Proof.
  revert i; induction a as [|c a IH]; intros i; simpl.
  - now rewrite Nat.add_0_r.
  - rewrite Nat.add_succ_r.
    destruct c; simpl; rewrite IH; reflexivity.
Qed.

Lemma in_keys_entries_from (hdr : list cell) (name : string) :
  forall i,
    In name (map fst (entries_from mapping i hdr)) <->
    exists j s, nth_error hdr j = Some (CStr s) /\ canonical mapping s = name.
Proof.
  induction hdr as [|c hdr IH]; intros i; simpl.
  - split; [intros [] | intros (j & s & H & _); destruct j; discriminate].
  - assert (Hskip :
      (exists j s, nth_error hdr j = Some (CStr s) /\ canonical mapping s = name)
      -> exists j s, nth_error (c :: hdr) j = Some (CStr s)
                     /\ canonical mapping s = name).
    { intros (j & s & H1 & H2). exists (S j), s. auto. }
    destruct c as [|s0|z|f|t]; simpl;
      try (rewrite IH; split; [exact Hskip|];
           intros (j & s & H1 & H2); destruct j as [|j];
           [discriminate | exists j, s; auto]).
    rewrite IH. split.
    + intros [H|H]; [exists 0, s0; auto | auto].
    + intros (j & s & H1 & H2). destruct j as [|j]; simpl in H1.
      * injection H1 as ->. now left.
      * right. exists j, s. auto.
Qed.

(** The last entry for a name is the one of the last column that resolves
    to it. *)
Lemma last_entry (hdr : list cell) (name : string) (i : nat) :
  dict_get name (rev (entries mapping hdr)) = Some i <->
  (exists s, nth_error hdr i = Some (CStr s) /\ canonical mapping s = name)
  /\ (forall j s', i < j -> nth_error hdr j = Some (CStr s') ->
                   canonical mapping s' <> name).
Proof.
  unfold entries. induction hdr as [|c hdr IH] using rev_ind.
  - simpl. split; [discriminate|].
    intros [(s & H & _) _]. destruct i; discriminate.
  - rewrite entries_from_app, rev_app_distr. simpl.
    assert (Hlast : nth_error (hdr ++ [c]) (List.length hdr) = Some c).
    { rewrite nth_error_app2 by lia. now rewrite Nat.sub_diag. }
    assert (Hbeyond : forall j, List.length hdr < j ->
                                nth_error (hdr ++ [c]) j = None).
    { intros j Hj. apply nth_error_None. rewrite length_app. simpl. lia. }
    assert (Hin : forall j, j < List.length hdr ->
                            nth_error (hdr ++ [c]) j = nth_error hdr j).
    { intros j Hj. now apply nth_error_app1. }
    assert (Hold :
      (exists s, nth_error hdr i = Some (CStr s) /\ canonical mapping s = name)
      /\ (forall j s', i < j -> nth_error hdr j = Some (CStr s') ->
                       canonical mapping s' <> name)
      <->
      i < List.length hdr /\
      (exists s, nth_error (hdr ++ [c]) i = Some (CStr s)
                 /\ canonical mapping s = name)
      /\ (forall j s', i < j -> j < List.length hdr ->
                       nth_error (hdr ++ [c]) j = Some (CStr s') ->
                       canonical mapping s' <> name)).
    { split.
      - intros [(s & H1 & H2) H3].
        assert (Hi : i < List.length hdr).
        { apply nth_error_Some. congruence. }
        split; [exact Hi|]. split.
        + exists s. rewrite Hin by exact Hi. auto.
        + intros j s' Hij Hj Hn. rewrite Hin in Hn by exact Hj. eauto.
      - intros (Hi & (s & H1 & H2) & H3).
        rewrite Hin in H1 by exact Hi. split; [eauto|].
        intros j s' Hij Hn.
        assert (Hj : j < List.length hdr).
        { apply nth_error_Some. congruence. }
        apply (H3 j s' Hij Hj). now rewrite Hin. }
    assert (Hcases : forall j, j < List.length hdr \/ j = List.length hdr
                               \/ List.length hdr < j) by (intros; lia).
    destruct c as [|s0|z|f|t]; simpl;
      try (rewrite IH, Hold; split;
           [ intros (Hi & Hex & Hno); split; [exact Hex|];
             intros j s' Hij Hn;
             destruct (Hcases j) as [Hj|[->|Hj]];
             [ eauto | congruence | rewrite Hbeyond in Hn by exact Hj; discriminate ]
           | intros [(s & H1 & H2) Hno];
             destruct (Hcases i) as [Hi|[->|Hi]];
             [ split; [exact Hi|]; split; [eauto|];
               intros j s' Hij _ Hn; eauto
             | congruence
             | rewrite Hbeyond in H1 by exact Hi; discriminate ] ]).
    destruct (String.eqb_spec name (canonical mapping s0)) as [->|Hne].
    + split.
      * intros [= <-]. split; [eauto|].
        intros j s' Hj Hn. rewrite Hbeyond in Hn by exact Hj. discriminate.
      * intros [(s & H1 & H2) Hno].
        destruct (Hcases i) as [Hi|[->|Hi]].
        -- exfalso. apply (Hno (List.length hdr) s0 Hi Hlast). reflexivity.
        -- reflexivity.
        -- rewrite Hbeyond in H1 by exact Hi. discriminate.
    + rewrite IH, Hold. split.
      * intros (Hi & Hex & Hno). split; [exact Hex|].
        intros j s' Hij Hn.
        destruct (Hcases j) as [Hj|[->|Hj]].
        -- eauto.
        -- rewrite Hlast in Hn. injection Hn as <-. congruence.
        -- rewrite Hbeyond in Hn by exact Hj. discriminate.
      * intros [(s & H1 & H2) Hno].
        destruct (Hcases i) as [Hi|[->|Hi]].
        -- split; [exact Hi|]. split; [eauto|].
           intros j s' Hij _ Hn. eauto.
        -- rewrite Hlast in H1. injection H1 as <-. congruence.
        -- rewrite Hbeyond in H1 by exact Hi. discriminate.
Qed.

End ResolverFacts.

Lemma entries_length (mapping : dict string) (hdr : list cell) :
  Forall text_or_null hdr ->
  forall i, List.length (entries_from mapping i hdr) = count_notna hdr.
Proof.
  unfold count_notna.
  induction 1 as [|c hdr Hc _ IH]; intros i; simpl; [reflexivity|].
  destruct Hc as [->|[s ->]]; simpl; rewrite IH; reflexivity.
Qed.

Lemma resolve_spec (mapping : dict string) (hdr : list cell) :
  Forall text_or_null hdr ->
  exists m, resolve mapping hdr = Ok m /\ column_map_of mapping hdr m.
Proof.
  intros Hhdr. exists (set_all (entries mapping hdr) []). split.
  - unfold resolve, enumerate, entries. now apply resolve_loop_ok.
  - unfold column_map_of. split; [|split; [|split]].
    + apply NoDup_keys_set_all. constructor.
    + intros name. rewrite keys_set_all. unfold entries.
      rewrite in_keys_entries_from. simpl. intuition.
    + intros name i. unfold resolves_last. rewrite <- last_entry.
      rewrite dict_get_set_all. simpl.
      destruct (dict_get name (rev (entries mapping hdr))); intuition congruence.
    + intros H. rewrite (set_all_fresh (entries mapping hdr) []) by exact H.
      split; [reflexivity | now apply entries_length].
Qed.

Lemma canonical_vocabulary (mapping : dict string) :
  NoDup (keys mapping) -> vocabulary_respected mapping.
Proof.
  intros ND. split.
  - intros raw name HIn. unfold canonical.
    now rewrite (dict_get_NoDup mapping raw name ND HIn).
  - intros raw HIn. unfold canonical.
    apply dict_get_None in HIn. now rewrite HIn.
Qed.

Lemma NoDup_employee_mapping : NoDup (keys employee_mapping).
Proof.
  unfold keys, employee_mapping; simpl.
  repeat (constructor; [simpl; intuition discriminate|]). constructor.
Qed.

Lemma NoDup_firm_mapping : NoDup (keys firm_mapping).
Proof.
  unfold keys, firm_mapping; simpl.
  repeat (constructor; [simpl; intuition discriminate|]). constructor.
Qed.

(** C8 (as amended). For every header row whose non-null cells are all
    text, each resolver returns a mapping with one entry per canonical name
    that a header cell resolves to (so exactly one entry per non-null cell
    when no two cells resolve to the same name). The key is the documented
    canonical name when the raw header is in the vocabulary of the page
    type and the slug otherwise; the value is the zero-based index of the
    last cell that resolves to the key. *)
Theorem C8_column_map_one_entry_per_name
        (cols : list cell) (hdr r0 r1 r2 r3 r4 r5 r6 : row) (rest : list row) :
  Forall text_or_null hdr ->
  (exists m, get_columns (Page cols (hdr :: rest)) = Ok m
             /\ column_map_of employee_mapping hdr m)
  /\ (exists m, get_firm_columns
                  (Page cols (r0 :: r1 :: r2 :: r3 :: r4 :: r5 :: r6 :: hdr :: rest))
                = Ok m
                /\ column_map_of firm_mapping hdr m)
  /\ vocabulary_respected employee_mapping
  /\ vocabulary_respected firm_mapping.
Proof.
  intros Hhdr. repeat split.
  - unfold get_columns. simpl. now apply resolve_spec.
  - unfold get_firm_columns. simpl. now apply resolve_spec.
  - apply (canonical_vocabulary employee_mapping NoDup_employee_mapping).
  - apply (canonical_vocabulary employee_mapping NoDup_employee_mapping).
  - apply (canonical_vocabulary firm_mapping NoDup_firm_mapping).
  - apply (canonical_vocabulary firm_mapping NoDup_firm_mapping).
Qed.

Lemma C8_column_map_witness :
  (exists m, get_columns (Page [] [c8_header]) = Ok m
             /\ column_map_of employee_mapping c8_header m)
  /\ (exists m, get_firm_columns
                  (Page [] [[]; []; []; []; []; []; []; c8_header])
                = Ok m
                /\ column_map_of firm_mapping c8_header m)
  /\ vocabulary_respected employee_mapping
  /\ vocabulary_respected firm_mapping.
Proof.
  apply (C8_column_map_one_entry_per_name [] c8_header [] [] [] [] [] [] [] []).
  unfold c8_header, text_or_null.
  repeat (constructor; [eauto|]). constructor.
Defined.

(** C8, the claim as stated fails: two header cells that resolve to the
    same canonical name share one entry, so a row with two non-null cells
    yields a mapping with a single entry. *)
Lemma C8_counterexample :
  count_notna [CStr "Direct"; CStr "direct"] = 2
  /\ get_columns (Page [] [[CStr "Direct"; CStr "direct"]]) = Ok [("direct", 1)].
Proof. split; reflexivity. Qed.

(** C10. With the header row in place, each resolver returns a mapping
    exactly when every non-null cell of the row is text; on any other row
    the slug expression raises an AttributeError. *)
Theorem C10_resolvers_total_exactly_on_text
        (cols : list cell) (hdr r0 r1 r2 r3 r4 r5 r6 : row) (rest : list row) :
  let roster := Page cols (hdr :: rest) in
  let firm := Page cols (r0 :: r1 :: r2 :: r3 :: r4 :: r5 :: r6 :: hdr :: rest) in
  ((exists m, get_columns roster = Ok m) <-> Forall text_or_null hdr)
  /\ ((exists m, get_firm_columns firm = Ok m) <-> Forall text_or_null hdr)
  /\ (~ Forall text_or_null hdr ->
      get_columns roster = Raise AttributeError
      /\ get_firm_columns firm = Raise AttributeError).
Proof.
  intros roster firm.
  assert (Hraise : ~ Forall text_or_null hdr ->
                   get_columns roster = Raise AttributeError
                   /\ get_firm_columns firm = Raise AttributeError).
  { intros H. split.
    - unfold get_columns, resolve, enumerate. simpl.
      now apply resolve_loop_raise.
    - unfold get_firm_columns, resolve, enumerate. simpl.
      now apply resolve_loop_raise. }
  assert (Hdec : Forall text_or_null hdr \/ ~ Forall text_or_null hdr).
  { destruct (Forall_dec text_or_null text_or_null_dec hdr); auto. }
  repeat split.
  - intros [m Hm]. destruct Hdec as [H|H]; [exact H|].
    destruct (Hraise H) as [H1 _]. congruence.
  - intros H. unfold roster, get_columns. simpl.
    destruct (resolve_spec employee_mapping hdr H) as (m & Hm & _). eauto.
  - intros [m Hm]. destruct Hdec as [H|H]; [exact H|].
    destruct (Hraise H) as [_ H2]. congruence.
  - intros H. unfold firm, get_firm_columns. simpl.
    destruct (resolve_spec firm_mapping hdr H) as (m & Hm & _). eauto.
  - now apply Hraise.
  - now apply Hraise.
Qed.

(* ================================================================= *)
(** ** Period Extractor *)

Lemma after_hyphen_app (before tail : string) :
  find "-" before = None ->
  after_hyphen (before ++ String "-" tail) = Ok (slice_from 1 tail).
Proof.
  intros H. unfold after_hyphen, index.
  rewrite (find_app_first before tail "-" H). simpl.
  rewrite slice_from_app. reflexivity.
Qed.

Lemma after_hyphen_cases (s : string) :
  (exists e, after_hyphen s = Ok e) \/ after_hyphen s = Raise ValueError.
Proof.
  unfold after_hyphen, index. destruct (find "-" s); simpl; eauto.
Qed.

Lemma get_pay_period_loop_skip (pre rest : list cell) :
  Forall plain_label pre ->
  get_pay_period_loop (pre ++ rest) = get_pay_period_loop rest.
Proof.
  induction 1 as [|c pre (s & -> & Hs) _ IH]; simpl; [reflexivity|].
  now rewrite Hs.
Qed.

(** The first column label that holds the marker decides the result of
    [get_pay_period]: the text after the first hyphen and the one character
    that follows it. The labels after it are not looked at. *)
Theorem get_pay_period_first_match
        (pre post : list cell) (before tail : string) (data : list row) :
  Forall plain_label pre ->
  contains period_marker (before ++ String "-" tail) = true ->
  find "-" before = None ->
  get_pay_period (Page (pre ++ CStr (before ++ String "-" tail) :: post) data)
  = Ok (Some (slice_from 1 tail)).
Proof.
  intros Hpre Hin Hfind. unfold get_pay_period. simpl.
  rewrite (get_pay_period_loop_skip pre _ Hpre). simpl.
  rewrite Hin, (after_hyphen_app before tail Hfind). reflexivity.
Qed.

Lemma get_pay_period_first_match_witness :
  get_pay_period (Page roster_columns []) = Ok (Some "Jan 7").
Proof.
  apply (get_pay_period_first_match
           [CStr "Unnamed: 0"] [CStr "For the period Feb 1 - Feb 7"]
           "For the period Jan 1 " " Jan 7" []).
  - constructor; [|constructor]. eexists. split; reflexivity.
  - reflexivity.
  - reflexivity.
Defined.

(** When no column label holds the marker, [get_pay_period] returns
    [None]. *)
Theorem get_pay_period_not_found (cols : list cell) (data : list row) :
  Forall plain_label cols -> get_pay_period (Page cols data) = Ok None.
Proof.
  intros H. unfold get_pay_period. simpl.
  rewrite <- (app_nil_r cols). now rewrite get_pay_period_loop_skip.
Qed.

Lemma get_pay_period_not_found_witness :
  get_pay_period (Page [CStr "Unnamed: 0"; CStr "Hours"] []) = Ok None.
Proof.
  apply get_pay_period_not_found.
  repeat (constructor; [eexists; split; reflexivity|]). constructor.
Defined.

Lemma firm_period_row_cases (r : row) (period_end : option string) :
  (exists e, firm_period_row period_end r = Ok e)
  \/ firm_period_row period_end r = Raise ValueError.
Proof.
  induction r as [|c r IH]; simpl; [eauto|].
  destruct c; auto.
  destruct (contains period_marker s); [|exact IH].
  destruct (after_hyphen_cases s) as [[e H]|H]; rewrite H; simpl; eauto.
Qed.

Lemma firm_period_rows_cases (rs : list row) (period_end : option string) :
  (exists e, for_each rs period_end firm_period_row = Ok e)
  \/ for_each rs period_end firm_period_row = Raise ValueError.
Proof.
  revert period_end; induction rs as [|r rs IH]; intros period_end; simpl.
  - eauto.
  - destruct (firm_period_row_cases r period_end) as [[e H]|H];
      rewrite H; simpl; auto.
Qed.

(** C3. [get_firm_pay_period] gives its caller [None] on every page on
    which it returns at all: on a page without the marker and on a page
    with it alike, so the absence of the marker cannot be told from its
    presence. *)
Theorem C3_firm_period_absence_indistinguishable :
  (forall p : page,
      get_firm_pay_period p = Ok None
      \/ get_firm_pay_period p = Raise ValueError)
  /\ get_firm_pay_period firm_page_without_period = Ok None
  /\ get_firm_pay_period firm_page_with_period = Ok None.
Proof.
  split; [|split; reflexivity].
  intros p. unfold get_firm_pay_period, get_firm_pay_period_locals.
  destruct (firm_period_rows_cases (map snd (iterrows p)) None) as [[e H]|H];
    rewrite H; simpl; auto.
Qed.

(** C5. On a firm summary page whose first match reads
    ["For the period Jan 1 - Jan 7"], [get_firm_pay_period] works out
    ["Jan 7"] in its local variable and returns [None]; with matches in
    several rows the local variable ends on the last matching row, since
    [break] leaves the inner loop only. [get_pay_period] returns the text
    of the first match. *)
Theorem C5_firm_period_computed_not_returned :
  get_firm_pay_period_locals firm_page_with_period = Ok (Some "Jan 7")
  /\ get_firm_pay_period firm_page_with_period = Ok None
  /\ get_firm_pay_period_locals firm_page_two_periods = Ok (Some "Mar 7")
  /\ get_firm_pay_period firm_page_two_periods = Ok None
  /\ get_pay_period (Page roster_columns []) = Ok (Some "Jan 7").
Proof. repeat split; reflexivity. Qed.

(* ================================================================= *)
(** ** Label Locator *)

Section TaggedFacts.

Context {A V : Type}.
Variable f : A -> option (string * V).

Lemma tagged_from_app (a b : list A) (i : nat) :
  tagged_from f i (a ++ b) =
  tagged_from f i a ++ tagged_from f (i + List.length a) b.
Proof.
  revert i; induction a as [|x a IH]; intros i; simpl.
  - now rewrite Nat.add_0_r.
  - rewrite Nat.add_succ_r.
    destruct (f x) as [[k v]|]; simpl; rewrite IH; reflexivity.
Qed.

(** Reading the reversed entries finds the last element with the key. *)
Lemma last_tagged (xs : list A) (k : string) (i : nat) (v : V) :
  dict_get k (rev (tagged_from f 0 xs)) = Some (i, v) <-> last_with f xs k i v.
Proof.
  unfold last_with. induction xs as [|x xs IH] using rev_ind.
  - simpl. split; [discriminate|].
    intros [(x & H & _) _]. destruct i; discriminate.
  - rewrite tagged_from_app, rev_app_distr. simpl.
    assert (Hlast : nth_error (xs ++ [x]) (List.length xs) = Some x).
    { rewrite nth_error_app2 by lia. now rewrite Nat.sub_diag. }
    assert (Hbeyond : forall j, List.length xs < j ->
                                nth_error (xs ++ [x]) j = None).
    { intros j Hj. apply nth_error_None. rewrite length_app. simpl. lia. }
    assert (Hin : forall j, j < List.length xs ->
                            nth_error (xs ++ [x]) j = nth_error xs j).
    { intros j Hj. now apply nth_error_app1. }
    assert (Hcases : forall j, j < List.length xs \/ j = List.length xs
                               \/ List.length xs < j) by (intros; lia).
    assert (Hold :
      (exists y, nth_error xs i = Some y /\ f y = Some (k, v))
      /\ (forall j x' v', i < j -> nth_error xs j = Some x' ->
                          f x' <> Some (k, v'))
      <->
      i < List.length xs /\
      (exists y, nth_error (xs ++ [x]) i = Some y /\ f y = Some (k, v))
      /\ (forall j x' v', i < j -> j < List.length xs ->
                          nth_error (xs ++ [x]) j = Some x' ->
                          f x' <> Some (k, v'))).
    { split.
      - intros [(y & H1 & H2) H3].
        assert (Hi : i < List.length xs).
        { apply nth_error_Some. congruence. }
        split; [exact Hi|]. split.
        + exists y. rewrite Hin by exact Hi. auto.
        + intros j x' v' Hij Hj Hn. rewrite Hin in Hn by exact Hj. eauto.
      - intros (Hi & (y & H1 & H2) & H3).
        rewrite Hin in H1 by exact Hi. split; [eauto|].
        intros j x' v' Hij Hn.
        assert (Hj : j < List.length xs).
        { apply nth_error_Some. congruence. }
        apply (H3 j x' v' Hij Hj). now rewrite Hin. }
    assert (Hother : (forall v', f x <> Some (k, v')) ->
      dict_get k (rev (tagged_from f 0 xs)) = Some (i, v) <->
      (exists y, nth_error (xs ++ [x]) i = Some y /\ f y = Some (k, v))
      /\ (forall j x' v', i < j -> nth_error (xs ++ [x]) j = Some x' ->
                          f x' <> Some (k, v'))).
    { intros Hfx. rewrite IH, Hold. split.
      - intros (Hi & Hex & Hno). split; [exact Hex|].
        intros j x' v' Hij Hn.
        destruct (Hcases j) as [Hj|[->|Hj]].
        + eauto.
        + rewrite Hlast in Hn. injection Hn as <-. apply Hfx.
        + rewrite Hbeyond in Hn by exact Hj. discriminate.
      - intros [(y & H1 & H2) Hno].
        destruct (Hcases i) as [Hi|[->|Hi]].
        + split; [exact Hi|]. split; [eauto|].
          intros j x' v' Hij _ Hn. eauto.
        + rewrite Hlast in H1. injection H1 as <-.
          exfalso. apply (Hfx v H2).
        + rewrite Hbeyond in H1 by exact Hi. discriminate. }
    destruct (f x) as [[k0 v0]|] eqn:Hfx; simpl.
    + destruct (String.eqb_spec k k0) as [->|Hne].
      * split.
        -- intros [= <- <-]. split; [eauto|].
           intros j x' v' Hj Hn. rewrite Hbeyond in Hn by exact Hj.
           discriminate.
        -- intros [(y & H1 & H2) Hno].
           destruct (Hcases i) as [Hi|[->|Hi]].
           ++ exfalso. apply (Hno (List.length xs) x v0 Hi Hlast Hfx).
           ++ rewrite Hlast in H1. injection H1 as <-. congruence.
           ++ rewrite Hbeyond in H1 by exact Hi. discriminate.
      * apply Hother. intros v'. congruence.
    + apply Hother. intros v'. discriminate.
Qed.

End TaggedFacts.

Lemma marker_has_colon (s : string) :
  contains "Employee Number:" s = true -> exists colon, find ":" s = Some colon.
Proof.
  intros H. apply contains_app in H. destruct H as (u & t & ->).
  destruct (find ":" (u ++ "Employee Number:" ++ t)) as [n|] eqn:E; [eauto|].
  apply find_None_app in E. destruct E as [_ E]. discriminate.
Qed.

(** One step of [get_employees] on a row that parses, or that is no label
    row: the number's entries are written, or nothing is. *)
Lemma get_employees_step_ok (er : dict nat) (ed : dict (list cell))
      (i : nat) (r : row) :
  employee_row_ok r = true ->
  get_employees_step (er, ed) (i, r) =
  Ok (match parse_row r with
      | Some (number, record) => (dict_set number i er, dict_set number record ed)
      | None => (er, ed)
      end).
Proof.
  destruct r as [|c r]; [discriminate|].
  unfold employee_row_ok, get_employees_step, parse_row, iloc, getitem.
  simpl nth_error. cbv beta iota.
  destruct c as [|s|z|f|t]; try reflexivity.
  unfold in_str, bind at 1. destruct (contains "Employee Number:" s); [|reflexivity].
  unfold text_of, bind at 1. unfold parse_label, index.
  destruct (find ":" s) as [colon|]; [|discriminate].
  cbv zeta. unfold bind at 1. unfold unpack2.
  destruct (split "," (slice_from (colon + 7) s)) as [|last [|first [|x l]]];
    try discriminate.
  reflexivity.
Qed.

Lemma get_employees_step_raise (st : employee_state) (i : nat) (r : row) :
  employee_row_ok r = false ->
  exists e, get_employees_step st (i, r) = Raise e.
Proof.
  destruct st as [er ed]. destruct r as [|c r]; [intros _; now exists IndexError|].
  unfold employee_row_ok, get_employees_step, parse_row, iloc, getitem.
  simpl nth_error. cbv beta iota.
  destruct c as [|s|z|f|t]; try discriminate.
  unfold in_str, bind at 1. destruct (contains "Employee Number:" s) eqn:Hs;
    [|discriminate].
  unfold text_of, bind at 1. unfold parse_label, index.
  destruct (marker_has_colon s Hs) as [colon ->].
  cbv zeta. unfold bind at 1. unfold unpack2.
  destruct (split "," (slice_from (colon + 7) s)) as [|last [|first [|x l]]];
    try discriminate; intros _; now exists ValueError.
Qed.

Lemma get_employees_loop_ok (rs : list row) :
  Forall (fun r => employee_row_ok r = true) rs ->
  forall i er ed,
    for_each (combine (seq i (List.length rs)) rs) (er, ed) get_employees_step
    = Ok (set_all (map (fun e => (fst e, fst (snd e))) (tagged_from parse_row i rs)) er,
          set_all (map (fun e => (fst e, snd (snd e))) (tagged_from parse_row i rs)) ed).
Proof.
  induction 1 as [|r rs Hr _ IH]; intros i er ed; [reflexivity|].
  cbn [List.length seq combine for_each tagged_from].
  rewrite (get_employees_step_ok er ed i r Hr).
  destruct (parse_row r) as [[number record]|]; simpl; apply IH.
Qed.

(** A row that does not parse, or has no first cell, stops the loop. *)
Lemma get_employees_loop_raise (rs : list row) :
  ~ Forall (fun r => employee_row_ok r = true) rs ->
  forall i st,
    exists e,
      for_each (combine (seq i (List.length rs)) rs) st get_employees_step
      = Raise e.
Proof.
  induction rs as [|r rs IH]; intros H i st.
  - exfalso. apply H. constructor.
  - cbn [List.length seq combine for_each].
    destruct (employee_row_ok r) eqn:Hr.
    + destruct st as [er ed]. rewrite (get_employees_step_ok er ed i r Hr).
      cbn [bind]. apply IH. intros F. apply H. now constructor.
    + destruct (get_employees_step_raise st i r Hr) as [e ->]. now exists e.
Qed.

Lemma get_employees_raises (p : page) :
  ~ Forall (fun r => employee_row_ok r = true) (rows p) ->
  exists e, get_employees p = Raise e.
Proof.
  intros H.
  destruct (get_employees_loop_raise (rows p) H 0 ([], [])) as [e He].
  assert (Hloop : for_each (iterrows p) ([], []) get_employees_step = Raise e)
    by exact He.
  exists e. unfold get_employees. now rewrite Hloop.
Qed.

Lemma parse_row_length (r : row) (number : string) (record : list cell) :
  parse_row r = Some (number, record) -> List.length record = 4.
Proof.
  unfold parse_row, parse_label.
  destruct r as [|[|s|z|f|t] r]; try discriminate.
  destruct (contains "Employee Number:" s); [|discriminate].
  destruct (find ":" s) as [colon|]; [|discriminate].
  cbv zeta.
  destruct (split "," (slice_from (colon + 7) s)) as [|last [|first [|x l]]];
    try discriminate.
  intros [= <- <-]. reflexivity.
Qed.

Lemma in_tagged_from {A V} (f : A -> option (string * V)) (xs : list A) :
  forall i k j v, In (k, (j, v)) (tagged_from f i xs) -> exists x, In x xs /\ f x = Some (k, v).
Proof.
  induction xs as [|x xs IH]; intros i k j v; simpl; [intros []|].
  destruct (f x) as [[k0 v0]|] eqn:E; simpl.
  - intros [[= <- <- <-]|H]; [eauto|].
    destruct (IH _ _ _ _ H) as (y & Hy & Hf). eauto.
  - intros H. destruct (IH _ _ _ _ H) as (y & Hy & Hf). eauto.
Qed.

(** C9. On a page whose rows [get_employees] can step through (each has a
    first cell, and each employee label parses), the function returns, the
    label index and the metadata have one entry per employee number, and a
    number that several label rows carry is mapped to the index of the last
    of them and to the name components of that row. *)
Theorem C9_last_label_row_wins (p : page) :
  Forall (fun r => employee_row_ok r = true) (rows p) ->
  exists employee_rows employee_df,
    get_employees p = Ok (employee_rows, employee_df)
    /\ NoDup (keys employee_rows)
    /\ NoDup (keys (frame_rows employee_df))
    /\ forall number i record,
        last_with parse_row (rows p) number i record ->
        dict_get number employee_rows = Some i
        /\ dict_get number (frame_rows employee_df) = Some record.
Proof.
  intros Hrows.
  set (T := tagged_from parse_row 0 (rows p)).
  set (er := set_all (map (fun e => (fst e, fst (snd e))) T) []).
  set (ed := set_all (map (fun e => (fst e, snd (snd e))) T) []).
  assert (Hloop : for_each (iterrows p) ([], []) get_employees_step = Ok (er, ed)).
  { unfold iterrows, enumerate. now rewrite get_employees_loop_ok. }
  assert (Hfd : from_dict ed employee_columns = Ok (Frame None employee_columns ed)).
  { unfold from_dict.
    replace (forallb _ ed) with true; [reflexivity|].
    symmetry. apply forallb_forall. intros [k v] HIn. simpl.
    apply in_set_all in HIn. destruct HIn as [HIn|[]].
    apply in_map_iff in HIn. destruct HIn as ([k' [j v']] & [= <- <-] & HIn).
    simpl. apply in_tagged_from in HIn. destruct HIn as (r & _ & Hr).
    now rewrite (parse_row_length r k' v' Hr). }
  exists er, (set_index_name "employee_id" (Frame None employee_columns ed)).
  split; [|split; [|split]].
  - unfold get_employees. rewrite Hloop. simpl. rewrite Hfd. reflexivity.
  - apply NoDup_keys_set_all. constructor.
  - simpl. apply NoDup_keys_set_all. constructor.
  - intros number i record Hlast.
    apply last_tagged in Hlast. fold T in Hlast.
    unfold er, ed. simpl frame_rows.
    rewrite !dict_get_set_all, <- !map_rev, !dict_get_map_values, Hlast.
    split; reflexivity.
Qed.

Lemma C9_last_label_row_wins_witness :
  (exists employee_rows employee_df,
      get_employees roster_page_twice = Ok (employee_rows, employee_df)
      /\ NoDup (keys employee_rows)
      /\ NoDup (keys (frame_rows employee_df))
      /\ forall number i record,
          last_with parse_row (rows roster_page_twice) number i record ->
          dict_get number employee_rows = Some i
          /\ dict_get number (frame_rows employee_df) = Some record)
  /\ get_employees roster_page_twice
     = Ok ([("1001", 9); ("1002", 5)],
           Frame (Some "employee_id") employee_columns
                 [("1001", [CStr "Doe, John"; CStr "Doe"; CStr "John"; CStr "1001"]);
                  ("1002", [CStr "Roe, Rick"; CStr "Roe"; CStr "Rick"; CStr "1002"])]).
Proof.
  split; [|reflexivity].
  apply (C9_last_label_row_wins roster_page_twice).
  repeat (constructor; [reflexivity|]). constructor.
Defined.

(** C4 (as amended). The keys are cut at fixed offsets from the first
    colon. In an employee label, the colon is followed by one separator
    character, the four characters of the key, one more character and the
    name field (so the name starts 7 characters after the colon); the name
    field, holding one comma, gives the last and first names, each
    stripped. In a section label the key is the text that starts two
    characters after the colon, as it stands: it is not trimmed. *)
Theorem C4_label_keys_at_fixed_offsets
        (er : dict nat) (ed : dict (list cell)) (idx : nat) (rest : row)
        (pre : string) (sep : ascii) (code : string) (x : ascii)
        (last first : string)
        (pre' : string) (sep' : ascii) (remainder : string) :
  let name := (last ++ "," ++ first)%string in
  let s := (pre ++ ":" ++ String sep (code ++ String x name))%string in
  let s' := (pre' ++ ":" ++ String sep' remainder)%string in
  find ":" pre = None -> String.length code = 4 ->
  find "," last = None -> find "," first = None ->
  contains "Employee Number:" s = true ->
  find ":" pre' = None ->
  contains "Section:" s' = true ->
  get_employees_step (er, ed) (idx, CStr s :: rest)
  = Ok (dict_set code idx er,
        dict_set code [CStr (strip name); CStr (strip last);
                       CStr (strip first); CStr code] ed)
  /\ get_sections_step (er, ed) (idx, CStr s' :: rest)
     = Ok (dict_set remainder idx er, dict_set remainder [CStr remainder] ed).
Proof.
  intros name s s' Hpre Hcode Hlast Hfirst Hs Hpre' Hs'. split.
  - assert (Hcolon : index ":" s = Ok (String.length pre)).
    { unfold index, s. simpl. now rewrite (find_app_first pre _ ":" Hpre). }
    assert (Hname : slice_from (String.length pre + 7) s = name).
    { unfold s. rewrite slice_from_app.
      destruct code as [|c1 [|c2 [|c3 [|c4 [|c5 code]]]]]; try discriminate.
      reflexivity. }
    assert (Hnumber : slice (String.length pre + 2) (String.length pre + 6) s
                      = code).
    { unfold slice, s. rewrite slice_from_app.
      replace (String.length pre + 6 - (String.length pre + 2)) with 4 by lia.
      destruct code as [|c1 [|c2 [|c3 [|c4 [|c5 code]]]]]; try discriminate.
      reflexivity. }
    assert (Hsplit : split "," name = [last; first]).
    { unfold name. simpl.
      now rewrite (split_app_sep last first "," Hlast), (split_no_sep first "," Hfirst). }
    unfold get_employees_step, iloc, getitem. simpl nth_error.
    cbv beta iota. unfold bind at 1. unfold in_str. rewrite Hs.
    unfold text_of, bind at 1. rewrite Hcolon. unfold bind at 1. cbv zeta.
    rewrite Hname, Hnumber, Hsplit. reflexivity.
  - assert (Hcolon : index ":" s' = Ok (String.length pre')).
    { unfold index, s'. simpl. now rewrite (find_app_first pre' _ ":" Hpre'). }
    assert (Hkey : slice_from (String.length pre' + 2) s' = remainder).
    { unfold s'. rewrite slice_from_app. reflexivity. }
    unfold get_sections_step, iloc, getitem. simpl nth_error.
    cbv beta iota. unfold bind at 1. unfold in_str. rewrite Hs'.
    unfold text_of, bind at 1. rewrite Hcolon. unfold bind at 1. cbv zeta.
    rewrite Hkey. reflexivity.
Qed.

Lemma C4_label_keys_at_fixed_offsets_witness :
  get_employees_step ([], []) (3, [CStr "Employee Number: 1001 Doe, Jane"; CNull])
  = Ok ([("1001", 3)],
        [("1001", [CStr "Doe, Jane"; CStr "Doe"; CStr "Jane"; CStr "1001"])])
  /\ get_sections_step ([], []) (3, [CStr "Section: Fisheries  Aquatic "; CNull])
     = Ok ([("Fisheries  Aquatic ", 3)],
           [("Fisheries  Aquatic ", [CStr "Fisheries  Aquatic "])]).
Proof.
  apply (C4_label_keys_at_fixed_offsets
           [] [] 3 [CNull]
           "Employee Number" " " "1001" " " "Doe" " Jane"
           "Section" " " "Fisheries  Aquatic ");
    reflexivity.
Defined.

(** C4, the claim as stated fails: the section key is not trimmed. For the
    cell ["Section: Aquatic "] the key of the label index and of the
    metadata keeps the trailing space, where the remainder after the colon,
    trimmed, is ["Aquatic"]. *)
Lemma C4_counterexample :
  get_sections (Page [] [[CStr "Section: Aquatic "]])
  = Ok ([("Aquatic ", 0)],
        Frame (Some "section") ["section_name"] [("Aquatic ", [CStr "Aquatic "])])
  /\ claimed_section_key "Section: Aquatic " = Some "Aquatic".
Proof. split; reflexivity. Qed.

Lemma get_firm_totals_loop_skip (pre tail : list row) :
  Forall no_totals_row pre ->
  forall i,
    get_firm_totals_loop
      (combine (seq i (List.length (pre ++ tail))) (pre ++ tail))
    = get_firm_totals_loop
        (combine (seq (i + List.length pre) (List.length tail)) tail).
Proof.
  induction 1 as [|r pre (c & rest & -> & Hc) _ IH]; intros i; simpl.
  - now rewrite Nat.add_0_r.
  - unfold iloc, getitem. simpl. rewrite Hc, IH.
    now rewrite Nat.add_succ_r.
Qed.

(** [get_firm_totals] returns the index of the first row whose first cell
    holds the marker. *)
Theorem get_firm_totals_first_match
        (cols : list cell) (pre post : list row) (c : cell) (cells : row) :
  Forall no_totals_row pre ->
  in_str "Final Totals" c = true ->
  get_firm_totals (Page cols (pre ++ (c :: cells) :: post)) = Ok (List.length pre).
Proof.
  intros Hpre Hc. unfold get_firm_totals, iterrows, enumerate. simpl rows.
  rewrite (get_firm_totals_loop_skip pre ((c :: cells) :: post) Hpre 0).
  simpl. unfold iloc, getitem. simpl. now rewrite Hc.
Qed.

Lemma get_firm_totals_first_match_witness :
  get_firm_totals firm_page_with_period = Ok 2.
Proof.
  apply (get_firm_totals_first_match
           [CStr "Unnamed: 0"; CStr "Unnamed: 1"]
           [[CStr "$ Utilization"; CNull];
            [CStr "For the period Jan 1 - Jan 7"; CNull]]
           [] (CStr "Final Totals") [CNull]).
  - repeat (constructor; [eexists; eexists; split; reflexivity|]). constructor.
  - reflexivity.
Defined.

(** When no row holds the marker in its first cell, [get_firm_totals]
    raises: [company_row] is read before it was ever assigned. *)
Theorem get_firm_totals_not_found (cols : list cell) (data : list row) :
  Forall no_totals_row data ->
  get_firm_totals (Page cols data) = Raise UnboundLocalError.
Proof.
  intros H. unfold get_firm_totals, iterrows, enumerate. simpl rows.
  rewrite <- (app_nil_r data).
  rewrite (get_firm_totals_loop_skip data [] H 0). reflexivity.
Qed.

Lemma get_firm_totals_not_found_witness :
  get_firm_totals (Page [] [[CStr "$ Utilization"]; [CNull]])
  = Raise UnboundLocalError.
Proof.
  apply get_firm_totals_not_found.
  repeat (constructor; [eexists; eexists; split; reflexivity|]). constructor.
Defined.

(* ================================================================= *)
(** ** Entity Block Extractor *)

(** Running over the keys of a dict and looking each one up is running
    over its entries. *)
Lemma for_each_keys_lookup {V S : Type} (d : dict V)
      (body : S -> string -> V -> result S) :
  NoDup (keys d) ->
  forall s,
    for_each (keys d) s (fun s' k => bind (dict_getitem k d) (body s' k))
    = for_each d s (fun s' e => body s' (fst e) (snd e)).
Proof.
  intros ND.
  assert (H : forall l, incl l d ->
            forall s,
              for_each (map fst l) s
                       (fun s' k => bind (dict_getitem k d) (body s' k))
              = for_each l s (fun s' e => body s' (fst e) (snd e))).
  { induction l as [|[k v] l IH]; intros Hincl s; simpl; [reflexivity|].
    unfold dict_getitem at 1.
    rewrite (dict_get_NoDup d k v ND (Hincl _ (or_introl eq_refl))). simpl.
    destruct (body s k v) as [s'|e]; simpl; [|reflexivity].
    apply IH. intros x Hx. apply Hincl. now right. }
  intros s. apply (H d). apply incl_refl.
Qed.

Lemma dd_append_fresh (e : string) (v : cell) (d : dict (list cell)) :
  ~ In e (keys d) -> dd_append e v d = d ++ [(e, [v])].
Proof.
  intros H. unfold dd_append.
  rewrite (proj2 (dict_get_None d e) H). now apply dict_set_fresh.
Qed.

Lemma dd_append_last (e : string) (v : cell) (l : list cell)
      (d : dict (list cell)) :
  ~ In e (keys d) -> dd_append e v (d ++ [(e, l)]) = d ++ [(e, l ++ [v])].
Proof.
  intros H. unfold dd_append.
  rewrite dict_get_app, (proj2 (dict_get_None d e) H). simpl.
  rewrite String.eqb_refl. now apply dict_set_last.
Qed.

Lemma append_all_last (e : string) (vals l : list cell) (d : dict (list cell)) :
  ~ In e (keys d) ->
  append_all e vals (d ++ [(e, l)]) = d ++ [(e, l ++ vals)].
Proof.
  intros H. unfold append_all. revert l.
  induction vals as [|v vals IH]; intros l; simpl.
  - now rewrite app_nil_r.
  - rewrite (dd_append_last e v l d H), IH, <- app_assoc. reflexivity.
Qed.

Lemma append_all_fresh (e : string) (vals : list cell) (d : dict (list cell)) :
  ~ In e (keys d) -> append_all e vals d = d ++ entry_of e vals.
Proof.
  intros H. destruct vals as [|v vals]; simpl.
  - now rewrite app_nil_r.
  - unfold append_all. simpl. rewrite (dd_append_fresh e v d H).
    apply (append_all_last e vals [v] d H).
Qed.

(** The inner loop appends the cells of the three rows, or raises an
    IndexError when a position is beyond a row. *)
Lemma copy_cells_spec (e : string) (wr mr yr : row) (C : dict nat) :
  NoDup (keys C) ->
  forall w m y,
    copy_cells e wr mr yr C (w, m, y) =
    match pick3 wr mr yr (map snd C) with
    | Some (ws, ms, ys) => Ok (append_all e ws w, append_all e ms m, append_all e ys y)
    | None => Raise IndexError
    end.
Proof.
  intros ND w m y. unfold copy_cells.
  rewrite (for_each_keys_lookup C
             (fun st col cidx =>
                w0 <- iloc wr cidx ;;
                m0 <- iloc mr cidx ;;
                y0 <- iloc yr cidx ;;
                let '(week_dict, mtd_dict, ytd_dict) := st in
                Ok (dd_append e w0 week_dict, dd_append e m0 mtd_dict,
                    dd_append e y0 ytd_dict)) ND).
  clear ND. revert w m y.
  induction C as [|[col cidx] C IH]; intros w m y; simpl; [reflexivity|].
  unfold iloc, getitem.
  destruct (nth_error wr cidx) as [w0|]; simpl; [|reflexivity].
  destruct (nth_error mr cidx) as [m0|]; simpl; [|reflexivity].
  destruct (nth_error yr cidx) as [y0|]; simpl; [|reflexivity].
  rewrite IH.
  destruct (pick3 wr mr yr (map snd C)) as [[[ws ms] ys]|]; reflexivity.
Qed.

Lemma keys_entry_of (e : string) (vals : list cell) (k : string) :
  In k (keys (entry_of e vals)) -> k = e.
Proof. destruct vals; simpl; intuition. Qed.

Lemma keys_app {V} (a b : dict V) : keys (a ++ b) = keys a ++ keys b.
Proof. apply map_app. Qed.

(** The outer loop, from any state whose keys are not label keys. *)
Lemma read_blocks_loop (p : page) (C : dict nat) (L : dict nat) :
  NoDup (keys C) -> NoDup (keys L) ->
  forall w m y,
    (forall e, In e (keys L) ->
               ~ In e (keys w) /\ ~ In e (keys m) /\ ~ In e (keys y)) ->
    for_each L (w, m, y)
      (fun st e =>
         week_row <- iloc (rows p) (snd e + 1) ;;
         mtd_row <- iloc (rows p) (snd e + 2) ;;
         ytd_row <- iloc (rows p) (snd e + 3) ;;
         copy_cells (fst e) week_row mtd_row ytd_row C st)
    = match all_blocks p L C with
      | Some bs => Ok (w ++ week_of bs, m ++ mtd_of bs, y ++ ytd_of bs)
      | None => Raise IndexError
      end.
Proof.
  intros NDC. induction L as [|[e R] L IH]; intros NDL w m y Hfresh; simpl.
  - now rewrite !app_nil_r.
  - inversion NDL as [|? ? He NDL']; subst.
    unfold block_of, iloc, getitem.
    destruct (nth_error (rows p) (R + 1)) as [wr|]; simpl; [|reflexivity].
    destruct (nth_error (rows p) (R + 2)) as [mr|]; simpl; [|reflexivity].
    destruct (nth_error (rows p) (R + 3)) as [yr|]; simpl; [|reflexivity].
    rewrite (copy_cells_spec e wr mr yr C NDC).
    destruct (pick3 wr mr yr (map snd C)) as [[[ws ms] ys]|]; simpl;
      [|reflexivity].
    destruct (Hfresh e (or_introl eq_refl)) as (Hw & Hm & Hy).
    rewrite (append_all_fresh e ws w Hw), (append_all_fresh e ms m Hm),
      (append_all_fresh e ys y Hy).
    rewrite IH; [|exact NDL'|].
    + destruct (all_blocks p L C) as [bs|]; [|reflexivity].
      unfold week_of, mtd_of, ytd_of. simpl. now rewrite <- !app_assoc.
    + intros e' He'.
      assert (Hne : e' <> e) by (intros ->; contradiction).
      destruct (Hfresh e' (or_intror He')) as (Hw' & Hm' & Hy').
      rewrite !keys_app, !in_app_iff.
      repeat split; intros [H|H]; try contradiction;
        apply keys_entry_of in H; contradiction.
Qed.

(** [read_blocks] returns the blocks of the entities, or raises an
    IndexError when a block reaches beyond the page. *)
Lemma read_blocks_spec (p : page) (L C : dict nat) :
  NoDup (keys L) -> NoDup (keys C) ->
  read_blocks p L C =
  match all_blocks p L C with
  | Some bs => Ok (week_of bs, mtd_of bs, ytd_of bs)
  | None => Raise IndexError
  end.
Proof.
  intros NDL NDC. unfold read_blocks.
  rewrite (for_each_keys_lookup L
             (fun st entity idx =>
                week_row <- iloc (rows p) (idx + 1) ;;
                mtd_row <- iloc (rows p) (idx + 2) ;;
                ytd_row <- iloc (rows p) (idx + 3) ;;
                copy_cells entity week_row mtd_row ytd_row C st) NDL).
  apply (read_blocks_loop p C L NDC NDL [] [] []).
  intros e _. simpl. intuition.
Qed.

Lemma pick3_nth (wr mr yr : row) (idxs : list nat) (ws ms ys : list cell) :
  pick3 wr mr yr idxs = Some (ws, ms, ys) ->
  forall k i, nth_error idxs k = Some i ->
    (exists w, nth_error wr i = Some w /\ nth_error ws k = Some w)
    /\ (exists m, nth_error mr i = Some m /\ nth_error ms k = Some m)
    /\ (exists y, nth_error yr i = Some y /\ nth_error ys k = Some y).
Proof.
  revert ws ms ys. induction idxs as [|i0 idxs IH]; intros ws ms ys H k i Hk.
  - destruct k; discriminate.
  - simpl in H.
    destruct (nth_error wr i0) as [w0|] eqn:Ew; [|discriminate].
    destruct (nth_error mr i0) as [m0|] eqn:Em; [|discriminate].
    destruct (nth_error yr i0) as [y0|] eqn:Ey; [|discriminate].
    destruct (pick3 wr mr yr idxs) as [[[ws' ms'] ys']|]; [|discriminate].
    injection H as <- <- <-.
    destruct k as [|k]; simpl in Hk.
    + injection Hk as <-. simpl. eauto 10.
    + simpl. apply (IH ws' ms' ys' eq_refl k i Hk).
Qed.

Lemma pick3_length (wr mr yr : row) (idxs : list nat) (ws ms ys : list cell) :
  pick3 wr mr yr idxs = Some (ws, ms, ys) ->
  List.length ws = List.length idxs
  /\ List.length ms = List.length idxs
  /\ List.length ys = List.length idxs.
Proof.
  revert ws ms ys. induction idxs as [|i0 idxs IH]; intros ws ms ys H; simpl in H.
  - injection H as <- <- <-. auto.
  - destruct (nth_error wr i0), (nth_error mr i0), (nth_error yr i0);
      try discriminate.
    destruct (pick3 wr mr yr idxs) as [[[ws' ms'] ys']|]; [|discriminate].
    injection H as <- <- <-. destruct (IH ws' ms' ys' eq_refl) as (H1 & H2 & H3).
    simpl. auto.
Qed.

Lemma pick3_total (wr mr yr : row) (idxs : list nat) :
  (forall i, In i idxs ->
             nth_error wr i <> None /\ nth_error mr i <> None
             /\ nth_error yr i <> None) ->
  exists r, pick3 wr mr yr idxs = Some r.
Proof.
  induction idxs as [|i0 idxs IH]; intros H; simpl; [eauto|].
  destruct (H i0 (or_introl eq_refl)) as (Hw & Hm & Hy).
  destruct (nth_error wr i0); [|contradiction].
  destruct (nth_error mr i0); [|contradiction].
  destruct (nth_error yr i0); [|contradiction].
  destruct IH as [[[ws ms] ys] ->]; [|eauto].
  intros i Hi. apply H. now right.
Qed.

Lemma block_of_total (p : page) (R : nat) (C : dict nat) :
  block_in_range p R C -> exists b, block_of p R C = Some b.
Proof.
  intros [Hlen Hcells]. unfold block_of.
  destruct (nth_error (rows p) (R + 1)) as [wr|] eqn:Ew;
    [|apply nth_error_None in Ew; lia].
  destruct (nth_error (rows p) (R + 2)) as [mr|] eqn:Em;
    [|apply nth_error_None in Em; lia].
  destruct (nth_error (rows p) (R + 3)) as [yr|] eqn:Ey;
    [|apply nth_error_None in Ey; lia].
  apply pick3_total. intros i Hi.
  apply in_map_iff in Hi. destruct Hi as ([col cidx] & <- & Hin).
  specialize (Hcells col cidx Hin). unfold cell_at in Hcells.
  now rewrite Ew, Em, Ey in Hcells.
Qed.

Lemma all_blocks_total (p : page) (L C : dict nat) :
  (forall e R, In (e, R) L -> block_in_range p R C) ->
  exists bs, all_blocks p L C = Some bs.
Proof.
  induction L as [|[e R] L IH]; intros H; simpl; [eauto|].
  destruct (block_of_total p R C (H e R (or_introl eq_refl))) as [b ->].
  destruct IH as [bs ->]; [|eauto].
  intros e' R' Hin. apply (H e' R'). now right.
Qed.

Lemma all_blocks_in (p : page) (L C : dict nat)
      (bs : list (string * (list cell * list cell * list cell))) :
  all_blocks p L C = Some bs ->
  map fst bs = keys L
  /\ forall e R, In (e, R) L ->
                 exists b, block_of p R C = Some b /\ In (e, b) bs.
Proof.
  revert bs. induction L as [|[e0 R0] L IH]; intros bs H; simpl in H.
  - injection H as <-. split; [reflexivity | intros e R []].
  - destruct (block_of p R0 C) as [b0|] eqn:Eb; [|discriminate].
    destruct (all_blocks p L C) as [bs'|]; [|discriminate].
    injection H as <-. destruct (IH bs' eq_refl) as [Hk Hin].
    split; [simpl; now rewrite Hk|].
    intros e R [[= <- <-]|HIn].
    + exists b0. split; [exact Eb | now left].
    + destruct (Hin e R HIn) as (b & Hb & Hbin). exists b. split; [exact Hb | now right].
Qed.

(** The record of an entity in one of the three dicts is the matching part
    of its block. *)
Lemma dict_get_part_of
      (part : list cell * list cell * list cell -> list cell)
      (bs : list (string * (list cell * list cell * list cell)))
      (e : string) (b : list cell * list cell * list cell) :
  NoDup (map fst bs) -> In (e, b) bs -> part b <> [] ->
  dict_get e (flat_map (fun x => entry_of (fst x) (part (snd x))) bs)
  = Some (part b).
Proof.
  induction bs as [|[e0 b0] bs IH]; intros ND Hin Hne; [contradiction|].
  inversion ND as [|? ? He0 ND']; subst. simpl.
  rewrite dict_get_app. destruct Hin as [[= -> ->]|Hin].
  - destruct (part b) as [|v vals]; [contradiction|]. simpl.
    now rewrite String.eqb_refl.
  - assert (Hne0 : e <> e0).
    { intros ->. apply He0. apply (in_map fst) in Hin. exact Hin. }
    replace (dict_get e (entry_of e0 (part b0))) with (@None (list cell)).
    + now apply IH.
    + symmetry. apply dict_get_None. intros H.
      apply keys_entry_of in H. contradiction.
Qed.

(** What [read_blocks] returns holds, for every entity and every column,
    the cells of the three rows below the entity's label row. *)
Lemma read_blocks_pointwise (p : page) (L C : dict nat)
      (wk mt yt : dict (list cell)) :
  NoDup (keys L) -> NoDup (keys C) ->
  read_blocks p L C = Ok (wk, mt, yt) ->
  forall e R k col cidx,
    In (e, R) L -> nth_error C k = Some (col, cidx) ->
    (exists w, cell_at p (R + 1) cidx = Some w /\ record_at wk e k = Some w)
    /\ (exists m, cell_at p (R + 2) cidx = Some m /\ record_at mt e k = Some m)
    /\ (exists y, cell_at p (R + 3) cidx = Some y /\ record_at yt e k = Some y).
Proof.
  intros NDL NDC Hread e R k col cidx HL HC.
  rewrite (read_blocks_spec p L C NDL NDC) in Hread.
  destruct (all_blocks p L C) as [bs|] eqn:Hbs; [|discriminate].
  injection Hread as <- <- <-.
  destruct (all_blocks_in p L C bs Hbs) as [Hkeys Hin].
  destruct (Hin e R HL) as ([[ws ms] ys] & Hb & Hbin).
  assert (NDbs : NoDup (map fst bs)) by (now rewrite Hkeys).
  unfold block_of in Hb. unfold cell_at.
  destruct (nth_error (rows p) (R + 1)) as [wr|]; [|discriminate].
  destruct (nth_error (rows p) (R + 2)) as [mr|]; [|discriminate].
  destruct (nth_error (rows p) (R + 3)) as [yr|]; [|discriminate].
  assert (Hk : nth_error (map snd C) k = Some cidx).
  { rewrite nth_error_map, HC. reflexivity. }
  destruct (pick3_nth wr mr yr (map snd C) ws ms ys Hb k cidx Hk)
    as ((w & Hw1 & Hw2) & (m & Hm1 & Hm2) & (y & Hy1 & Hy2)).
  unfold record_at, week_of, mtd_of, ytd_of.
  rewrite (dict_get_part_of (fun b => fst (fst b)) bs e (ws, ms, ys) NDbs Hbin),
    (dict_get_part_of (fun b => snd (fst b)) bs e (ws, ms, ys) NDbs Hbin),
    (dict_get_part_of (fun b => snd b) bs e (ws, ms, ys) NDbs Hbin);
    simpl; try (intros ->; destruct k; discriminate).
  eauto 10.
Qed.

(** C1. For every entity of the label index, with label row [R], and every
    column of the column map, with resolved index [cidx], the loop shared by
    [get_employee_data] and [get_section_data] records, at the column's
    position, the cell at [(R + 1, cidx)] for the week, [(R + 2, cidx)] for
    the month to date and [(R + 3, cidx)] for the year to date, each as it
    stands in the page. The loop returns whenever the three rows below every
    label row exist and reach every column index. *)
Theorem C1_blocks_copied_verbatim (p : page) (label_rows col_name_idx : dict nat) :
  NoDup (keys label_rows) -> NoDup (keys col_name_idx) ->
  (forall e R, In (e, R) label_rows -> block_in_range p R col_name_idx) ->
  exists week_dict mtd_dict ytd_dict,
    read_blocks p label_rows col_name_idx = Ok (week_dict, mtd_dict, ytd_dict)
    /\ forall e R k col cidx,
        In (e, R) label_rows -> nth_error col_name_idx k = Some (col, cidx) ->
        (exists w, cell_at p (R + 1) cidx = Some w
                   /\ record_at week_dict e k = Some w)
        /\ (exists m, cell_at p (R + 2) cidx = Some m
                      /\ record_at mtd_dict e k = Some m)
        /\ (exists y, cell_at p (R + 3) cidx = Some y
                      /\ record_at ytd_dict e k = Some y).
Proof.
  intros NDL NDC Hrange.
  destruct (all_blocks_total p label_rows col_name_idx Hrange) as [bs Hbs].
  assert (Hread : read_blocks p label_rows col_name_idx
                  = Ok (week_of bs, mtd_of bs, ytd_of bs)).
  { rewrite (read_blocks_spec p label_rows col_name_idx NDL NDC), Hbs.
    reflexivity. }
  exists (week_of bs), (mtd_of bs), (ytd_of bs). split; [exact Hread|].
  apply (read_blocks_pointwise p label_rows col_name_idx _ _ _ NDL NDC Hread).
Qed.

Lemma C1_blocks_copied_verbatim_witness :
  exists week_dict mtd_dict ytd_dict,
    read_blocks roster_page roster_labels roster_colmap
    = Ok (week_dict, mtd_dict, ytd_dict)
    /\ forall e R k col cidx,
        In (e, R) roster_labels -> nth_error roster_colmap k = Some (col, cidx) ->
        (exists w, cell_at roster_page (R + 1) cidx = Some w
                   /\ record_at week_dict e k = Some w)
        /\ (exists m, cell_at roster_page (R + 2) cidx = Some m
                      /\ record_at mtd_dict e k = Some m)
        /\ (exists y, cell_at roster_page (R + 3) cidx = Some y
                      /\ record_at ytd_dict e k = Some y).
Proof.
  apply (C1_blocks_copied_verbatim roster_page roster_labels roster_colmap).
  - repeat (constructor; [simpl; intuition discriminate|]). constructor.
  - repeat (constructor; [simpl; intuition discriminate|]). constructor.
  - intros e R [[= <- <-]|[[= <- <-]|[]]];
      (split; [simpl; lia|]);
      intros col cidx [[= <- <-]|[[= <- <-]|[[= <- <-]|[]]]];
      repeat split; discriminate.
Defined.

(* ================================================================= *)
(** ** Schema Normalizer: the frames of [get_employee_data] *)

Lemma position_nth (name : string) (cols : list string) (i : nat) :
  position name cols = Some i -> nth_error cols i = Some name.
Proof.
  revert i. induction cols as [|c cols IH]; intros i; simpl; [discriminate|].
  destruct (String.eqb_spec name c) as [->|N].
  - intros [= <-]. reflexivity.
  - destruct (position name cols) as [j|]; [|discriminate].
    intros [= <-]. simpl. now apply IH.
Qed.

Lemma position_NoDup (name : string) (cols : list string) (k : nat) :
  NoDup cols -> nth_error cols k = Some name -> position name cols = Some k.
Proof.
  revert k. induction cols as [|c cols IH]; intros k ND Hk.
  - destruct k; discriminate.
  - inversion ND as [|? ? Hc ND']; subst. simpl.
    destruct k as [|k]; simpl in Hk.
    + injection Hk as ->. now rewrite String.eqb_refl.
    + destruct (String.eqb_spec name c) as [->|N].
      * exfalso. apply Hc. eapply nth_error_In. exact Hk.
      * now rewrite (IH k ND' Hk).
Qed.

Lemma nth_error_set_nth {A} (i k : nat) (v : A) (xs : list A) :
  nth_error (set_nth i v xs) k =
  if Nat.eqb k i then
    match nth_error xs k with Some _ => Some v | None => None end
  else nth_error xs k.
Proof.
  revert i k. induction xs as [|x xs IH]; intros i k; simpl.
  - destruct i; simpl; destruct k; simpl; try reflexivity;
      now destruct (Nat.eqb _ _).
  - destruct i as [|i], k as [|k]; simpl; try reflexivity.
    apply IH.
Qed.

Lemma nth_error_combine {A B} (xs : list A) (ys : list B) (k : nat) (x : A) (y : B) :
  nth_error xs k = Some x -> nth_error ys k = Some y ->
  nth_error (combine xs ys) k = Some (x, y).
Proof.
  revert ys k. induction xs as [|x0 xs IH]; intros ys k Hx Hy.
  - destruct k; discriminate.
  - destruct ys as [|y0 ys]; [destruct k; discriminate|].
    destruct k as [|k]; simpl in *.
    + congruence.
    + now apply IH.
Qed.

(** The row of an entity after the weekly column was divided. *)
Lemma assign_scaled (pos : nat) (wk : dict (list cell)) (scaled : list cell)
      (e : string) (vals : list cell) :
  series_truediv100 (map (fun r => nth pos (snd r) CNull) wk) = Ok scaled ->
  dict_get e wk = Some vals ->
  exists q, truediv100 (nth pos vals CNull) = Ok q
            /\ dict_get e (assign_rows pos wk scaled) = Some (set_nth pos q vals).
Proof.
  revert scaled. induction wk as [|[k0 vals0] wk IH]; intros scaled Hs Hget;
    [discriminate|].
  simpl in Hs.
  destruct (truediv100 (nth pos vals0 CNull)) as [q0|] eqn:Eq; [|discriminate].
  simpl in Hs.
  destruct (series_truediv100 (map (fun r => nth pos (snd r) CNull) wk))
    as [qs|] eqn:Eqs; [|discriminate].
  simpl in Hs. injection Hs as <-. simpl in *.
  destruct (String.eqb e k0).
  - injection Hget as <-. eauto.
  - apply (IH qs eq_refl Hget).
Qed.

Section FrameFacts.

Variable to_datetime : option string -> result cell.

(** A frame after [stamp], and after [write_data] renamed its columns,
    still stores each value of a row under its column's (renamed) name,
    at the column's position; the period column aside. *)
Lemma stored_field (mapping : dict string) (name : string) (t : cell)
      (cols : list string) (rs : dict (list cell))
      (e : string) (vals : list cell) (k : nat) (col : string) (v : cell) :
  dict_get e rs = Some vals ->
  nth_error cols k = Some col -> nth_error vals k = Some v ->
  col <> "period_ending" ->
  field_at (sql_rows (rename mapping
              (set_index_name name
                 (setcol_scalar "period_ending" t (Frame None cols rs))))) e k
  = Some (match dict_get col mapping with Some c' => c' | None => col end, v).
Proof.
  intros Hget Hcol Hval Hne.
  unfold field_at, sql_rows, rename, set_index_name, setcol_scalar.
  cbn [frame_columns frame_rows index_name].
  destruct (position "period_ending" cols) as [q|] eqn:Hq;
    cbn [frame_columns frame_rows index_name].
  - rewrite (dict_get_map_values
               (fun vs => combine (map _ cols) vs)
               (map (fun r => (fst r, set_nth q t (snd r))) rs) e).
    rewrite (dict_get_map_values (fun vs => set_nth q t vs) rs e), Hget.
    simpl. apply nth_error_combine.
    + rewrite nth_error_map, Hcol. reflexivity.
    + rewrite nth_error_set_nth.
      destruct (Nat.eqb_spec k q) as [->|_]; [|exact Hval].
      apply position_nth in Hq. congruence.
  - rewrite (dict_get_map_values
               (fun vs => combine (map _ (cols ++ ["period_ending"])) vs)
               (map (fun r => (fst r, snd r ++ [t])) rs) e).
    rewrite (dict_get_map_values (fun vs => vs ++ [t]) rs e), Hget.
    simpl. apply nth_error_combine.
    + rewrite nth_error_map, nth_error_app1, Hcol; [reflexivity|].
      apply nth_error_Some. congruence.
    + rewrite nth_error_app1; [exact Hval|].
      apply nth_error_Some. congruence.
Qed.

(** The steps of [get_employee_data], read off a result. *)
Lemma get_employee_data_inv (p : page) (period_end : option string)
      (L C : dict nat) (week mtd ytd : frame string) :
  get_employee_data to_datetime p period_end L C = Ok (week, mtd, ytd) ->
  exists wk mt yt pos scaled t,
    read_blocks p L C = Ok (wk, mt, yt)
    /\ position "actual_pct" (keys C) = Some pos
    /\ series_truediv100 (map (fun r => nth pos (snd r) CNull) wk) = Ok scaled
    /\ week = set_index_name "employee_id"
                (setcol_scalar "period_ending" t
                   (Frame None (keys C) (assign_rows pos wk scaled)))
    /\ mtd = set_index_name "employee_id"
               (setcol_scalar "period_ending" t (Frame None (keys C) mt))
    /\ ytd = set_index_name "employee_id"
               (setcol_scalar "period_ending" t (Frame None (keys C) yt)).
Proof.
  unfold get_employee_data. intros H.
  destruct (read_blocks p L C) as [[[wk mt] yt]|] eqn:Hread; [|discriminate].
  cbn [bind] in H. unfold from_dict in H.
  destruct (forallb _ wk); [|discriminate]. cbn [bind] in H.
  destruct (forallb _ mt); [|discriminate]. cbn [bind] in H.
  destruct (forallb _ yt); [|discriminate]. cbn [bind] in H.
  unfold getcol, loc_setcol in H. cbn [frame_columns frame_rows] in H.
  destruct (position "actual_pct" (keys C)) as [pos|] eqn:Hpos;
    [|discriminate].
  cbn [bind] in H.
  destruct (series_truediv100 _) as [scaled|] eqn:Hs; [|discriminate].
  cbn [bind frame_columns frame_rows index_name] in H.
  cbn [bind] in H. unfold stamp in H.
  destruct (to_datetime period_end) as [t|]; [|discriminate].
  cbn [bind] in H. injection H as <- <- <-.
  exists wk, mt, yt, pos, scaled, t. repeat split; assumption || reflexivity.
Qed.

End FrameFacts.

Lemma nth_error_nth_default {A} (xs : list A) (k : nat) (x d : A) :
  nth_error xs k = Some x -> nth k xs d = x.
Proof.
  revert k. induction xs as [|x0 xs IH]; intros k; destruct k; simpl;
    try discriminate; [congruence | apply IH].
Qed.

Lemma float_of_int_normalize (z : Z) (f : float) :
  float_of_int z = Ok f -> f = SF2Prim (binary_normalize prec emax z 0 false).
Proof.
  unfold float_of_int.
  destruct (binary_normalize prec emax z 0 false); intros H;
    try discriminate; now injection H as <-.
Qed.

Lemma normalize_of_uint63 (z : Z) :
  (0 <= z < 2 ^ 63)%Z ->
  binary_normalize prec emax z 0 false = Prim2SF (of_uint63 (Uint63.of_Z z)).
Proof.
  intros Hz. rewrite FloatAxioms.of_uint63_spec, Uint63.of_Z_spec.
  rewrite Z.mod_small; [reflexivity|]. exact Hz.
Qed.

Lemma binary_round_opp (m : positive) (e : Z) :
  binary_round prec emax true m e = SFopp (binary_round prec emax false m e).
Proof.
  unfold binary_round.
  destruct (shl_align m e _) as [mz ez].
  unfold binary_round_aux.
  destruct (shr_fexp prec emax (Z.pos mz) ez loc_Exact) as [mrs e'].
  destruct (shr_fexp prec emax _ e' loc_Exact) as [mrs' e''].
  destruct (shr_m mrs'); try reflexivity.
  destruct (Z.leb e'' (emax - prec)); reflexivity.
Qed.

(** The float [int / float] turns its left operand into is the machine
    conversion of the integer. *)
Lemma float_of_int_double (z : Z) (f : float) :
  float_of_int z = Ok f -> f = double_of_int z.
Proof.
  intros H. apply float_of_int_normalize in H. subst f. unfold double_of_int.
  destruct ((0 <=? z) && (z <? 2 ^ 63))%Z eqn:E1.
  - apply andb_prop in E1. destruct E1 as [A B].
    apply Z.leb_le in A. apply Z.ltb_lt in B.
    rewrite (normalize_of_uint63 z (conj A B)).
    apply FloatAxioms.SF2Prim_Prim2SF.
  - destruct ((- 2 ^ 63 <? z) && (z <? 0))%Z eqn:E2; [|reflexivity].
    apply andb_prop in E2. destruct E2 as [A B].
    apply Z.ltb_lt in A. apply Z.ltb_lt in B.
    destruct z as [|m|m]; try lia.
    change (binary_normalize prec emax (Z.neg m) 0 false)
      with (binary_round prec emax true m 0).
    rewrite binary_round_opp.
    change (binary_round prec emax false m 0)
      with (binary_normalize prec emax (Z.pos m) 0 false).
    change (- Z.neg m)%Z with (Z.pos m).
    rewrite (normalize_of_uint63 (Z.pos m)) by lia.
    rewrite <- FloatAxioms.opp_spec.
    apply FloatAxioms.SF2Prim_Prim2SF.
Qed.

(** What [/ 100.] stores for a cell: an empty cell stays empty, a float is
    divided by 100 as a double, an integer is converted and divided; text
    and dates are refused. *)
Lemma truediv100_value (w q : cell) :
  truediv100 w = Ok q ->
  match w with
  | CNull => q = CNull
  | CFloat f => q = CFloat (f / 100)%float
  | CInt z => q = CFloat (double_of_int z / 100)%float
  | CStr _ | CTime _ => False
  end.
Proof.
  destruct w as [|s|z|f|t]; simpl; intros H; try discriminate.
  - now injection H as <-.
  - destruct (float_of_int z) as [f|] eqn:E; [|discriminate].
    simpl in H. injection H as <-.
    now rewrite (float_of_int_double z f E).
  - now injection H as <-.
Qed.

(** C2. For every employee of the label index and every column of the
    column map (the period column aside), the row [write_data] appends to
    [employee_week] holds under [actual_pct] the raw weekly cell divided
    by 100 (a float [f] is stored as the double [f / 100], an integer as
    its double divided by 100, an empty cell stays empty, and the cell is
    never text or a date) and the raw weekly cell under every other
    column; the rows appended to [employee_mtd] and [employee_ytd] hold
    the raw month-to-date and year-to-date cells under every column,
    [actual_pct] included. A raw 87.5 divided by 100 is 0.875, a raw
    integer 50 is 0.5. *)
Theorem C2_weekly_actual_pct_scaled
        (to_datetime : option string -> result cell)
        (p : page) (period_end : option string)
        (employee_rows col_name_idx : dict nat)
        (week mtd ytd : frame string) (db : database) (b : batch) :
  NoDup (keys employee_rows) -> NoDup (keys col_name_idx) ->
  get_employee_data to_datetime p period_end employee_rows col_name_idx
  = Ok (week, mtd, ytd) ->
  emp_week_df b = week -> emp_mtd_df b = mtd -> emp_ytd_df b = ytd ->
  (exists new_week new_mtd new_ytd,
      employee_week (write_data db b) = employee_week db ++ new_week
      /\ employee_mtd (write_data db b) = employee_mtd db ++ new_mtd
      /\ employee_ytd (write_data db b) = employee_ytd db ++ new_ytd
      /\ forall e R k col cidx,
          In (e, R) employee_rows ->
          nth_error col_name_idx k = Some (col, cidx) ->
          col <> "period_ending" ->
          exists w m y,
            cell_at p (R + 1) cidx = Some w
            /\ cell_at p (R + 2) cidx = Some m
            /\ cell_at p (R + 3) cidx = Some y
            /\ (col = "actual_pct" ->
                match w with
                | CNull =>
                    field_at new_week e k = Some ("actual_pct", CNull)
                | CFloat f =>
                    field_at new_week e k
                    = Some ("actual_pct", CFloat (f / 100)%float)
                | CInt z =>
                    field_at new_week e k
                    = Some ("actual_pct", CFloat (double_of_int z / 100)%float)
                | CStr _ | CTime _ => False
                end)
            /\ (col <> "actual_pct" ->
                field_at new_week e k = Some (stored_name col, w))
            /\ field_at new_mtd e k = Some (stored_name col, m)
            /\ field_at new_ytd e k = Some (stored_name col, y))
  /\ truediv100 (CFloat 87.5) = Ok (CFloat 0.875)
  /\ (87.5 / 100 = 0.875)%float
  /\ (double_of_int 50 / 100 = 0.5)%float.
Proof.
  intros NDL NDC Hdata Ew Em Ey. split; [|repeat split; reflexivity].
  destruct (get_employee_data_inv to_datetime p period_end employee_rows
              col_name_idx week mtd ytd Hdata)
    as (wk & mt & yt & pos & scaled & t & Hread & Hpos & Hs & Hweek & Hmtd & Hytd).
  exists (sql_rows (rename rename_mapping week)),
         (sql_rows (rename rename_mapping mtd)),
         (sql_rows (rename rename_mapping ytd)).
  split; [|split; [|split]];
    try (unfold write_data, to_sql_append; simpl; congruence).
  intros e R k col cidx HL HC Hne.
  destruct (read_blocks_pointwise p employee_rows col_name_idx wk mt yt
              NDL NDC Hread e R k col cidx HL HC)
    as ((w & Hw & Hrw) & (m & Hm & Hrm) & (y & Hy & Hry)).
  exists w, m, y. split; [exact Hw|]. split; [exact Hm|]. split; [exact Hy|].
  assert (Hcol : nth_error (keys col_name_idx) k = Some col).
  { unfold keys. rewrite nth_error_map, HC. reflexivity. }
  unfold record_at in Hrw, Hrm, Hry.
  destruct (dict_get e wk) as [wvals|] eqn:Hgw; [|discriminate].
  destruct (dict_get e mt) as [mvals|] eqn:Hgm; [|discriminate].
  destruct (dict_get e yt) as [yvals|] eqn:Hgy; [|discriminate].
  destruct (assign_scaled pos wk scaled e wvals Hs Hgw) as (q & Hq & Hgq).
  rewrite Hweek, Hmtd, Hytd. unfold stored_name.
  split; [|split; [|split]].
  - intros ->.
    assert (Hk : pos = k).
    { rewrite (position_NoDup "actual_pct" (keys col_name_idx) k NDC Hcol) in Hpos.
      congruence. }
    subst pos.
    rewrite (nth_error_nth_default wvals k w CNull Hrw) in Hq.
    assert (Hfield : field_at (sql_rows (rename rename_mapping
                        (set_index_name "employee_id"
                           (setcol_scalar "period_ending" t
                              (Frame None (keys col_name_idx)
                                     (assign_rows k wk scaled)))))) e k
                     = Some ("actual_pct", q)).
    { apply (stored_field rename_mapping "employee_id" t (keys col_name_idx)
               (assign_rows k wk scaled) e (set_nth k q wvals) k "actual_pct" q
               Hgq Hcol); [|discriminate].
      now rewrite nth_error_set_nth, Nat.eqb_refl, Hrw. }
    pose proof (truediv100_value w q Hq) as Hval.
    destruct w as [|s|z|f|tw]; try contradiction; now subst q.
  - intros Hna.
    apply (stored_field rename_mapping "employee_id" t (keys col_name_idx)
             (assign_rows pos wk scaled) e (set_nth pos q wvals) k col w
             Hgq Hcol); [|exact Hne].
    rewrite nth_error_set_nth.
    destruct (Nat.eqb_spec k pos) as [->|_]; [|exact Hrw].
    apply position_nth in Hpos. congruence.
  - now apply (stored_field rename_mapping "employee_id" t (keys col_name_idx)
                 mt e mvals k col m Hgm Hcol).
  - now apply (stored_field rename_mapping "employee_id" t (keys col_name_idx)
                 yt e yvals k col y Hgy Hcol).
Qed.

Lemma C2_weekly_actual_pct_scaled_witness :
  ((exists new_week new_mtd new_ytd,
       employee_week (write_data empty_db roster_batch)
       = employee_week empty_db ++ new_week
       /\ employee_mtd (write_data empty_db roster_batch)
          = employee_mtd empty_db ++ new_mtd
       /\ employee_ytd (write_data empty_db roster_batch)
          = employee_ytd empty_db ++ new_ytd
       /\ forall e R k col cidx,
           In (e, R) roster_labels ->
           nth_error roster_colmap k = Some (col, cidx) ->
           col <> "period_ending" ->
           exists w m y,
             cell_at roster_page (R + 1) cidx = Some w
             /\ cell_at roster_page (R + 2) cidx = Some m
             /\ cell_at roster_page (R + 3) cidx = Some y
             /\ (col = "actual_pct" ->
                 match w with
                 | CNull =>
                     field_at new_week e k = Some ("actual_pct", CNull)
                 | CFloat f =>
                     field_at new_week e k
                     = Some ("actual_pct", CFloat (f / 100)%float)
                 | CInt z =>
                     field_at new_week e k
                     = Some ("actual_pct", CFloat (double_of_int z / 100)%float)
                 | CStr _ | CTime _ => False
                 end)
             /\ (col <> "actual_pct" ->
                 field_at new_week e k = Some (stored_name col, w))
             /\ field_at new_mtd e k = Some (stored_name col, m)
             /\ field_at new_ytd e k = Some (stored_name col, y))
   /\ truediv100 (CFloat 87.5) = Ok (CFloat 0.875)
   /\ (87.5 / 100 = 0.875)%float
   /\ (double_of_int 50 / 100 = 0.5)%float)
  /\ field_at (employee_week (write_data empty_db roster_batch)) "1001" 1
     = Some ("actual_pct", CFloat 0.875)
  /\ field_at (employee_mtd (write_data empty_db roster_batch)) "1001" 1
     = Some ("actual_pct", CFloat 87.5)
  /\ cell_at roster_page 6 2 = Some (CInt 50)
  /\ field_at (employee_week (write_data empty_db roster_batch)) "1002" 1
     = Some ("actual_pct", CFloat 0.5)
  /\ field_at (employee_mtd (write_data empty_db roster_batch)) "1002" 1
     = Some ("actual_pct", CFloat 62.5).
Proof.
  split; [|repeat split; reflexivity].
  apply (C2_weekly_actual_pct_scaled
           sample_to_datetime roster_page (Some "Jan 7")
           roster_labels roster_colmap roster_week roster_mtd roster_ytd
           empty_db roster_batch).
  - repeat (constructor; [simpl; intuition discriminate|]). constructor.
  - repeat (constructor; [simpl; intuition discriminate|]). constructor.
  - reflexivity.
  - reflexivity.
  - reflexivity.
  - reflexivity.
Defined.

(* ================================================================= *)
(** ** The frames of [get_section_data] *)

Lemma position_app_Some (name : string) (cols extra : list string) (k : nat) :
  position name cols = Some k -> position name (cols ++ extra) = Some k.
Proof.
  revert k. induction cols as [|c cols IH]; intros k; simpl; [discriminate|].
  destruct (String.eqb name c); [auto|].
  destruct (position name cols) as [j|]; [|discriminate].
  intros [= <-]. now rewrite (IH j eq_refl).
Qed.

(** A frame after [stamp] still holds each value of a row under its
    column's name; the period column aside. *)
Lemma at_stamped (name : string) (t : cell) (cols : list string)
      (rs : dict (list cell)) (e : string) (vals : list cell)
      (k : nat) (col : string) (v : cell) :
  NoDup cols ->
  dict_get e rs = Some vals ->
  nth_error cols k = Some col -> nth_error vals k = Some v ->
  col <> "period_ending" ->
  at_ col e (set_index_name name
               (setcol_scalar "period_ending" t (Frame None cols rs)))
  = Some v.
Proof.
  intros ND Hget Hcol Hval Hne.
  pose proof (position_NoDup col cols k ND Hcol) as Hpos.
  unfold at_, set_index_name, setcol_scalar.
  cbn [frame_columns frame_rows index_name].
  destruct (position "period_ending" cols) as [q|] eqn:Hq;
    cbn [frame_columns frame_rows index_name].
  - rewrite Hpos.
    rewrite (dict_get_map_values (fun vs => set_nth q t vs) rs e), Hget.
    simpl. rewrite nth_error_set_nth.
    destruct (Nat.eqb_spec k q) as [->|_]; [|exact Hval].
    apply position_nth in Hq. congruence.
  - rewrite (position_app_Some col cols ["period_ending"] k Hpos).
    rewrite (dict_get_map_values (fun vs => vs ++ [t]) rs e), Hget.
    simpl. rewrite nth_error_app1; [exact Hval|].
    apply nth_error_Some. congruence.
Qed.

Lemma all_blocks_lengths (p : page) (L C : dict nat)
      (bs : list (string * (list cell * list cell * list cell))) :
  all_blocks p L C = Some bs ->
  forall e ws ms ys, In (e, (ws, ms, ys)) bs ->
    List.length ws = List.length C
    /\ List.length ms = List.length C
    /\ List.length ys = List.length C.
Proof.
  revert bs. induction L as [|[e0 R0] L IH]; intros bs H; simpl in H.
  - injection H as <-. intros e ws ms ys [].
  - destruct (block_of p R0 C) as [b0|] eqn:Eb; [|discriminate].
    destruct (all_blocks p L C) as [bs'|]; [|discriminate].
    injection H as <-. intros e ws ms ys [[= <- ->]|HIn].
    + unfold block_of in Eb.
      destruct (nth_error (rows p) (R0 + 1)) as [wr|]; [|discriminate].
      destruct (nth_error (rows p) (R0 + 2)) as [mr|]; [|discriminate].
      destruct (nth_error (rows p) (R0 + 3)) as [yr|]; [|discriminate].
      rewrite <- (length_map snd C).
      apply (pick3_length wr mr yr (map snd C) ws ms ys Eb).
    + apply (IH bs' eq_refl e ws ms ys HIn).
Qed.

Lemma from_dict_part
      (part : list cell * list cell * list cell -> list cell)
      (bs : list (string * (list cell * list cell * list cell)))
      (cols : list string) :
  (forall e b, In (e, b) bs -> List.length (part b) = List.length cols) ->
  from_dict (flat_map (fun x => entry_of (fst x) (part (snd x))) bs) cols
  = Ok (Frame None cols (flat_map (fun x => entry_of (fst x) (part (snd x))) bs)).
Proof.
  intros H. unfold from_dict.
  replace (forallb _ _) with true; [reflexivity|].
  symmetry. apply forallb_forall. intros [e vals] HIn. simpl.
  apply in_flat_map in HIn. destruct HIn as ([e' b] & Hb & HIn). simpl in HIn.
  destruct (part b) as [|v vs] eqn:Ep; [contradiction|].
  destruct HIn as [[= <- <-]|[]].
  apply Nat.eqb_eq. rewrite <- Ep. apply (H e' b Hb).
Qed.

(** The week, month-to-date and year-to-date frames of [get_section_data]
    hold, for every section, under every column of the column map (the
    period column aside), the cells of rows [R + 1], [R + 2] and [R + 3] as
    they stand in the page; the function returns whenever the blocks lie
    within the page and the period end parses. *)
Theorem get_section_data_verbatim
        (to_datetime : option string -> result cell)
        (p : page) (period_end : option string) (t : cell)
        (section_rows col_name_idx : dict nat) :
  NoDup (keys section_rows) -> NoDup (keys col_name_idx) ->
  (forall e R, In (e, R) section_rows -> block_in_range p R col_name_idx) ->
  to_datetime period_end = Ok t ->
  exists week mtd ytd,
    get_section_data to_datetime p period_end section_rows col_name_idx
    = Ok (week, mtd, ytd)
    /\ forall e R k col cidx,
        In (e, R) section_rows ->
        nth_error col_name_idx k = Some (col, cidx) ->
        col <> "period_ending" ->
        (exists w, cell_at p (R + 1) cidx = Some w /\ at_ col e week = Some w)
        /\ (exists m, cell_at p (R + 2) cidx = Some m /\ at_ col e mtd = Some m)
        /\ (exists y, cell_at p (R + 3) cidx = Some y /\ at_ col e ytd = Some y).
Proof.
  intros NDL NDC Hrange Ht.
  destruct (all_blocks_total p section_rows col_name_idx Hrange) as [bs Hbs].
  assert (Hread : read_blocks p section_rows col_name_idx
                  = Ok (week_of bs, mtd_of bs, ytd_of bs)).
  { rewrite (read_blocks_spec p section_rows col_name_idx NDL NDC), Hbs.
    reflexivity. }
  pose proof (all_blocks_lengths p section_rows col_name_idx bs Hbs) as Hlen.
  assert (Hk : List.length (keys col_name_idx) = List.length col_name_idx).
  { apply length_map. }
  eexists _, _, _. split.
  - unfold get_section_data. rewrite Hread. cbn [bind].
    unfold week_of, mtd_of, ytd_of.
    rewrite (from_dict_part (fun b => fst (fst b)) bs (keys col_name_idx)).
    2:{ intros e [[ws ms] ys] HIn. rewrite Hk. apply (Hlen e ws ms ys HIn). }
    cbn [bind].
    rewrite (from_dict_part (fun b => snd (fst b)) bs (keys col_name_idx)).
    2:{ intros e [[ws ms] ys] HIn. rewrite Hk. apply (Hlen e ws ms ys HIn). }
    cbn [bind].
    rewrite (from_dict_part (fun b => snd b) bs (keys col_name_idx)).
    2:{ intros e [[ws ms] ys] HIn. rewrite Hk. apply (Hlen e ws ms ys HIn). }
    cbn [bind]. unfold stamp. rewrite Ht. cbn [bind]. reflexivity.
  - intros e R k col cidx HL HC Hne.
    destruct (read_blocks_pointwise p section_rows col_name_idx _ _ _
                NDL NDC Hread e R k col cidx HL HC)
      as ((w & Hw & Hrw) & (m & Hm & Hrm) & (y & Hy & Hry)).
    assert (Hcol : nth_error (keys col_name_idx) k = Some col).
    { unfold keys. rewrite nth_error_map, HC. reflexivity. }
    unfold record_at in Hrw, Hrm, Hry.
    destruct (dict_get e (week_of bs)) as [wvals|] eqn:Hgw; [|discriminate].
    destruct (dict_get e (mtd_of bs)) as [mvals|] eqn:Hgm; [|discriminate].
    destruct (dict_get e (ytd_of bs)) as [yvals|] eqn:Hgy; [|discriminate].
    split; [|split].
    + exists w. split; [exact Hw|].
      apply (at_stamped "section" t (keys col_name_idx) _ e wvals k col w
               NDC Hgw Hcol Hrw Hne).
    + exists m. split; [exact Hm|].
      apply (at_stamped "section" t (keys col_name_idx) _ e mvals k col m
               NDC Hgm Hcol Hrm Hne).
    + exists y. split; [exact Hy|].
      apply (at_stamped "section" t (keys col_name_idx) _ e yvals k col y
               NDC Hgy Hcol Hry Hne).
Qed.

Lemma get_section_data_verbatim_witness :
  exists week mtd ytd,
    get_section_data sample_to_datetime roster_page (Some "Jan 7")
                     roster_labels roster_colmap
    = Ok (week, mtd, ytd)
    /\ forall e R k col cidx,
        In (e, R) roster_labels ->
        nth_error roster_colmap k = Some (col, cidx) ->
        col <> "period_ending" ->
        (exists w, cell_at roster_page (R + 1) cidx = Some w
                   /\ at_ col e week = Some w)
        /\ (exists m, cell_at roster_page (R + 2) cidx = Some m
                      /\ at_ col e mtd = Some m)
        /\ (exists y, cell_at roster_page (R + 3) cidx = Some y
                      /\ at_ col e ytd = Some y).
Proof.
  apply (get_section_data_verbatim
           sample_to_datetime roster_page (Some "Jan 7") (CTime 7)
           roster_labels roster_colmap).
  - repeat (constructor; [simpl; intuition discriminate|]). constructor.
  - repeat (constructor; [simpl; intuition discriminate|]). constructor.
  - intros e R [[= <- <-]|[[= <- <-]|[]]];
      (split; [simpl; lia|]);
      intros col cidx [[= <- <-]|[[= <- <-]|[[= <- <-]|[]]]];
      repeat split; discriminate.
  - reflexivity.
Defined.

(* ================================================================= *)
(** ** Incremental Loader *)

Lemma option_eqb_eq {A} (eqb : A -> A -> bool) :
  (forall x y, eqb x y = true <-> x = y) ->
  forall a b, option_eqb eqb a b = true <-> a = b.
Proof.
  intros H [x|] [y|]; simpl; try (split; congruence).
  rewrite H. split; congruence.
Qed.

Lemma key_eqb_eq (a b : fact_key) : key_eqb a b = true <-> a = b.
Proof.
  destruct a as [e1 p1], b as [e2 p2]. unfold key_eqb. simpl.
  rewrite Bool.andb_true_iff, (option_eqb_eq String.eqb String.eqb_eq),
    (option_eqb_eq Z.eqb Z.eqb_eq).
  split; [intros [-> ->]; reflexivity | intros [= -> ->]; auto].
Qed.

Lemma count_key_app (k : fact_key) (a b : list fact_row) :
  count_key k (a ++ b) = count_key k a + count_key k b.
Proof. unfold count_key. now rewrite filter_app, length_app. Qed.

Lemma existsb_count_key (k : fact_key) (table : list fact_row) :
  existsb (fun r' => key_eqb k (key_of r')) table
  = negb (Nat.eqb (count_key k table) 0).
Proof.
  unfold count_key. induction table as [|r table IH]; simpl; [reflexivity|].
  destruct (key_eqb k (key_of r)); simpl; [reflexivity | exact IH].
Qed.

(** With the guard, a key the table holds keeps its rows, and a key it
    does not hold gets one row if the batch has any. *)
Lemma count_key_append_guarded (k : fact_key) (rows table : list fact_row) :
  count_key k (append_guarded table rows) =
  if Nat.eqb (count_key k table) 0 then Nat.min 1 (count_key k rows)
  else count_key k table.
Proof.
  unfold append_guarded. revert table.
  induction rows as [|r rows IH]; intros table; simpl.
  - destruct (Nat.eqb_spec (count_key k table) 0) as [->|]; reflexivity.
  - rewrite IH. rewrite existsb_count_key.
    assert (Hcons : count_key k (r :: rows)
                    = (if key_eqb k (key_of r) then 1 else 0) + count_key k rows).
    { unfold count_key. simpl. now destruct (key_eqb k (key_of r)). }
    assert (Hone : count_key k [r] = if key_eqb k (key_of r) then 1 else 0).
    { unfold count_key. simpl. now destruct (key_eqb k (key_of r)). }
    rewrite Hcons.
    destruct (key_eqb k (key_of r)) eqn:Ek.
    + apply key_eqb_eq in Ek. subst k.
      destruct (Nat.eqb_spec (count_key (key_of r) table) 0) as [E0|N0]; simpl.
      * rewrite count_key_app, E0, Hone. reflexivity.
      * destruct (Nat.eqb_spec (count_key (key_of r) table) 0); [contradiction|].
        reflexivity.
    + destruct (Nat.eqb (count_key (key_of r) table) 0); simpl;
        [rewrite count_key_app, Hone, Nat.add_0_r|]; reflexivity.
Qed.

Lemma fact_rows_write_data (db : database) (b : batch) (t : fact_table) :
  fact_rows t (write_data db b) = fact_rows t db ++ batch_rows t b.
Proof.
  destruct t; unfold write_data, to_sql_append; simpl;
    rewrite ?map_app; reflexivity.
Qed.

(** C6. Each of the nine period tables grows, at every call of
    [write_data], by all the rows of its frame: there is no test of what
    the table holds. Two calls with the same frames therefore leave two
    copies of the frame's rows, so a key (entity, period_ending) that the
    table did not hold and the frame holds once is held twice; with the
    guard of the hardening it is held once. *)
Theorem C6_fact_tables_unconditional_append
        (db : database) (b : batch) (t : fact_table) (k : fact_key) :
  fact_rows t (write_data db b) = fact_rows t db ++ batch_rows t b
  /\ fact_rows t (write_data (write_data db b) b)
     = fact_rows t db ++ batch_rows t b ++ batch_rows t b
  /\ count_key k (fact_rows t (write_data (write_data db b) b))
     = count_key k (fact_rows t db) + 2 * count_key k (batch_rows t b)
  /\ count_key k (append_guarded (append_guarded (fact_rows t db) (batch_rows t b))
                                 (batch_rows t b))
     = (if Nat.eqb (count_key k (fact_rows t db)) 0
        then Nat.min 1 (count_key k (batch_rows t b))
        else count_key k (fact_rows t db))
  /\ (count_key k (fact_rows t db) = 0 -> count_key k (batch_rows t b) = 1 ->
      count_key k (fact_rows t (write_data (write_data db b) b)) = 2
      /\ count_key k (append_guarded
                        (append_guarded (fact_rows t db) (batch_rows t b))
                        (batch_rows t b)) = 1).
Proof.
  assert (H1 : fact_rows t (write_data (write_data db b) b)
               = fact_rows t db ++ batch_rows t b ++ batch_rows t b).
  { now rewrite !fact_rows_write_data, <- app_assoc. }
  assert (H2 : count_key k (fact_rows t (write_data (write_data db b) b))
               = count_key k (fact_rows t db) + 2 * count_key k (batch_rows t b)).
  { rewrite H1, !count_key_app. lia. }
  assert (H3 : count_key k (append_guarded
                              (append_guarded (fact_rows t db) (batch_rows t b))
                              (batch_rows t b))
               = (if Nat.eqb (count_key k (fact_rows t db)) 0
                  then Nat.min 1 (count_key k (batch_rows t b))
                  else count_key k (fact_rows t db))).
  { rewrite !count_key_append_guarded.
    destruct (Nat.eqb_spec (count_key k (fact_rows t db)) 0) as [E|N].
    - destruct (Nat.eqb_spec (Nat.min 1 (count_key k (batch_rows t b))) 0);
        [lia | reflexivity].
    - destruct (Nat.eqb_spec (count_key k (fact_rows t db)) 0);
        [contradiction | reflexivity]. }
  split; [apply fact_rows_write_data|].
  split; [exact H1|]. split; [exact H2|]. split; [exact H3|].
  intros E0 E1. rewrite H2, H3, E0, E1. split; reflexivity.
Qed.

Lemma C6_fact_tables_unconditional_append_witness :
  count_key (Some "1001", Some 7%Z)
            (fact_rows EmployeeWeek
                       (write_data (write_data empty_db roster_batch) roster_batch))
  = 2
  /\ count_key (Some "1001", Some 7%Z)
               (append_guarded
                  (append_guarded (fact_rows EmployeeWeek empty_db)
                                  (batch_rows EmployeeWeek roster_batch))
                  (batch_rows EmployeeWeek roster_batch))
     = 1.
Proof.
  apply (proj2 (proj2 (proj2 (proj2
           (C6_fact_tables_unconditional_append
              empty_db roster_batch EmployeeWeek (Some "1001", Some 7%Z))))));
    reflexivity.
Defined.

Lemma existsb_eqb_In (id : string) (ids : list string) :
  existsb (String.eqb id) ids = true <-> In id ids.
Proof.
  rewrite existsb_exists. split.
  - intros (x & Hx & E). apply String.eqb_eq in E. now subst.
  - intros H. exists id. split; [exact H | apply String.eqb_refl].
Qed.

(** C7. [write_data] leaves the rows of [employee] where they are and
    appends, in the order of the incoming frame, one row for each incoming
    identifier that no stored row carries: the incoming identifiers minus
    the stored ones. *)
Theorem C7_employee_upsert_appends_set_difference (db : database) (b : batch) :
  frame_columns (employee_df b) <> [] ->
  exists added,
    employee (write_data db b) = employee db ++ added
    /\ map fst added
       = filter (fun id => negb (existsb (String.eqb id) (existing_ids db)))
                (keys (frame_rows (employee_df b)))
    /\ (forall id,
           In id (map fst added) <->
           In id (keys (frame_rows (employee_df b)))
           /\ ~ In id (existing_ids db))
    /\ (forall id fields,
           In (id, fields) added ->
           exists vals, In (id, vals) (frame_rows (employee_df b))
                        /\ fields = combine (frame_columns (employee_df b)) vals).
Proof.
  intros Hcols.
  set (fresh := new_employees (existing_ids db) (employee_df b)).
  assert (Hemp : employee (write_data db b) = employee db ++ sql_rows fresh).
  { unfold write_data. simpl. fold fresh. unfold empty, to_sql_append.
    destruct (frame_rows fresh) as [|r rs] eqn:Er.
    - simpl. unfold sql_rows. rewrite Er. simpl. now rewrite app_nil_r.
    - unfold fresh, new_employees. simpl.
      destruct (frame_columns (employee_df b)); [contradiction | reflexivity]. }
  assert (Hkeys : map fst (sql_rows fresh)
                  = filter (fun id => negb (existsb (String.eqb id) (existing_ids db)))
                           (keys (frame_rows (employee_df b)))).
  { unfold sql_rows, fresh, new_employees, keys. simpl.
    rewrite map_map. simpl.
    induction (frame_rows (employee_df b)) as [|[id vals] rs IH]; simpl;
      [reflexivity|].
    destruct (existsb (String.eqb id) (existing_ids db)); simpl;
      [exact IH | now rewrite IH]. }
  exists (sql_rows fresh). split; [exact Hemp|]. split; [exact Hkeys|]. split.
  - intros id. rewrite Hkeys, filter_In, Bool.negb_true_iff.
    rewrite <- Bool.not_true_iff_false, existsb_eqb_In. reflexivity.
  - intros id fields HIn. unfold sql_rows, fresh, new_employees in HIn.
    simpl in HIn. apply in_map_iff in HIn.
    destruct HIn as ([id' vals] & [= <- <-] & HIn).
    apply filter_In in HIn. exists vals. split; [apply HIn | reflexivity].
Qed.

Lemma C7_employee_upsert_appends_set_difference_witness :
  (exists added,
      employee (write_data db_with_1001 second_file_batch)
      = employee db_with_1001 ++ added
      /\ map fst added
         = filter (fun id => negb (existsb (String.eqb id)
                                           (existing_ids db_with_1001)))
                  (keys (frame_rows (employee_df second_file_batch)))
      /\ (forall id,
             In id (map fst added) <->
             In id (keys (frame_rows (employee_df second_file_batch)))
             /\ ~ In id (existing_ids db_with_1001))
      /\ (forall id fields,
             In (id, fields) added ->
             exists vals,
               In (id, vals) (frame_rows (employee_df second_file_batch))
               /\ fields = combine (frame_columns (employee_df second_file_batch))
                                   vals))
  /\ employee (write_data db_with_1001 second_file_batch)
     = [("1001", [("name", CStr "Doe, Jane"); ("last", CStr "Doe");
                  ("first", CStr "Jane"); ("employee_number", CStr "1001")]);
        ("1002", [("name", CStr "Roe, Rick"); ("last", CStr "Roe");
                  ("first", CStr "Rick"); ("employee_number", CStr "1002")])].
Proof.
  split; [|reflexivity].
  apply (C7_employee_upsert_appends_set_difference db_with_1001 second_file_batch).
  discriminate.
Defined.

(* ================================================================= *)
(** ** Further properties: the block loop at the edge of the page *)

Lemma pick3_Some_in (wr mr yr : row) (idxs : list nat)
      (r : list cell * list cell * list cell) :
  pick3 wr mr yr idxs = Some r ->
  forall i, In i idxs ->
    nth_error wr i <> None /\ nth_error mr i <> None /\ nth_error yr i <> None.
Proof.
  revert r. induction idxs as [|i0 idxs IH]; intros r H i Hi; [contradiction|].
  simpl in H.
  destruct (nth_error wr i0) eqn:Ew; [|discriminate].
  destruct (nth_error mr i0) eqn:Em; [|discriminate].
  destruct (nth_error yr i0) eqn:Ey; [|discriminate].
  destruct (pick3 wr mr yr idxs) as [r'|] eqn:Er; [|destruct r; discriminate].
  destruct Hi as [<-|Hi].
  - rewrite Ew, Em, Ey. repeat split; discriminate.
  - apply (IH r' eq_refl i Hi).
Qed.

Lemma block_of_Some_in_range (p : page) (R : nat) (C : dict nat)
      (b : list cell * list cell * list cell) :
  block_of p R C = Some b -> block_in_range p R C.
Proof.
  unfold block_of, block_in_range, cell_at. intros H.
  destruct (nth_error (rows p) (R + 1)) as [wr|] eqn:Ew; [|discriminate].
  destruct (nth_error (rows p) (R + 2)) as [mr|] eqn:Em; [|discriminate].
  destruct (nth_error (rows p) (R + 3)) as [yr|] eqn:Ey; [|discriminate].
  split.
  - apply nth_error_Some. congruence.
  - intros col cidx Hin.
    apply (pick3_Some_in wr mr yr (map snd C) b H cidx).
    apply in_map_iff. exists (col, cidx). auto.
Qed.

(** The block loop returns exactly when every block lies within the page,
    and raises an IndexError otherwise: a label row among the last three
    rows of the page, or a column index beyond a data row, stops it. *)
Theorem read_blocks_returns_iff (p : page) (label_rows col_name_idx : dict nat) :
  NoDup (keys label_rows) -> NoDup (keys col_name_idx) ->
  ((exists r, read_blocks p label_rows col_name_idx = Ok r) <->
   (forall e R, In (e, R) label_rows -> block_in_range p R col_name_idx))
  /\ ((exists e R, In (e, R) label_rows /\ ~ block_in_range p R col_name_idx) ->
      read_blocks p label_rows col_name_idx = Raise IndexError).
Proof.
  intros NDL NDC.
  rewrite (read_blocks_spec p label_rows col_name_idx NDL NDC).
  destruct (all_blocks p label_rows col_name_idx) as [bs|] eqn:Hbs.
  - destruct (all_blocks_in p label_rows col_name_idx bs Hbs) as [_ Hin].
    assert (Hall : forall e R, In (e, R) label_rows ->
                               block_in_range p R col_name_idx).
    { intros e R HL. destruct (Hin e R HL) as (b & Hb & _).
      apply (block_of_Some_in_range p R col_name_idx b Hb). }
    split.
    + split; [intros _; exact Hall | intros _; eauto].
    + intros (e & R & HL & Hout). exfalso. apply Hout. now apply (Hall e R).
  - split; [split|reflexivity].
    + intros [r Hr]. discriminate.
    + intros Hall.
      destruct (all_blocks_total p label_rows col_name_idx Hall) as [bs Hbs'].
      congruence.
Qed.

Lemma read_blocks_returns_iff_witness :
  ((exists r, read_blocks roster_page_cut roster_labels short_colmap = Ok r) <->
   (forall e R, In (e, R) roster_labels ->
                block_in_range roster_page_cut R short_colmap))
  /\ ((exists e R, In (e, R) roster_labels
                   /\ ~ block_in_range roster_page_cut R short_colmap) ->
      read_blocks roster_page_cut roster_labels short_colmap = Raise IndexError).
Proof.
  apply (read_blocks_returns_iff roster_page_cut roster_labels short_colmap).
  - repeat (constructor; [simpl; intuition discriminate|]). constructor.
  - repeat (constructor; [simpl; intuition discriminate|]). constructor.
Defined.

(* ================================================================= *)
(** ** Further properties: the label locators *)

Lemma section_marker_has_colon (s : string) :
  contains "Section:" s = true -> exists colon, find ":" s = Some colon.
Proof.
  intros H. apply contains_app in H. destruct H as (u & t & ->).
  destruct (find ":" (u ++ "Section:" ++ t)) as [n|] eqn:E; [eauto|].
  apply find_None_app in E. destruct E as [_ E]. discriminate.
Qed.

(** One step of [get_sections] on a row with a first cell. *)
Lemma get_sections_step_ok (sr : dict nat) (sd : dict (list cell))
      (i : nat) (r : row) :
  r <> [] ->
  get_sections_step (sr, sd) (i, r) =
  Ok (match parse_section_row r with
      | Some (name, record) => (dict_set name i sr, dict_set name record sd)
      | None => (sr, sd)
      end).
Proof.
  destruct r as [|c r]; [contradiction|]. intros _.
  unfold get_sections_step, parse_section_row, iloc, getitem.
  simpl nth_error. cbv beta iota.
  destruct c as [|s|z|f|t]; try reflexivity.
  unfold in_str, bind at 1.
  destruct (contains "Section:" s) eqn:Hs; [|reflexivity].
  unfold text_of, bind at 1. unfold index.
  destruct (section_marker_has_colon s Hs) as [colon ->]. reflexivity.
Qed.

Lemma get_sections_loop_ok (rs : list row) :
  Forall (fun r => r <> []) rs ->
  forall i sr sd,
    for_each (combine (seq i (List.length rs)) rs) (sr, sd) get_sections_step
    = Ok (set_all (map (fun e => (fst e, fst (snd e)))
                       (tagged_from parse_section_row i rs)) sr,
          set_all (map (fun e => (fst e, snd (snd e)))
                       (tagged_from parse_section_row i rs)) sd).
Proof.
  induction 1 as [|r rs Hr _ IH]; intros i sr sd; [reflexivity|].
  cbn [List.length seq combine for_each tagged_from].
  rewrite (get_sections_step_ok sr sd i r Hr).
  destruct (parse_section_row r) as [[name record]|]; simpl; apply IH.
Qed.

Lemma parse_section_row_length (r : row) (name : string) (record : list cell) :
  parse_section_row r = Some (name, record) -> List.length record = 1.
Proof.
  unfold parse_section_row.
  destruct r as [|[|s|z|f|t] r]; try discriminate.
  destruct (contains "Section:" s); [|discriminate].
  destruct (find ":" s) as [colon|]; [|discriminate].
  intros [= <- <-]. reflexivity.
Qed.

(** [get_sections] returns on every page whose rows have a first cell: a
    section label always holds the colon it is cut at. The label index and
    the metadata have one entry per section name, and a name that several
    label rows carry is mapped to the index of the last of them. *)
Theorem get_sections_last_label_row_wins (p : page) :
  Forall (fun r => r <> []) (rows p) ->
  exists section_rows section_df,
    get_sections p = Ok (section_rows, section_df)
    /\ NoDup (keys section_rows)
    /\ NoDup (keys (frame_rows section_df))
    /\ forall name i record,
        last_with parse_section_row (rows p) name i record ->
        dict_get name section_rows = Some i
        /\ dict_get name (frame_rows section_df) = Some record.
Proof.
  intros Hrows.
  set (T := tagged_from parse_section_row 0 (rows p)).
  set (sr := set_all (map (fun e => (fst e, fst (snd e))) T) []).
  set (sd := set_all (map (fun e => (fst e, snd (snd e))) T) []).
  assert (Hloop : for_each (iterrows p) ([], []) get_sections_step = Ok (sr, sd)).
  { unfold iterrows, enumerate. now rewrite get_sections_loop_ok. }
  assert (Hfd : from_dict sd ["section_name"]
                = Ok (Frame None ["section_name"] sd)).
  { unfold from_dict.
    replace (forallb _ sd) with true; [reflexivity|].
    symmetry. apply forallb_forall. intros [k v] HIn. simpl.
    apply in_set_all in HIn. destruct HIn as [HIn|[]].
    apply in_map_iff in HIn. destruct HIn as ([k' [j v']] & [= <- <-] & HIn).
    simpl. apply in_tagged_from in HIn. destruct HIn as (r & _ & Hr).
    now rewrite (parse_section_row_length r k' v' Hr). }
  exists sr, (set_index_name "section" (Frame None ["section_name"] sd)).
  split; [|split; [|split]].
  - unfold get_sections. rewrite Hloop. simpl. rewrite Hfd. reflexivity.
  - apply NoDup_keys_set_all. constructor.
  - simpl. apply NoDup_keys_set_all. constructor.
  - intros name i record Hlast.
    apply last_tagged in Hlast. fold T in Hlast.
    unfold sr, sd. simpl frame_rows.
    rewrite !dict_get_set_all, <- !map_rev, !dict_get_map_values, Hlast.
    split; reflexivity.
Qed.

Lemma get_sections_last_label_row_wins_witness :
  (exists section_rows section_df,
      get_sections util_page = Ok (section_rows, section_df)
      /\ NoDup (keys section_rows)
      /\ NoDup (keys (frame_rows section_df))
      /\ forall name i record,
          last_with parse_section_row (rows util_page) name i record ->
          dict_get name section_rows = Some i
          /\ dict_get name (frame_rows section_df) = Some record)
  /\ get_sections util_page
     = Ok ([("Fisheries", 16); ("Hydrology", 12)],
           Frame (Some "section") ["section_name"]
                 [("Fisheries", [CStr "Fisheries"]);
                  ("Hydrology", [CStr "Hydrology"])]).
Proof.
  split; [|reflexivity].
  apply (get_sections_last_label_row_wins util_page).
  repeat (constructor; [discriminate|]). constructor.
Defined.

(** The closed form of what [get_employees] returns on rows it can step
    through. *)
Lemma get_employees_closed_form (p : page) :
  Forall (fun r => employee_row_ok r = true) (rows p) ->
  get_employees p =
  Ok (set_all (map (fun e => (fst e, fst (snd e)))
                   (tagged_from parse_row 0 (rows p))) [],
      Frame (Some "employee_id") employee_columns
            (set_all (map (fun e => (fst e, snd (snd e)))
                          (tagged_from parse_row 0 (rows p))) [])).
Proof.
  intros Hrows.
  set (T := tagged_from parse_row 0 (rows p)).
  set (er := set_all (map (fun e => (fst e, fst (snd e))) T) []).
  set (ed := set_all (map (fun e => (fst e, snd (snd e))) T) []).
  assert (Hloop : for_each (iterrows p) ([], []) get_employees_step = Ok (er, ed)).
  { unfold iterrows, enumerate. now rewrite get_employees_loop_ok. }
  assert (Hfd : from_dict ed employee_columns = Ok (Frame None employee_columns ed)).
  { unfold from_dict.
    replace (forallb _ ed) with true; [reflexivity|].
    symmetry. apply forallb_forall. intros [k v] HIn. simpl.
    apply in_set_all in HIn. destruct HIn as [HIn|[]].
    apply in_map_iff in HIn. destruct HIn as ([k' [j v']] & [= <- <-] & HIn).
    simpl. apply in_tagged_from in HIn. destruct HIn as (r & _ & Hr).
    now rewrite (parse_row_length r k' v' Hr). }
  unfold get_employees. rewrite Hloop. simpl. rewrite Hfd. reflexivity.
Qed.

Lemma employee_rows_ok_dec (rs : list row) :
  Forall (fun r => employee_row_ok r = true) rs
  \/ ~ Forall (fun r => employee_row_ok r = true) rs.
Proof.
  destruct (Forall_dec (fun r => employee_row_ok r = true)
                       (fun r => Bool.bool_dec (employee_row_ok r) true) rs);
    auto.
Qed.

(** [get_employees] returns exactly on the pages whose rows each have a
    first cell and whose employee labels each hold, after the number, a
    name field with exactly one comma; on any other page it raises. *)
Theorem get_employees_returns_iff (p : page) :
  ((exists r, get_employees p = Ok r) <->
   Forall (fun r => employee_row_ok r = true) (rows p))
  /\ ((exists e, get_employees p = Raise e) <->
      ~ Forall (fun r => employee_row_ok r = true) (rows p)).
Proof.
  destruct (employee_rows_ok_dec (rows p)) as [H|H].
  - pose proof (get_employees_closed_form p H) as Hcf. split; split.
    + intros _. exact H.
    + intros _. eauto.
    + intros [e He]. congruence.
    + intros Hn. contradiction.
  - destruct (get_employees_raises p H) as [e He]. split; split.
    + intros [r Hr]. congruence.
    + intros Hn. contradiction.
    + intros _. exact H.
    + intros _. eauto.
Qed.

(** Every entry of the label index that [get_employees] returns is the
    index of an employee label row that carries the entry's number, the
    last such row of the page, and the metadata holds that row's name
    components: no entry comes from anything but a label row. *)
Theorem get_employees_entries_are_label_rows
        (p : page) (employee_rows : dict nat) (employee_df : frame string) :
  get_employees p = Ok (employee_rows, employee_df) ->
  forall number i,
    dict_get number employee_rows = Some i ->
    exists record,
      last_with parse_row (rows p) number i record
      /\ dict_get number (frame_rows employee_df) = Some record.
Proof.
  intros Hget number i Hi.
  destruct (employee_rows_ok_dec (rows p)) as [H|H].
  - rewrite (get_employees_closed_form p H) in Hget.
    injection Hget as <- <-. simpl frame_rows.
    rewrite dict_get_set_all, <- map_rev, dict_get_map_values in Hi. simpl in Hi.
    destruct (dict_get number (rev (tagged_from parse_row 0 (rows p))))
      as [[j record]|] eqn:Hrev; [|discriminate].
    simpl in Hi. injection Hi as ->.
    exists record. split.
    + now apply last_tagged.
    + rewrite dict_get_set_all, <- map_rev, dict_get_map_values, Hrev.
      reflexivity.
  - destruct (get_employees_raises p H) as [e He]. congruence.
Qed.

Lemma get_employees_entries_are_label_rows_witness :
  exists record,
    last_with parse_row (rows roster_page_twice) "1001" 9 record
    /\ dict_get "1001"
         (frame_rows
            (Frame (Some "employee_id") employee_columns
               [("1001", [CStr "Doe, John"; CStr "Doe"; CStr "John"; CStr "1001"]);
                ("1002", [CStr "Roe, Rick"; CStr "Roe"; CStr "Rick"; CStr "1002"])]))
       = Some record.
Proof.
  apply (get_employees_entries_are_label_rows
           roster_page_twice [("1001", 9); ("1002", 5)]
           (Frame (Some "employee_id") employee_columns
              [("1001", [CStr "Doe, John"; CStr "Doe"; CStr "John"; CStr "1001"]);
               ("1002", [CStr "Roe, Rick"; CStr "Roe"; CStr "Rick"; CStr "1002"])])
           eq_refl "1001" 9 eq_refl).
Defined.

(* ================================================================= *)
(** ** Further properties: when [get_employee_data] returns *)

Lemma dict_get_In {V} (d : dict V) (k : string) (v : V) :
  dict_get k d = Some v -> In (k, v) d.
Proof.
  induction d as [|[k0 v0] d IH]; simpl; [discriminate|].
  destruct (String.eqb_spec k k0) as [->|N].
  - intros [= ->]. now left.
  - intros H. right. auto.
Qed.

Lemma position_None (name : string) (cols : list string) :
  position name cols = None <-> ~ In name cols.
Proof.
  induction cols as [|c cols IH]; simpl; [intuition|].
  destruct (String.eqb_spec name c) as [->|N].
  - split; [discriminate | intros H; exfalso; apply H; now left].
  - destruct (position name cols) as [j|]; simpl.
    + split; [discriminate|]. intros H. exfalso.
      assert (Hin : In name cols).
      { destruct (in_dec string_dec name cols) as [Hi|Hi]; [exact Hi|].
        apply IH in Hi. discriminate. }
      apply H. now right.
    + split; [|reflexivity]. intros _ [E|Hin]; [congruence|].
      now apply (proj1 IH).
Qed.

(** The column a name is found at is the one [dict_get] reads. *)
Lemma position_keys_dict_get {V} (name : string) (d : dict V) (pos : nat) :
  position name (keys d) = Some pos ->
  exists v, nth_error d pos = Some (name, v) /\ dict_get name d = Some v.
Proof.
  revert pos. induction d as [|[k0 v0] d IH]; intros pos; simpl; [discriminate|].
  destruct (String.eqb_spec name k0) as [->|N].
  - intros [= <-]. exists v0. auto.
  - destruct (position name (keys d)) as [j|] eqn:Ej; [|discriminate].
    intros [= <-]. destruct (IH j eq_refl) as (v & H1 & H2).
    exists v. auto.
Qed.

Lemma all_blocks_from (p : page) (L C : dict nat)
      (bs : list (string * (list cell * list cell * list cell))) :
  all_blocks p L C = Some bs ->
  forall e b, In (e, b) bs -> exists R, In (e, R) L /\ block_of p R C = Some b.
Proof.
  revert bs. induction L as [|[e0 R0] L IH]; intros bs H; simpl in H.
  - injection H as <-. intros e b [].
  - destruct (block_of p R0 C) as [b0|] eqn:Eb; [|discriminate].
    destruct (all_blocks p L C) as [bs'|]; [|discriminate].
    injection H as <-. intros e b [[= <- <-]|HIn].
    + exists R0. split; [now left | exact Eb].
    + destruct (IH bs' eq_refl e b HIn) as (R & HL & HB).
      exists R. split; [now right | exact HB].
Qed.

Lemma read_blocks_ok_in_range (p : page) (L C : dict nat) (r : blocks) :
  NoDup (keys L) -> NoDup (keys C) ->
  read_blocks p L C = Ok r ->
  forall e R, In (e, R) L -> block_in_range p R C.
Proof.
  intros NDL NDC Hr e R HL.
  rewrite (read_blocks_spec p L C NDL NDC) in Hr.
  destruct (all_blocks p L C) as [bs|] eqn:Hbs; [|discriminate].
  destruct (all_blocks_in p L C bs Hbs) as [_ Hin].
  destruct (Hin e R HL) as (b & Hb & _).
  apply (block_of_Some_in_range p R C b Hb).
Qed.

Lemma series_truediv100_total (vs : list cell) :
  Forall divides vs -> exists qs, series_truediv100 vs = Ok qs.
Proof.
  induction 1 as [|v vs [q Hq] _ [qs IH]]; simpl; [eauto|].
  rewrite Hq, IH. simpl. eauto.
Qed.

Lemma series_truediv100_divides (vs qs : list cell) :
  series_truediv100 vs = Ok qs -> Forall divides vs.
Proof.
  revert qs. induction vs as [|v vs IH]; intros qs H; [constructor|].
  simpl in H. destruct (truediv100 v) as [q|] eqn:Eq; [|discriminate].
  simpl in H.
  destruct (series_truediv100 vs) as [qs'|] eqn:Es; [|discriminate].
  constructor; [now exists q | apply (IH qs' eq_refl)].
Qed.

Section ReturnsFacts.

Variable to_datetime : option string -> result cell.

(** [get_employee_data] after a block loop that returned, with frames
    that [from_dict] accepts. *)
Lemma get_employee_data_after_blocks (p : page) (period_end : option string)
      (L C : dict nat)
      (bs : list (string * (list cell * list cell * list cell))) :
  NoDup (keys L) -> NoDup (keys C) ->
  all_blocks p L C = Some bs ->
  get_employee_data to_datetime p period_end L C =
  (actual <- getcol "actual_pct" (Frame None (keys C) (week_of bs)) ;;
   scaled <- series_truediv100 actual ;;
   week_df <- loc_setcol "actual_pct" scaled
                         (Frame None (keys C) (week_of bs)) ;;
   week_df <- stamp to_datetime "employee_id" period_end week_df ;;
   mtd_df <- stamp to_datetime "employee_id" period_end
                   (Frame None (keys C) (mtd_of bs)) ;;
   ytd_df <- stamp to_datetime "employee_id" period_end
                   (Frame None (keys C) (ytd_of bs)) ;;
   Ok (week_df, mtd_df, ytd_df)).
Proof.
  intros NDL NDC Hbs.
  pose proof (all_blocks_lengths p L C bs Hbs) as Hlen.
  assert (Hk : List.length (keys C) = List.length C) by apply length_map.
  unfold get_employee_data.
  rewrite (read_blocks_spec p L C NDL NDC), Hbs. cbn [bind].
  unfold week_of, mtd_of, ytd_of.
  rewrite (from_dict_part (fun b => fst (fst b)) bs (keys C)).
  2:{ intros e [[ws ms] ys] HIn. rewrite Hk. apply (Hlen e ws ms ys HIn). }
  cbn [bind].
  rewrite (from_dict_part (fun b => snd (fst b)) bs (keys C)).
  2:{ intros e [[ws ms] ys] HIn. rewrite Hk. apply (Hlen e ws ms ys HIn). }
  cbn [bind].
  rewrite (from_dict_part (fun b => snd b) bs (keys C)).
  2:{ intros e [[ws ms] ys] HIn. rewrite Hk. apply (Hlen e ws ms ys HIn). }
  cbn [bind]. reflexivity.
Qed.

(** The weekly [actual_pct] value of each row of the weekly dict is the
    cell of the page it was read from. *)
Lemma weekly_actual_cells (p : page) (L C : dict nat)
      (bs : list (string * (list cell * list cell * list cell)))
      (pos cidx : nat) :
  all_blocks p L C = Some bs ->
  nth_error C pos = Some ("actual_pct", cidx) ->
  forall e vals, In (e, vals) (week_of bs) ->
    exists R w, In (e, R) L /\ cell_at p (R + 1) cidx = Some w
                /\ nth pos vals CNull = w.
Proof.
  intros Hbs Hpos e vals HIn.
  unfold week_of in HIn. apply in_flat_map in HIn.
  destruct HIn as ([e' [[ws ms] ys]] & Hb & HIn). simpl in HIn.
  destruct ws as [|v0 ws0] eqn:Ews; [contradiction|].
  destruct HIn as [[= <- <-]|[]]. rewrite <- Ews in *. clear Ews v0 ws0.
  destruct (all_blocks_from p L C bs Hbs e' (ws, ms, ys) Hb) as (R & HL & HB).
  unfold block_of in HB.
  destruct (nth_error (rows p) (R + 1)) as [wr|] eqn:Ew; [|discriminate].
  destruct (nth_error (rows p) (R + 2)) as [mr|]; [|discriminate].
  destruct (nth_error (rows p) (R + 3)) as [yr|]; [|discriminate].
  assert (Hk : nth_error (map snd C) pos = Some cidx).
  { rewrite nth_error_map, Hpos. reflexivity. }
  destruct (pick3_nth wr mr yr (map snd C) ws ms ys HB pos cidx Hk)
    as ((w & Hw1 & Hw2) & _ & _).
  exists R, w. split; [exact HL|]. split.
  - unfold cell_at. now rewrite Ew.
  - apply (nth_error_nth_default ws pos w CNull Hw2).
Qed.

End ReturnsFacts.

(** [get_employee_data] returns exactly when every block lies within the
    page, the column map has an [actual_pct] column, the weekly
    [actual_pct] cell of every employee is empty or a number (one that
    fits a double), and the period end parses. *)
Theorem get_employee_data_returns_iff
        (to_datetime : option string -> result cell)
        (p : page) (period_end : option string)
        (employee_rows col_name_idx : dict nat) :
  NoDup (keys employee_rows) -> NoDup (keys col_name_idx) ->
  ((exists frames,
       get_employee_data to_datetime p period_end employee_rows col_name_idx
       = Ok frames)
   <->
   (forall e R, In (e, R) employee_rows -> block_in_range p R col_name_idx)
   /\ In "actual_pct" (keys col_name_idx)
   /\ weekly_actual_divides p employee_rows col_name_idx
   /\ exists t, to_datetime period_end = Ok t).
Proof.
  intros NDL NDC. split.
  - intros [[[week mtd] ytd] Hdata].
    destruct (get_employee_data_inv to_datetime p period_end employee_rows
                col_name_idx week mtd ytd Hdata)
      as (wk & mt & yt & pos & scaled & t & Hread & Hpos & Hs & _).
    pose proof (read_blocks_ok_in_range p employee_rows col_name_idx _
                  NDL NDC Hread) as Hrange.
    split; [exact Hrange|]. split.
    { apply position_nth in Hpos. eapply nth_error_In. exact Hpos. }
    split.
    + intros e R cidx HL Hc.
      destruct (position_keys_dict_get "actual_pct" col_name_idx pos Hpos)
        as (v & Hnth & Hv).
      assert (v = cidx) by congruence. subst v.
      destruct (read_blocks_pointwise p employee_rows col_name_idx wk mt yt
                  NDL NDC Hread e R pos "actual_pct" cidx HL Hnth)
        as ((w & Hw & Hrw) & _).
      exists w. split; [exact Hw|].
      unfold record_at in Hrw.
      destruct (dict_get e wk) as [vals|] eqn:Hg; [|discriminate].
      apply dict_get_In in Hg.
      pose proof (series_truediv100_divides _ _ Hs) as Hall.
      rewrite Forall_forall in Hall.
      specialize (Hall (nth pos vals CNull)).
      rewrite <- (nth_error_nth_default vals pos w CNull Hrw).
      apply Hall. apply in_map_iff. exists (e, vals). auto.
    + destruct (all_blocks_total p employee_rows col_name_idx Hrange) as [bs Hbs].
      rewrite (get_employee_data_after_blocks to_datetime p period_end
                 employee_rows col_name_idx bs NDL NDC Hbs) in Hdata.
      unfold getcol, loc_setcol in Hdata.
      cbn [frame_columns frame_rows index_name] in Hdata.
      rewrite Hpos in Hdata. cbn [bind] in Hdata.
      destruct (series_truediv100 _) as [sc|]; [|discriminate].
      cbn [bind] in Hdata. unfold stamp in Hdata.
      destruct (to_datetime period_end) as [t'|]; [eauto | discriminate].
  - intros (Hrange & Hcol & Hdiv & t & Ht).
    destruct (all_blocks_total p employee_rows col_name_idx Hrange) as [bs Hbs].
    rewrite (get_employee_data_after_blocks to_datetime p period_end
               employee_rows col_name_idx bs NDL NDC Hbs).
    destruct (position "actual_pct" (keys col_name_idx)) as [pos|] eqn:Hpos.
    2:{ apply position_None in Hpos. contradiction. }
    destruct (position_keys_dict_get "actual_pct" col_name_idx pos Hpos)
      as (cidx & Hnth & Hv).
    assert (Hall : Forall divides
                     (map (fun r => nth pos (snd r) CNull) (week_of bs))).
    { apply Forall_forall. intros v Hv'. apply in_map_iff in Hv'.
      destruct Hv' as ([e vals] & <- & HIn). simpl.
      destruct (weekly_actual_cells p employee_rows col_name_idx bs pos cidx
                  Hbs Hnth e vals HIn) as (R & w & HL & Hw & Hn).
      destruct (Hdiv e R cidx HL Hv) as (w' & Hw' & Hd).
      rewrite Hn. congruence. }
    destruct (series_truediv100_total _ Hall) as [qs Hqs].
    unfold getcol, loc_setcol. cbn [frame_columns frame_rows index_name].
    rewrite Hpos. cbn [bind]. rewrite Hqs. cbn [bind].
    unfold stamp. rewrite Ht. cbn [bind]. eauto.
Qed.

Lemma get_employee_data_returns_iff_witness :
  (exists frames,
      get_employee_data sample_to_datetime roster_page (Some "Jan 7")
                        roster_labels roster_colmap
      = Ok frames)
  <->
  (forall e R, In (e, R) roster_labels -> block_in_range roster_page R roster_colmap)
  /\ In "actual_pct" (keys roster_colmap)
  /\ weekly_actual_divides roster_page roster_labels roster_colmap
  /\ exists t, sample_to_datetime (Some "Jan 7") = Ok t.
Proof.
  apply (get_employee_data_returns_iff
           sample_to_datetime roster_page (Some "Jan 7")
           roster_labels roster_colmap).
  - repeat (constructor; [simpl; intuition discriminate|]). constructor.
  - repeat (constructor; [simpl; intuition discriminate|]). constructor.
Defined.

(** Without an [actual_pct] column in the column map, [get_employee_data]
    raises a KeyError even when every block lies within the page, and even
    when the label index is empty. *)
Theorem get_employee_data_needs_actual_pct
        (to_datetime : option string -> result cell)
        (p : page) (period_end : option string)
        (employee_rows col_name_idx : dict nat) :
  NoDup (keys employee_rows) -> NoDup (keys col_name_idx) ->
  (forall e R, In (e, R) employee_rows -> block_in_range p R col_name_idx) ->
  ~ In "actual_pct" (keys col_name_idx) ->
  get_employee_data to_datetime p period_end employee_rows col_name_idx
  = Raise KeyError.
Proof.
  intros NDL NDC Hrange Hno.
  destruct (all_blocks_total p employee_rows col_name_idx Hrange) as [bs Hbs].
  rewrite (get_employee_data_after_blocks to_datetime p period_end
             employee_rows col_name_idx bs NDL NDC Hbs).
  unfold getcol. cbn [frame_columns].
  apply position_None in Hno. rewrite Hno. reflexivity.
Qed.

Lemma get_employee_data_needs_actual_pct_witness :
  get_employee_data sample_to_datetime roster_page (Some "Jan 7")
                    roster_labels [("target_pct", 1); ("direct", 3)]
  = Raise KeyError.
Proof.
  apply (get_employee_data_needs_actual_pct
           sample_to_datetime roster_page (Some "Jan 7")
           roster_labels [("target_pct", 1); ("direct", 3)]).
  - repeat (constructor; [simpl; intuition discriminate|]). constructor.
  - repeat (constructor; [simpl; intuition discriminate|]). constructor.
  - intros e R [[= <- <-]|[[= <- <-]|[]]];
      (split; [simpl; lia|]);
      intros col cidx [[= <- <-]|[[= <- <-]|[]]];
      repeat split; discriminate.
  - simpl. intuition discriminate.
Defined.

(* ================================================================= *)
(** ** Further properties: the employee table *)

(** The identifiers the employee table holds after [write_data]. *)
Lemma existing_ids_write_data (db : database) (b : batch) :
  existing_ids (write_data db b) =
  existing_ids db ++
  match frame_columns (employee_df b) with
  | [] => []
  | _ => filter (fun id => negb (existsb (String.eqb id) (existing_ids db)))
                (keys (frame_rows (employee_df b)))
  end.
Proof.
  unfold write_data, existing_ids at 1. cbv zeta. cbn [employee].
  set (ids := existing_ids db).
  set (fresh := new_employees ids (employee_df b)).
  assert (Hkeys : map fst (sql_rows fresh)
                  = filter (fun id => negb (existsb (String.eqb id) ids))
                           (keys (frame_rows (employee_df b)))).
  { unfold sql_rows, fresh, new_employees, keys. simpl.
    rewrite map_map. simpl.
    induction (frame_rows (employee_df b)) as [|[id vals] rs IH]; simpl;
      [reflexivity|].
    destruct (existsb (String.eqb id) ids); simpl;
      [exact IH | now rewrite IH]. }
  assert (Hnil : frame_rows fresh = [] -> sql_rows fresh = []).
  { intros E. unfold sql_rows. now rewrite E. }
  unfold empty.
  change (frame_columns fresh) with (frame_columns (employee_df b)).
  destruct (frame_rows fresh) as [|r rs].
  - cbn [negb]. rewrite (Hnil eq_refl) in Hkeys. simpl in Hkeys.
    rewrite <- Hkeys.
    destruct (frame_columns (employee_df b)); now rewrite app_nil_r.
  - destruct (frame_columns (employee_df b)) as [|c cs]; cbn [negb].
    + now rewrite app_nil_r.
    + unfold to_sql_append. rewrite map_app.
      apply (f_equal (app (map fst (employee db)))). exact Hkeys.
Qed.

Lemma filter_absent_nil (ids incoming : list string) :
  (forall id, In id incoming -> In id ids) ->
  filter (fun id => negb (existsb (String.eqb id) ids)) incoming = [].
Proof.
  induction incoming as [|x xs IH]; intros H; simpl; [reflexivity|].
  assert (Hx : existsb (String.eqb x) ids = true).
  { apply existsb_eqb_In. apply H. now left. }
  rewrite Hx. simpl. apply IH. intros id Hid. apply H. now right.
Qed.

Lemma in_upsert (ids incoming : list string) (id : string) :
  In id incoming ->
  In id (ids ++ filter (fun x => negb (existsb (String.eqb x) ids)) incoming).
Proof.
  intros Hin. apply in_or_app.
  destruct (existsb (String.eqb id) ids) eqn:E.
  - left. now apply existsb_eqb_In.
  - right. apply filter_In. split; [exact Hin | now rewrite E].
Qed.

Lemma NoDup_upsert (ids incoming : list string) :
  NoDup ids -> NoDup incoming ->
  NoDup (ids ++ filter (fun x => negb (existsb (String.eqb x) ids)) incoming).
Proof.
  intros Hids Hinc. apply NoDup_app.
  - exact Hids.
  - now apply NoDup_filter.
  - intros a Ha Hf. apply filter_In in Hf. destruct Hf as [_ Hf].
    apply Bool.negb_true_iff in Hf.
    apply existsb_eqb_In in Ha. congruence.
Qed.

(** The employee upsert is idempotent: a second [write_data] with the same
    employee frame leaves the employee table as the first one left it,
    whatever the table held before. (The nine period tables grow again.) *)
Theorem write_data_employee_idempotent (db : database) (b : batch) :
  employee (write_data (write_data db b) b) = employee (write_data db b).
Proof.
  set (db1 := write_data db b).
  assert (Hall : forall id, In id (keys (frame_rows (employee_df b))) ->
                            frame_columns (employee_df b) <> [] ->
                            In id (existing_ids db1)).
  { intros id Hid Hcols. unfold db1. rewrite existing_ids_write_data.
    destruct (frame_columns (employee_df b)); [contradiction|].
    now apply in_upsert. }
  unfold write_data at 1. simpl. fold db1. unfold empty.
  destruct (frame_rows (new_employees (existing_ids db1) (employee_df b)))
    as [|r rs] eqn:Er; [reflexivity|].
  unfold new_employees at 1. simpl.
  destruct (frame_columns (employee_df b)) as [|c cs] eqn:Ec; [reflexivity|].
  exfalso.
  assert (Hr : In r (frame_rows (new_employees (existing_ids db1) (employee_df b))))
    by (rewrite Er; now left).
  unfold new_employees in Hr. simpl in Hr. apply filter_In in Hr.
  destruct Hr as [Hr Hf]. apply Bool.negb_true_iff in Hf.
  assert (Hin : In (fst r) (existing_ids db1)).
  { apply Hall; [apply in_map; exact Hr | discriminate]. }
  apply existsb_eqb_In in Hin. congruence.
Qed.

(** [write_data] keeps the identifiers of the employee table distinct: if
    no two stored rows share an identifier and no two rows of the incoming
    frame do, no two rows share one afterwards. *)
Theorem write_data_keeps_employee_ids_distinct (db : database) (b : batch) :
  NoDup (existing_ids db) ->
  NoDup (keys (frame_rows (employee_df b))) ->
  NoDup (existing_ids (write_data db b)).
Proof.
  intros Hids Hinc. rewrite existing_ids_write_data.
  destruct (frame_columns (employee_df b)).
  - now rewrite app_nil_r.
  - now apply NoDup_upsert.
Qed.

Lemma write_data_keeps_employee_ids_distinct_witness :
  NoDup (existing_ids (write_data db_with_1001 second_file_batch))
  /\ existing_ids (write_data db_with_1001 second_file_batch) = ["1001"; "1002"].
Proof.
  split; [|reflexivity].
  apply (write_data_keeps_employee_ids_distinct db_with_1001 second_file_batch).
  - repeat (constructor; [simpl; intuition discriminate|]). constructor.
  - repeat (constructor; [simpl; intuition discriminate|]). constructor.
Defined.

(* ================================================================= *)
(** ** Further properties: the period extractors *)

(** [get_pay_period] raises on the first label it cannot read: a TypeError
    on a column label that is not text ([in] on a number or a date), met
    before any label holds the marker, and a ValueError when the first
    label that holds the marker has no hyphen. *)
Theorem get_pay_period_raises (pre post : list cell) (data : list row) :
  Forall plain_label pre ->
  (forall c, (forall s, c <> CStr s) ->
             get_pay_period (Page (pre ++ c :: post) data) = Raise TypeError)
  /\ (forall label,
         contains period_marker label = true -> find "-" label = None ->
         get_pay_period (Page (pre ++ CStr label :: post) data)
         = Raise ValueError).
Proof.
  intros Hpre. split.
  - intros c Hc. unfold get_pay_period. simpl.
    rewrite (get_pay_period_loop_skip pre _ Hpre).
    destruct c; simpl; try reflexivity. exfalso. now apply (Hc s).
  - intros label Hin Hfind. unfold get_pay_period. simpl.
    rewrite (get_pay_period_loop_skip pre _ Hpre). simpl.
    rewrite Hin. unfold after_hyphen, index. now rewrite Hfind.
Qed.

Lemma get_pay_period_raises_witness :
  get_pay_period (Page [CStr "Unnamed: 0"; CInt 2025; CStr "For the period Jan 1 - Jan 7"] [])
  = Raise TypeError
  /\ get_pay_period (Page [CStr "Unnamed: 0"; CStr "For the period ending Jan 7"] [])
     = Raise ValueError.
Proof.
  assert (Hpre : Forall plain_label [CStr "Unnamed: 0"]).
  { constructor; [|constructor]. eexists. split; reflexivity. }
  destruct (get_pay_period_raises [CStr "Unnamed: 0"] [CStr "For the period Jan 1 - Jan 7"] [] Hpre)
    as [Htype _].
  destruct (get_pay_period_raises [CStr "Unnamed: 0"] [] [] Hpre)
    as [_ Hvalue].
  split.
  - apply (Htype (CInt 2025)). discriminate.
  - apply (Hvalue "For the period ending Jan 7"); reflexivity.
Defined.

Lemma map_snd_combine_seq {A} (xs : list A) (i : nat) :
  map snd (combine (seq i (List.length xs)) xs) = xs.
Proof.
  revert i. induction xs as [|x xs IH]; intros i; simpl; [reflexivity|].
  now rewrite IH.
Qed.

(** What a row gives the inner loop of [get_firm_pay_period]. *)
Lemma firm_period_row_first (r : row) (period_end : option string) :
  firm_period_row period_end r =
  match first_marker_cell r with
  | Some i => e <- after_hyphen i ;; Ok (Some e)
  | None => Ok period_end
  end.
Proof.
  induction r as [|c r IH]; simpl; [reflexivity|].
  destruct c; try exact IH.
  destruct (contains period_marker s); [reflexivity | exact IH].
Qed.

Lemma firm_period_rows_ok (rs : list row) (period_end : option string) :
  (forall r i, In r rs -> first_marker_cell r = Some i -> find "-" i <> None) ->
  exists e, for_each rs period_end firm_period_row = Ok e.
Proof.
  revert period_end. induction rs as [|r rs IH]; intros period_end H; simpl.
  - eauto.
  - rewrite firm_period_row_first.
    destruct (first_marker_cell r) as [i|] eqn:Ei.
    + unfold after_hyphen, index.
      destruct (find "-" i) as [n|] eqn:En.
      * simpl. apply IH. intros r' i' Hr'. apply H. now right.
      * exfalso. apply (H r i (or_introl eq_refl) Ei En).
    + simpl. apply IH. intros r' i' Hr'. apply H. now right.
Qed.

Lemma firm_period_rows_raise (rs : list row) (period_end : option string) :
  (exists r i, In r rs /\ first_marker_cell r = Some i /\ find "-" i = None) ->
  for_each rs period_end firm_period_row = Raise ValueError.
Proof.
  revert period_end. induction rs as [|r rs IH];
    intros period_end (r0 & i0 & Hin & Hfirst & Hfind); [contradiction|].
  simpl. rewrite firm_period_row_first.
  destruct (first_marker_cell r) as [i|] eqn:Ei.
  - unfold after_hyphen, index.
    destruct (find "-" i) as [n|] eqn:En; simpl; [|reflexivity].
    apply IH. destruct Hin as [->|Hin]; [congruence|]. eauto.
  - simpl. apply IH. destruct Hin as [->|Hin]; [congruence|]. eauto.
Qed.

Lemma marker_rows_dec (rs : list row) :
  (forall r i, In r rs -> first_marker_cell r = Some i -> find "-" i <> None)
  \/ (exists r i, In r rs /\ first_marker_cell r = Some i /\ find "-" i = None).
Proof.
  induction rs as [|r rs [IH|(r0 & i0 & Hin & H)]].
  - left. intros r i [].
  - destruct (first_marker_cell r) as [i|] eqn:Ei.
    + destruct (find "-" i) as [n|] eqn:En.
      * left. intros r' i' [<-|Hr'] Hi'; [|now apply (IH r' i')].
        assert (i' = i) by congruence. subst i'. congruence.
      * right. exists r, i. split; [now left | now split].
    + left. intros r' i' [<-|Hr'] Hi'; [congruence | now apply (IH r' i')].
  - right. exists r0, i0. split; [now right | exact H].
Qed.

(** [get_firm_pay_period], whose result [main] never uses, can still stop
    the run: it raises a ValueError exactly when some row's first text cell
    that holds the marker has no hyphen (every row is scanned, since
    [break] leaves the inner loop only), and returns [None] on every other
    page. *)
Theorem get_firm_pay_period_raises_iff (p : page) :
  (get_firm_pay_period p = Raise ValueError <->
   exists r i, In r (rows p) /\ first_marker_cell r = Some i
               /\ find "-" i = None)
  /\ (get_firm_pay_period p = Ok None <->
      forall r i, In r (rows p) -> first_marker_cell r = Some i ->
                  find "-" i <> None).
Proof.
  unfold get_firm_pay_period, get_firm_pay_period_locals, iterrows, enumerate.
  rewrite map_snd_combine_seq.
  destruct (marker_rows_dec (rows p)) as [Hok|Hbad].
  - destruct (firm_period_rows_ok (rows p) None Hok) as [e He].
    rewrite He. simpl. split; split.
    + discriminate.
    + intros (r & i & Hin & Hfirst & Hfind). exfalso.
      apply (Hok r i Hin Hfirst Hfind).
    + intros _. exact Hok.
    + reflexivity.
  - rewrite (firm_period_rows_raise (rows p) None Hbad). simpl. split; split.
    + intros _. exact Hbad.
    + reflexivity.
    + discriminate.
    + intros Hok. exfalso. destruct Hbad as (r & i & Hin & Hfirst & Hfind).
      apply (Hok r i Hin Hfirst Hfind).
Qed.

(* ================================================================= *)
(** ** Further properties: the firm totals block *)

Lemma period_key_eqb_refl (k : period_key) : period_key_eqb k k = true.
Proof. destruct k; simpl; [apply String.eqb_refl | reflexivity]. Qed.

Lemma period_dict_append_entry (pe : period_key) (v : cell) (l : list cell) :
  period_dict_append pe v (period_entry pe l) = period_entry pe (l ++ [v]).
Proof.
  unfold period_dict_append. destruct l as [|x l]; simpl; [reflexivity|].
  now rewrite period_key_eqb_refl.
Qed.

(** The loop of [get_firm_data] appends the cells of the three rows under
    the one key, or raises an IndexError when a position is beyond a
    row. *)
Lemma copy_firm_cells_spec (pe : period_key) (wr mr yr : row) (C : dict nat) :
  NoDup (keys C) ->
  copy_firm_cells pe wr mr yr C =
  match pick3 wr mr yr (map snd C) with
  | Some (ws, ms, ys) =>
      Ok (period_entry pe ws, period_entry pe ms, period_entry pe ys)
  | None => Raise IndexError
  end.
Proof.
  intros ND. unfold copy_firm_cells.
  rewrite (for_each_keys_lookup C
             (fun (st : firm_blocks) col cidx =>
                w0 <- iloc wr cidx ;;
                m0 <- iloc mr cidx ;;
                y0 <- iloc yr cidx ;;
                let '(firm_week_dict, firm_mtd_dict, firm_ytd_dict) := st in
                Ok (period_dict_append pe w0 firm_week_dict,
                    period_dict_append pe m0 firm_mtd_dict,
                    period_dict_append pe y0 firm_ytd_dict)) ND).
  clear ND.
  change (([], [], []) : firm_blocks)
    with ((period_entry pe [], period_entry pe [], period_entry pe [])
          : firm_blocks).
  assert (H : forall w m y,
             for_each C
               ((period_entry pe w, period_entry pe m, period_entry pe y)
                : firm_blocks)
               (fun (st : firm_blocks) (e : string * nat) =>
                  w0 <- iloc wr (snd e) ;;
                  m0 <- iloc mr (snd e) ;;
                  y0 <- iloc yr (snd e) ;;
                  let '(firm_week_dict, firm_mtd_dict, firm_ytd_dict) := st in
                  Ok (period_dict_append pe w0 firm_week_dict,
                      period_dict_append pe m0 firm_mtd_dict,
                      period_dict_append pe y0 firm_ytd_dict))
             = match pick3 wr mr yr (map snd C) with
               | Some (ws, ms, ys) =>
                   Ok (period_entry pe (w ++ ws), period_entry pe (m ++ ms),
                       period_entry pe (y ++ ys))
               | None => Raise IndexError
               end).
  { induction C as [|[col cidx] C IH]; intros w m y; simpl.
    - now rewrite !app_nil_r.
    - unfold iloc, getitem.
      destruct (nth_error wr cidx) as [w0|]; simpl; [|reflexivity].
      destruct (nth_error mr cidx) as [m0|]; simpl; [|reflexivity].
      destruct (nth_error yr cidx) as [y0|]; simpl; [|reflexivity].
      rewrite !period_dict_append_entry, IH.
      destruct (pick3 wr mr yr (map snd C)) as [[[ws ms] ys]|]; [|reflexivity].
      now rewrite <- !app_assoc. }
  apply (H [] [] []).
Qed.

Section FirmFacts.

Variable to_datetime : option string -> result cell.

(** [get_firm_data], in one step. *)
Lemma get_firm_data_closed (p : page) (pe : option string) (R : nat)
      (C : dict nat) :
  NoDup (keys C) ->
  get_firm_data to_datetime p pe R C =
  match block_of p R C with
  | Some (ws, ms, ys) =>
      t <- to_datetime pe ;;
      Ok (setcol_scalar "period_ending" t
            (Frame None (keys C) (period_entry pe ws)),
          setcol_scalar "period_ending" t
            (Frame None (keys C) (period_entry pe ms)),
          setcol_scalar "period_ending" t
            (Frame None (keys C) (period_entry pe ys)))
  | None => Raise IndexError
  end.
Proof.
  intros ND. unfold get_firm_data, block_of, iloc, getitem.
  destruct (nth_error (rows p) (R + 1)) as [wr|]; [|reflexivity].
  destruct (nth_error (rows p) (R + 2)) as [mr|]; [|reflexivity].
  destruct (nth_error (rows p) (R + 3)) as [yr|]; [|reflexivity].
  cbn [bind]. fold (@getitem cell). fold (@iloc cell).
  rewrite (copy_firm_cells_spec pe wr mr yr C ND).
  destruct (pick3 wr mr yr (map snd C)) as [[[ws ms] ys]|] eqn:Hp;
    [|reflexivity].
  destruct (pick3_length wr mr yr (map snd C) ws ms ys Hp) as (Lw & Lm & Ly).
  rewrite length_map in Lw, Lm, Ly.
  assert (Hfd : forall vals, List.length vals = List.length C ->
                  @from_dict period_key (period_entry pe vals) (keys C)
                  = Ok (@Frame period_key None (keys C)
                               (period_entry pe vals))).
  { intros vals Hl. unfold from_dict, keys.
    destruct vals as [|v vals]; [reflexivity|].
    cbn [period_entry forallb snd andb].
    rewrite length_map, Hl, Nat.eqb_refl. reflexivity. }
  cbn [bind]. rewrite (Hfd ws Lw), (Hfd ms Lm), (Hfd ys Ly). cbn [bind].
  unfold firm_stamp. destruct (to_datetime pe) as [t|]; reflexivity.
Qed.

End FirmFacts.

(** [get_firm_data] builds frames of one row, keyed by the period end it
    was given (the index has no name): the cells of the three rows below
    the totals row, at the positions of the column map, as they stand in
    the page. It raises an IndexError when that block does not lie within
    the page. *)
Theorem get_firm_data_one_row
        (to_datetime : option string -> result cell)
        (p : page) (period_end : option string) (company_row : nat)
        (col_name_idx : dict nat) :
  NoDup (keys col_name_idx) ->
  (forall t,
      block_in_range p company_row col_name_idx ->
      to_datetime period_end = Ok t -> col_name_idx <> [] ->
      exists ws ms ys,
        get_firm_data to_datetime p period_end company_row col_name_idx
        = Ok (one_row_frame t period_end (keys col_name_idx) ws,
              one_row_frame t period_end (keys col_name_idx) ms,
              one_row_frame t period_end (keys col_name_idx) ys)
        /\ forall k col cidx,
            nth_error col_name_idx k = Some (col, cidx) ->
            nth_error ws k = cell_at p (company_row + 1) cidx
            /\ nth_error ms k = cell_at p (company_row + 2) cidx
            /\ nth_error ys k = cell_at p (company_row + 3) cidx)
  /\ (~ block_in_range p company_row col_name_idx ->
      get_firm_data to_datetime p period_end company_row col_name_idx
      = Raise IndexError).
Proof.
  intros ND. split.
  - intros t Hrange Ht Hne.
    destruct (block_of_total p company_row col_name_idx Hrange)
      as [[[ws ms] ys] Hb].
    exists ws, ms, ys. split.
    + rewrite (get_firm_data_closed to_datetime p period_end company_row
                 col_name_idx ND), Hb, Ht. cbn [bind].
      unfold block_of in Hb.
      destruct (nth_error (rows p) (company_row + 1)) as [wr|]; [|discriminate].
      destruct (nth_error (rows p) (company_row + 2)) as [mr|]; [|discriminate].
      destruct (nth_error (rows p) (company_row + 3)) as [yr|]; [|discriminate].
      destruct (pick3_length wr mr yr (map snd col_name_idx) ws ms ys Hb)
        as (Lw & Lm & Ly).
      rewrite length_map in Lw, Lm, Ly.
      destruct col_name_idx as [|c0 C]; [contradiction|].
      destruct ws; [discriminate|]. destruct ms; [discriminate|].
      destruct ys; [discriminate|]. reflexivity.
    + intros k col cidx Hk. unfold block_of in Hb. unfold cell_at.
      destruct (nth_error (rows p) (company_row + 1)) as [wr|]; [|discriminate].
      destruct (nth_error (rows p) (company_row + 2)) as [mr|]; [|discriminate].
      destruct (nth_error (rows p) (company_row + 3)) as [yr|]; [|discriminate].
      assert (Hk' : nth_error (map snd col_name_idx) k = Some cidx)
        by (rewrite nth_error_map, Hk; reflexivity).
      destruct (pick3_nth wr mr yr (map snd col_name_idx) ws ms ys Hb k cidx Hk')
        as ((w & Hw & ->) & (m & Hm & ->) & (y & Hy & ->)).
      now rewrite Hw, Hm, Hy.
  - intros Hout.
    rewrite (get_firm_data_closed to_datetime p period_end company_row
               col_name_idx ND).
    destruct (block_of p company_row col_name_idx) as [b|] eqn:Hb;
      [|reflexivity].
    exfalso. apply Hout.
    apply (block_of_Some_in_range p company_row col_name_idx b Hb).
Qed.

Lemma get_firm_data_one_row_witness :
  get_firm_data sample_to_datetime util_page (Some "Jan 7") 20 util_colmap
  = Ok (one_row_frame (CTime 7) (Some "Jan 7") ["actual_pct"; "direct"]
          [CFloat 75; CFloat 600],
        one_row_frame (CTime 7) (Some "Jan 7") ["actual_pct"; "direct"]
          [CFloat 74; CFloat 2400],
        one_row_frame (CTime 7) (Some "Jan 7") ["actual_pct"; "direct"]
          [CFloat 73; CFloat 21000])
  /\ get_firm_data sample_to_datetime util_page (Some "Jan 7") 21 util_colmap
     = Raise IndexError.
Proof.
  assert (ND : NoDup (keys util_colmap)).
  { repeat (constructor; [simpl; intuition discriminate|]). constructor. }
  destruct (get_firm_data_one_row sample_to_datetime util_page (Some "Jan 7")
              20 util_colmap ND) as [Hin _].
  destruct (get_firm_data_one_row sample_to_datetime util_page (Some "Jan 7")
              21 util_colmap ND) as [_ Hout].
  split.
  - destruct (Hin (CTime 7)) as (ws & ms & ys & Hget & _).
    + split; [simpl; lia|].
      intros col cidx [[= <- <-]|[[= <- <-]|[]]]; repeat split; discriminate.
    + reflexivity.
    + discriminate.
    + reflexivity.
  - apply Hout. intros [Hlen _]. simpl in Hlen. lia.
Defined.

(* ================================================================= *)
(** ** Further properties: one file, one period *)

Lemma length_set_nth {A} (i : nat) (v : A) (xs : list A) :
  List.length (set_nth i v xs) = List.length xs.
Proof.
  revert i. induction xs as [|x xs IH]; intros i; destruct i; simpl;
    try reflexivity. now rewrite IH.
Qed.

Lemma from_dict_rectangular {K} (d : list (K * list cell)) (cols : list string)
      (df : frame K) :
  from_dict d cols = Ok df -> df = Frame None cols d /\ rectangular df.
Proof.
  unfold from_dict. destruct (forallb _ d) eqn:E; [|discriminate].
  intros [= <-]. split; [reflexivity|].
  unfold rectangular. cbn [frame_rows frame_columns].
  apply Forall_forall. intros r Hr.
  rewrite forallb_forall in E. apply Nat.eqb_eq. now apply E.
Qed.

Lemma assign_rows_rectangular {K} (n : option string) (cols : list string)
      (i : nat) (rs : list (K * list cell)) (vs : list cell) :
  rectangular (Frame n cols rs) ->
  rectangular (Frame n cols (assign_rows i rs vs)).
Proof.
  unfold rectangular. cbn [frame_rows frame_columns].
  revert vs. induction rs as [|[k vals] rs IH]; intros vs H; simpl;
    [constructor|].
  destruct vs as [|v vs]; [exact H|].
  inversion H as [|x l Hx Hl]; subst. constructor.
  - simpl in *. now rewrite length_set_nth.
  - now apply IH.
Qed.

Lemma position_app_fresh (name : string) (cols : list string) :
  position name cols = None ->
  position name (cols ++ [name]) = Some (List.length cols).
Proof.
  induction cols as [|c cs IH]; cbn [position app List.length]; intros H.
  - now rewrite String.eqb_refl.
  - destruct (String.eqb name c); [discriminate|].
    destruct (position name cs); [discriminate|].
    now rewrite (IH eq_refl).
Qed.

(** After [df['period_ending'] = t] the period column holds [t] in every
    row. *)
Lemma setcol_period_column {K} (t : cell) (df : frame K) :
  rectangular df -> period_column t (setcol_scalar "period_ending" t df).
Proof.
  unfold rectangular, period_column, setcol_scalar. intros H.
  destruct (position "period_ending" (frame_columns df)) as [i|] eqn:Hp;
    cbn [frame_columns frame_rows].
  - exists i. split; [exact Hp|].
    apply Forall_map. cbn [snd]. eapply Forall_impl; [|exact H].
    intros r Hr. cbv beta in Hr. rewrite nth_error_set_nth, Nat.eqb_refl.
    apply position_nth in Hp.
    assert (Hlt : i < List.length (frame_columns df))
      by (apply nth_error_Some; congruence).
    rewrite <- Hr in Hlt. apply nth_error_Some in Hlt.
    destruct (nth_error (snd r) i); [reflexivity | contradiction].
  - exists (List.length (frame_columns df)). split.
    + now apply position_app_fresh.
    + apply Forall_map. cbn [snd]. eapply Forall_impl; [|exact H].
      intros r Hr. cbv beta in Hr.
      rewrite nth_error_app2, <- Hr, Nat.sub_diag; [reflexivity | lia].
Qed.

Lemma set_index_name_period_column {K} (name : string) (t : cell)
      (df : frame K) :
  period_column t df -> period_column t (set_index_name name df).
Proof. intros H. exact H. Qed.

Lemma position_map_period (f : string -> string) (cols : list string) :
  (forall c, String.eqb "period_ending" (f c) = String.eqb "period_ending" c) ->
  position "period_ending" (map f cols) = position "period_ending" cols.
Proof.
  intros Hf. induction cols as [|c cols IH]; cbn [position map];
    [reflexivity|].
  now rewrite Hf, IH.
Qed.

Lemma rename_keeps_period (mapping : dict string) :
  dict_get "period_ending" mapping = None ->
  Forall (fun e => snd e <> "period_ending") mapping ->
  forall c,
    String.eqb "period_ending"
               (match dict_get c mapping with Some c' => c' | None => c end)
    = String.eqb "period_ending" c.
Proof.
  intros Hkey Hval c.
  destruct (String.eqb_spec "period_ending" c) as [<-|Hne].
  - rewrite Hkey. apply String.eqb_refl.
  - destruct (dict_get c mapping) as [c'|] eqn:Hg.
    + apply dict_get_In in Hg. rewrite Forall_forall in Hval.
      specialize (Hval (c, c') Hg). simpl in Hval.
      apply String.eqb_neq. congruence.
    + now apply String.eqb_neq.
Qed.

Lemma rename_period_column {K} (mapping : dict string) (t : cell)
      (df : frame K) :
  dict_get "period_ending" mapping = None ->
  Forall (fun e => snd e <> "period_ending") mapping ->
  period_column t df -> period_column t (rename mapping df).
Proof.
  intros Hkey Hval (i & Hp & Hall). exists i. split; [|exact Hall].
  unfold rename. cbn [frame_columns].
  rewrite position_map_period; [exact Hp|].
  now apply rename_keeps_period.
Qed.

Lemma dict_get_combine_position (name : string) (cols : list string)
      (vals : list cell) (i : nat) (v : cell) :
  position name cols = Some i -> nth_error vals i = Some v ->
  dict_get name (combine cols vals) = Some v.
Proof.
  revert vals i. induction cols as [|c cols IH]; intros vals i Hp Hv;
    [discriminate|].
  simpl in Hp. destruct vals as [|x vals]; [destruct i; discriminate|].
  simpl. destruct (String.eqb name c).
  - injection Hp as <-. exact Hv.
  - destruct (position name cols) as [j|] eqn:Hj; [|discriminate].
    injection Hp as <-. apply (IH vals j eq_refl Hv).
Qed.

(** The rows a frame with the period column sends to its table carry the
    period. *)
Lemma sql_rows_stamped {K} (t : cell) (df : frame K) :
  period_column t df -> stamped t (sql_rows df).
Proof.
  intros (i & Hp & Hall). unfold stamped, sql_rows.
  apply Forall_map. cbn [snd]. eapply Forall_impl; [|exact Hall].
  intros r Hr. apply (dict_get_combine_position _ _ _ i t Hp Hr).
Qed.

Lemma entity_rows_stamped (t : cell) (table : list (sqlrow string)) :
  stamped t table -> stamped t (map entity_row table).
Proof.
  unfold stamped. intros H. apply Forall_map. exact H.
Qed.

Lemma rename_mapping_keeps_period :
  dict_get "period_ending" rename_mapping = None
  /\ Forall (fun e => snd e <> "period_ending") rename_mapping.
Proof.
  split; [reflexivity|]. repeat constructor; discriminate.
Qed.

Lemma rename_section_keeps_period :
  dict_get "period_ending" rename_section = None
  /\ Forall (fun e => snd e <> "period_ending") rename_section.
Proof.
  split; [reflexivity|]. repeat constructor; discriminate.
Qed.

Section PipelineFacts.

Variable to_datetime : option string -> result cell.

Lemma stamp_period_column (name : string) (pe : option string)
      (df df' : frame string) :
  rectangular df -> stamp to_datetime name pe df = Ok df' ->
  exists t, to_datetime pe = Ok t /\ period_column t df'.
Proof.
  unfold stamp. intros Hr H.
  destruct (to_datetime pe) as [t|]; [|discriminate].
  injection H as <-. exists t. split; [reflexivity|].
  apply set_index_name_period_column. now apply setcol_period_column.
Qed.

Lemma firm_stamp_period_column (pe : option string)
      (df df' : frame period_key) :
  rectangular df -> firm_stamp to_datetime pe df = Ok df' ->
  exists t, to_datetime pe = Ok t /\ period_column t df'.
Proof.
  unfold firm_stamp. intros Hr H.
  destruct (to_datetime pe) as [t|]; [|discriminate].
  injection H as <-. exists t. split; [reflexivity|].
  now apply setcol_period_column.
Qed.

(** The three frames of [get_employee_data] carry the parsed period end
    in every row. *)
Lemma get_employee_data_stamped (p : page) (pe : option string)
      (L C : dict nat) (week mtd ytd : frame string) :
  get_employee_data to_datetime p pe L C = Ok (week, mtd, ytd) ->
  exists t, to_datetime pe = Ok t
            /\ period_column t week /\ period_column t mtd
            /\ period_column t ytd.
Proof.
  unfold get_employee_data. intros H.
  destruct (read_blocks p L C) as [[[wk mt] yt]|]; [|discriminate].
  cbn [bind] in H.
  destruct (from_dict wk (keys C)) as [wdf|] eqn:Ew; [|discriminate].
  destruct (from_dict mt (keys C)) as [mdf|] eqn:Em; [|discriminate].
  destruct (from_dict yt (keys C)) as [ydf|] eqn:Ey; [|discriminate].
  cbn [bind] in H.
  destruct (from_dict_rectangular wk (keys C) wdf Ew) as [-> Rw].
  destruct (from_dict_rectangular mt (keys C) mdf Em) as [-> Rm].
  destruct (from_dict_rectangular yt (keys C) ydf Ey) as [-> Ry].
  destruct (getcol "actual_pct" (Frame None (keys C) wk)) as [actual|];
    [|discriminate].
  cbn [bind] in H.
  destruct (series_truediv100 actual) as [scaled|]; [|discriminate].
  cbn [bind] in H. unfold loc_setcol in H. cbn [frame_columns frame_rows index_name] in H.
  destruct (position "actual_pct" (keys C)) as [pos|]; [|discriminate].
  cbn [bind] in H.
  destruct (stamp to_datetime "employee_id" pe
              (Frame None (keys C) (assign_rows pos wk scaled)))
    as [w'|] eqn:Sw; [|discriminate].
  destruct (stamp to_datetime "employee_id" pe (Frame None (keys C) mt))
    as [m'|] eqn:Sm; [|discriminate].
  destruct (stamp to_datetime "employee_id" pe (Frame None (keys C) yt))
    as [y'|] eqn:Sy; [|discriminate].
  cbn [bind] in H. injection H as <- <- <-.
  destruct (stamp_period_column _ _ _ _
              (assign_rows_rectangular None (keys C) pos wk scaled Rw) Sw)
    as (t & Ht & Pw).
  destruct (stamp_period_column _ _ _ _ Rm Sm) as (t1 & Ht1 & Pm).
  destruct (stamp_period_column _ _ _ _ Ry Sy) as (t2 & Ht2 & Py).
  assert (t1 = t) by congruence. assert (t2 = t) by congruence. subst t1 t2.
  exists t. auto.
Qed.

Lemma get_section_data_stamped (p : page) (pe : option string)
      (L C : dict nat) (week mtd ytd : frame string) :
  get_section_data to_datetime p pe L C = Ok (week, mtd, ytd) ->
  exists t, to_datetime pe = Ok t
            /\ period_column t week /\ period_column t mtd
            /\ period_column t ytd.
Proof.
  unfold get_section_data. intros H.
  destruct (read_blocks p L C) as [[[wk mt] yt]|]; [|discriminate].
  cbn [bind] in H.
  destruct (from_dict wk (keys C)) as [wdf|] eqn:Ew; [|discriminate].
  destruct (from_dict mt (keys C)) as [mdf|] eqn:Em; [|discriminate].
  destruct (from_dict yt (keys C)) as [ydf|] eqn:Ey; [|discriminate].
  cbn [bind] in H.
  destruct (from_dict_rectangular wk (keys C) wdf Ew) as [-> Rw].
  destruct (from_dict_rectangular mt (keys C) mdf Em) as [-> Rm].
  destruct (from_dict_rectangular yt (keys C) ydf Ey) as [-> Ry].
  destruct (stamp to_datetime "section" pe (Frame None (keys C) wk))
    as [w'|] eqn:Sw; [|discriminate].
  destruct (stamp to_datetime "section" pe (Frame None (keys C) mt))
    as [m'|] eqn:Sm; [|discriminate].
  destruct (stamp to_datetime "section" pe (Frame None (keys C) yt))
    as [y'|] eqn:Sy; [|discriminate].
  cbn [bind] in H. injection H as <- <- <-.
  destruct (stamp_period_column _ _ _ _ Rw Sw) as (t & Ht & Pw).
  destruct (stamp_period_column _ _ _ _ Rm Sm) as (t1 & Ht1 & Pm).
  destruct (stamp_period_column _ _ _ _ Ry Sy) as (t2 & Ht2 & Py).
  assert (t1 = t) by congruence. assert (t2 = t) by congruence. subst t1 t2.
  exists t. auto.
Qed.

Lemma get_firm_data_stamped (p : page) (pe : option string) (R : nat)
      (C : dict nat) (week mtd ytd : frame period_key) :
  get_firm_data to_datetime p pe R C = Ok (week, mtd, ytd) ->
  exists t, to_datetime pe = Ok t
            /\ period_column t week /\ period_column t mtd
            /\ period_column t ytd.
Proof.
  unfold get_firm_data. intros H.
  destruct (iloc (rows p) (R + 1)) as [wr|]; [|discriminate].
  destruct (iloc (rows p) (R + 2)) as [mr|]; [|discriminate].
  destruct (iloc (rows p) (R + 3)) as [yr|]; [|discriminate].
  cbn [bind] in H.
  destruct (copy_firm_cells pe wr mr yr C) as [[[wk mt] yt]|]; [|discriminate].
  cbn [bind] in H.
  destruct (from_dict wk (keys C)) as [wdf|] eqn:Ew; [|discriminate].
  destruct (from_dict mt (keys C)) as [mdf|] eqn:Em; [|discriminate].
  destruct (from_dict yt (keys C)) as [ydf|] eqn:Ey; [|discriminate].
  cbn [bind] in H.
  destruct (from_dict_rectangular wk (keys C) wdf Ew) as [-> Rw].
  destruct (from_dict_rectangular mt (keys C) mdf Em) as [-> Rm].
  destruct (from_dict_rectangular yt (keys C) ydf Ey) as [-> Ry].
  destruct (firm_stamp to_datetime pe (Frame None (keys C) wk))
    as [w'|] eqn:Sw; [|discriminate].
  destruct (firm_stamp to_datetime pe (Frame None (keys C) mt))
    as [m'|] eqn:Sm; [|discriminate].
  destruct (firm_stamp to_datetime pe (Frame None (keys C) yt))
    as [y'|] eqn:Sy; [|discriminate].
  cbn [bind] in H. injection H as <- <- <-.
  destruct (firm_stamp_period_column _ _ _ Rw Sw) as (t & Ht & Pw).
  destruct (firm_stamp_period_column _ _ _ Rm Sm) as (t1 & Ht1 & Pm).
  destruct (firm_stamp_period_column _ _ _ Ry Sy) as (t2 & Ht2 & Py).
  assert (t1 = t) by congruence. assert (t2 = t) by congruence. subst t1 t2.
  exists t. auto.
Qed.

(** The steps of the loop body of [main], read off a result. *)
Lemma process_pages_inv (db db' : database) (employee_page util_page : page) :
  process_pages to_datetime db employee_page util_page = Ok db' ->
  exists emp_col_name_idx util_col_name_idx period_end firm_row
         employee_rows employee_df section_rows section_df
         ew em ey sw sm sy fw fm fy,
    get_columns employee_page = Ok emp_col_name_idx
    /\ get_firm_columns util_page = Ok util_col_name_idx
    /\ get_pay_period employee_page = Ok period_end
    /\ get_firm_pay_period util_page = Ok None
    /\ get_firm_totals util_page = Ok firm_row
    /\ get_employees employee_page = Ok (employee_rows, employee_df)
    /\ get_sections util_page = Ok (section_rows, section_df)
    /\ get_employee_data to_datetime employee_page period_end
                         employee_rows emp_col_name_idx = Ok (ew, em, ey)
    /\ get_section_data to_datetime util_page period_end
                        section_rows util_col_name_idx = Ok (sw, sm, sy)
    /\ get_firm_data to_datetime util_page period_end firm_row
                     util_col_name_idx = Ok (fw, fm, fy)
    /\ db' = write_data db (Batch employee_df ew em ey sw sm sy fw fm fy).
Proof.
  unfold process_pages. intros H.
  destruct (get_columns employee_page) as [ec|] eqn:E1; [|discriminate].
  destruct (get_firm_columns util_page) as [uc|] eqn:E2; [|discriminate].
  destruct (get_pay_period employee_page) as [pe|] eqn:E3; [|discriminate].
  cbn [bind] in H.
  destruct (get_firm_pay_period util_page) as [fpe|] eqn:E4; [|discriminate].
  assert (fpe = None).
  { unfold get_firm_pay_period in E4.
    destruct (get_firm_pay_period_locals util_page); [|discriminate].
    simpl in E4. congruence. }
  subst fpe.
  destruct (get_firm_totals util_page) as [fr|] eqn:E5; [|discriminate].
  cbn [bind] in H.
  destruct (get_employees employee_page) as [[er ed]|] eqn:E6; [|discriminate].
  destruct (get_sections util_page) as [[sr sd]|] eqn:E7; [|discriminate].
  cbn [bind] in H.
  destruct (get_employee_data to_datetime employee_page pe er ec)
    as [[[ew em] ey]|] eqn:E8; [|discriminate].
  destruct (get_section_data to_datetime util_page pe sr uc)
    as [[[sw sm] sy]|] eqn:E9; [|discriminate].
  destruct (get_firm_data to_datetime util_page pe fr uc)
    as [[[fw fm] fy]|] eqn:E10; [|discriminate].
  cbn [bind] in H. injection H as <-.
  exists ec, uc, pe, fr, er, ed, sr, sd, ew, em, ey, sw, sm, sy, fw, fm, fy.
  repeat split; assumption || reflexivity.
Qed.

End PipelineFacts.

(** One file feeds one period: when the loop body of [main] gets as far as
    [write_data], each of the nine period tables keeps its rows and gains
    rows that all carry, in [period_ending], the date parsed from the
    period end of the roster page's column labels. The section and the
    firm rows get that date as well; the period text of the firm page is
    not used. *)
Theorem process_pages_one_period
        (to_datetime : option string -> result cell)
        (db db' : database) (employee_page util_page : page) :
  process_pages to_datetime db employee_page util_page = Ok db' ->
  exists period_end t,
    get_pay_period employee_page = Ok period_end
    /\ to_datetime period_end = Ok t
    /\ forall tbl : fact_table,
        exists new,
          fact_rows tbl db' = fact_rows tbl db ++ new /\ stamped t new.
Proof.
  intros H.
  destruct (process_pages_inv to_datetime db db' employee_page util_page H)
    as (ec & uc & pe & fr & er & ed & sr & sd
        & ew & em & ey & sw & sm & sy & fw & fm & fy
        & _ & _ & Hpe & _ & _ & _ & _ & He & Hs & Hf & ->).
  destruct (get_employee_data_stamped to_datetime _ _ _ _ _ _ _ He)
    as (t & Ht & Pew & Pem & Pey).
  destruct (get_section_data_stamped to_datetime _ _ _ _ _ _ _ Hs)
    as (t1 & Ht1 & Psw & Psm & Psy).
  destruct (get_firm_data_stamped to_datetime _ _ _ _ _ _ _ Hf)
    as (t2 & Ht2 & Pfw & Pfm & Pfy).
  assert (t1 = t) by congruence. assert (t2 = t) by congruence. subst t1 t2.
  destruct rename_mapping_keeps_period as [Mk Mv].
  destruct rename_section_keeps_period as [Sk Sv].
  exists pe, t. split; [exact Hpe|]. split; [exact Ht|].
  intros tbl. exists (batch_rows tbl (Batch ed ew em ey sw sm sy fw fm fy)).
  split; [apply fact_rows_write_data|].
  destruct tbl; cbn [batch_rows emp_week_df emp_mtd_df emp_ytd_df
                     sec_week_df sec_mtd_df sec_ytd_df
                     firm_week_df firm_mtd_df firm_ytd_df];
    try apply entity_rows_stamped; apply sql_rows_stamped;
    apply rename_period_column; assumption.
Qed.

Lemma process_pages_one_period_witness :
  exists period_end t,
    get_pay_period roster_page = Ok period_end
    /\ sample_to_datetime period_end = Ok t
    /\ forall tbl : fact_table,
        exists new,
          fact_rows tbl first_run = fact_rows tbl empty_db ++ new
          /\ stamped t new.
Proof.
  apply (process_pages_one_period sample_to_datetime empty_db first_run
           roster_page util_page).
  vm_compute. reflexivity.
Defined.

(* ================================================================= *)
(** ** Further properties: [main] *)

Lemma extends_refl {A} (l : list A) : extends l l.
Proof. exists []. now rewrite app_nil_r. Qed.

Lemma extends_trans {A} (a b c : list A) :
  extends a b -> extends b c -> extends a c.
Proof.
  intros [x ->] [y ->]. exists (x ++ y). now rewrite app_assoc.
Qed.

Lemma employee_write_data_extends (db : database) (b : batch) :
  extends (employee db) (employee (write_data db b)).
Proof.
  unfold write_data. cbn [employee].
  destruct (negb (empty (new_employees (existing_ids db) (employee_df b)))).
  - unfold to_sql_append. eexists. reflexivity.
  - apply extends_refl.
Qed.

Section MainFacts.

Variable to_datetime : option string -> result cell.
Variable read_excel : string -> string -> result page.

Lemma process_sheet_extends (db db' : database) (sheet : string) :
  process_sheet to_datetime read_excel db sheet = Ok db' ->
  extends (employee db) (employee db')
  /\ forall tbl, extends (fact_rows tbl db) (fact_rows tbl db').
Proof.
  unfold process_sheet. intros H.
  destruct (read_excel sheet section_page) as [ep|]; [|discriminate].
  destruct (read_excel sheet firm_page) as [up|]; [|discriminate].
  cbn [bind] in H.
  destruct (process_pages_inv to_datetime db db' ep up H)
    as (ec & uc & pe & fr & er & ed & sr & sd
        & ew & em & ey & sw & sm & sy & fw & fm & fy
        & _ & _ & _ & _ & _ & _ & _ & _ & _ & _ & ->).
  split.
  - apply employee_write_data_extends.
  - intros tbl. eexists. apply fact_rows_write_data.
Qed.

Lemma main_step_extends (w : world) (sheet : string) :
  extends (employee (db_of w))
          (employee (db_of (fst (main_step to_datetime read_excel w sheet))))
  /\ forall tbl,
      extends (fact_rows tbl (db_of w))
              (fact_rows tbl
                 (db_of (fst (main_step to_datetime read_excel w sheet)))).
Proof.
  unfold main_step.
  destruct (process_sheet to_datetime read_excel (db_of w) sheet)
    as [db'|e] eqn:Hp.
  - destruct (process_sheet_extends (db_of w) db' sheet Hp) as [He Hf].
    destruct (clean_up (files_of w) sheet); cbn [fst db_of]; auto.
  - cbn [fst]. split; [apply extends_refl | intros tbl; apply extends_refl].
Qed.

Lemma main_loop_extends (sheets : list string) (w : world) :
  extends (employee (db_of w))
          (employee (db_of (fst (main_loop to_datetime read_excel sheets w))))
  /\ forall tbl,
      extends (fact_rows tbl (db_of w))
              (fact_rows tbl
                 (db_of (fst (main_loop to_datetime read_excel sheets w)))).
Proof.
  revert w. induction sheets as [|sheet rest IH]; intros w; cbn [main_loop].
  - cbn [fst]. split; [apply extends_refl | intros tbl; apply extends_refl].
  - pose proof (main_step_extends w sheet) as [He Hf].
    destruct (main_step to_datetime read_excel w sheet) as [w' [a|]];
      cbn [fst] in *.
    + auto.
    + destruct (IH w') as [He' Hf']. split.
      * eapply extends_trans; eassumption.
      * intros tbl. eapply extends_trans; [apply Hf | apply Hf'].
Qed.

Lemma filter_head_NoDup (sheet : string) (rest : list string) :
  NoDup (sheet :: rest) ->
  filter (fun f => negb (String.eqb sheet f)) (sheet :: rest) = rest.
Proof.
  intros ND. inversion ND as [|x l Hnotin _]; subst.
  cbn [filter]. rewrite String.eqb_refl. cbn [negb].
  clear ND. induction rest as [|r rest IH]; [reflexivity|].
  cbn [filter].
  destruct (String.eqb_spec sheet r) as [->|Hne].
  - exfalso. apply Hnotin. now left.
  - cbn [negb]. rewrite IH; [reflexivity|].
    intros Hin. apply Hnotin. now right.
Qed.

(** [clean_up] on the first file of a listing without repetition takes
    the file out of [raw] and leaves it in [processed], next to what
    [processed] held. *)
Lemma clean_up_head (sheet : string) (rest processed : list string) :
  NoDup (sheet :: rest) ->
  exists processed',
    clean_up (Folders (sheet :: rest) processed) sheet
    = Some (Folders rest processed')
    /\ In sheet processed'
    /\ forall f, In f processed -> In f processed'.
Proof.
  intros ND. unfold clean_up. cbn [raw_dir processed_dir].
  replace (existsb (String.eqb sheet) (sheet :: rest)) with true
    by (cbn [existsb]; now rewrite String.eqb_refl).
  rewrite (filter_head_NoDup sheet rest ND).
  destruct (existsb (String.eqb sheet) processed) eqn:E.
  - exists processed. split; [reflexivity|]. split; [|auto].
    now apply existsb_eqb_In.
  - exists (processed ++ [sheet]). split; [reflexivity|]. split.
    + apply in_or_app. right. now left.
    + intros f Hf. apply in_or_app. now left.
Qed.

Lemma main_loop_files (sheets : list string) (w : world) :
  raw_dir (files_of w) = sheets -> NoDup sheets ->
  exists done rest,
    sheets = done ++ rest
    /\ raw_dir (files_of (fst (main_loop to_datetime read_excel sheets w)))
       = rest
    /\ (forall f, In f done \/ In f (processed_dir (files_of w)) ->
          In f (processed_dir
                  (files_of (fst (main_loop to_datetime read_excel sheets w)))))
    /\ ingested (process_sheet to_datetime read_excel) done (db_of w)
                (db_of (fst (main_loop to_datetime read_excel sheets w)))
    /\ match snd (main_loop to_datetime read_excel sheets w) with
       | None => rest = []
       | Some (Raised e) =>
           exists sheet rest',
             rest = sheet :: rest'
             /\ process_sheet to_datetime read_excel
                  (db_of (fst (main_loop to_datetime read_excel sheets w)))
                  sheet = Raise e
       | Some FileNotFound => False
       end.
Proof.
  revert w. induction sheets as [|sheet rest IH]; intros w Hraw ND.
  - exists [], []. cbn [main_loop fst snd ingested].
    split; [reflexivity|]. split; [exact Hraw|]. split; [|auto].
    intros f [[]|Hf]. exact Hf.
  - cbn [main_loop]. unfold main_step.
    destruct (process_sheet to_datetime read_excel (db_of w) sheet)
      as [db1|e] eqn:Hp.
    + destruct w as [db [raw processed]]. cbn [files_of raw_dir db_of] in *.
      subst raw.
      destruct (clean_up_head sheet rest processed ND)
        as (processed' & -> & Hin & Hkeep).
      assert (ND' : NoDup rest) by (inversion ND; assumption).
      destruct (IH (World db1 (Folders rest processed')) eq_refl ND')
        as (done & rest' & Hsplit & Hrest & Hproc & Hing & Hend).
      exists (sheet :: done), rest'.
      split; [cbn [app]; now rewrite Hsplit|].
      split; [exact Hrest|]. split; [|split; [|exact Hend]].
      * intros f [[<-|Hf]|Hf]; apply Hproc; cbn [files_of processed_dir]; auto.
      * cbn [ingested]. exists db1. split; [exact Hp | exact Hing].
    + exists [], (sheet :: rest). cbn [fst snd ingested app].
      split; [reflexivity|]. split; [exact Hraw|]. split; [|split; [reflexivity|]].
      * intros f [[]|Hf]. exact Hf.
      * exists sheet, rest. split; [reflexivity | exact Hp].
Qed.

End MainFacts.

(** [main] never drops or changes a stored row: wherever it stops, and
    whatever the files hold, the employee table and each of the nine
    period tables start afterwards with the rows they held before, in
    place. *)
Theorem main_only_appends
        (to_datetime : option string -> result cell)
        (read_excel : string -> string -> result page) (w : world) :
  extends (employee (db_of w))
          (employee (db_of (fst (main to_datetime read_excel w))))
  /\ forall tbl : fact_table,
      extends (fact_rows tbl (db_of w))
              (fact_rows tbl (db_of (fst (main to_datetime read_excel w)))).
Proof.
  unfold main. apply main_loop_extends.
Qed.

(** [main] works through the listing of [raw] in order and stops at the
    first file whose reading or extraction raises. The files before it are
    in [processed] and no longer in [raw], and the database holds their
    data; that file and the files after it are still in [raw], and nothing
    of them was written. A run that raises nothing leaves [raw] empty. *)
Theorem main_stops_at_first_failure
        (to_datetime : option string -> result cell)
        (read_excel : string -> string -> result page) (w : world) :
  NoDup (raw_dir (files_of w)) ->
  exists done rest,
    raw_dir (files_of w) = done ++ rest
    /\ raw_dir (files_of (fst (main to_datetime read_excel w))) = rest
    /\ (forall f, In f done \/ In f (processed_dir (files_of w)) ->
          In f (processed_dir (files_of (fst (main to_datetime read_excel w)))))
    /\ ingested (process_sheet to_datetime read_excel) done (db_of w)
                (db_of (fst (main to_datetime read_excel w)))
    /\ match snd (main to_datetime read_excel w) with
       | None => rest = []
       | Some (Raised e) =>
           exists sheet rest',
             rest = sheet :: rest'
             /\ process_sheet to_datetime read_excel
                  (db_of (fst (main to_datetime read_excel w))) sheet
                = Raise e
       | Some FileNotFound => False
       end.
Proof.
  intros ND. unfold main.
  apply (main_loop_files to_datetime read_excel (raw_dir (files_of w)) w
           eq_refl ND).
Qed.

Lemma main_stops_at_first_failure_witness :
  (exists done rest,
      raw_dir (files_of sample_world) = done ++ rest
      /\ raw_dir (files_of (fst (main sample_to_datetime sample_read_excel
                                      sample_world))) = rest
      /\ (forall f, In f done \/ In f (processed_dir (files_of sample_world)) ->
            In f (processed_dir
                    (files_of (fst (main sample_to_datetime sample_read_excel
                                         sample_world)))))
      /\ ingested (process_sheet sample_to_datetime sample_read_excel) done
                  (db_of sample_world)
                  (db_of (fst (main sample_to_datetime sample_read_excel
                                    sample_world)))
      /\ match snd (main sample_to_datetime sample_read_excel sample_world) with
         | None => rest = []
         | Some (Raised e) =>
             exists sheet rest',
               rest = sheet :: rest'
               /\ process_sheet sample_to_datetime sample_read_excel
                    (db_of (fst (main sample_to_datetime sample_read_excel
                                      sample_world))) sheet
                  = Raise e
         | Some FileNotFound => False
         end)
  /\ main sample_to_datetime sample_read_excel sample_world
     = (World first_run (Folders ["week2.xlsx"; "notes.txt"] ["week1.xlsx"]),
        Some (Raised IndexError)).
Proof.
  split.
  - apply (main_stops_at_first_failure sample_to_datetime sample_read_excel
             sample_world).
    repeat (constructor; [simpl; intuition discriminate|]). constructor.
  - vm_compute. reflexivity.
Defined.

(* ================================================================= *)
(** ** Further properties: the database file of each program *)

Lemma normpath_onto_app (done a b : path) :
  normpath_onto done (a ++ b) = normpath_onto (normpath_onto done a) b.
Proof.
  revert done. induction a as [|c a IH]; intros done; [reflexivity|].
  cbn [app normpath_onto].
  destruct (String.eqb c ".."); [apply IH|].
  destruct (String.eqb c "." || String.eqb c EmptyString); apply IH.
Qed.

Lemma normpath_onto_plain (done todo : path) :
  forallb plain_component todo = true ->
  normpath_onto done todo = done ++ todo.
Proof.
  revert done. induction todo as [|c todo IH]; intros done H.
  - now rewrite app_nil_r.
  - cbn [forallb] in H. apply andb_prop in H. destruct H as [Hc H].
    unfold plain_component in Hc. apply Bool.negb_true_iff in Hc.
    apply Bool.orb_false_iff in Hc. destruct Hc as [Hc Hc3].
    apply Bool.orb_false_iff in Hc. destruct Hc as [Hc1 Hc2].
    cbn [normpath_onto]. rewrite Hc1, Hc2, Hc3. cbn [orb].
    rewrite (IH (done ++ [c]) H), <- app_assoc. reflexivity.
Qed.

Lemma abspath_plain (p : path) :
  forallb plain_component p = true -> abspath p = p.
Proof. intros H. unfold abspath. now rewrite normpath_onto_plain. Qed.

(** [abspath(join(dirname(abspath(file)), "..", s))]: the folder [s] next
    to the folder that holds [file]. *)
Lemma sibling_folder (root : path) (d f s : string) :
  forallb plain_component root = true ->
  plain_component d = true -> plain_component f = true ->
  plain_component s = true ->
  abspath (join (dirname (abspath (root ++ [d; f]))) [".."; s]) = root ++ [s].
Proof.
  intros Hroot Hd Hf Hs.
  assert (Hrd : forallb plain_component (root ++ [d]) = true).
  { rewrite forallb_app, Hroot. cbn [forallb]. now rewrite Hd. }
  assert (Hrdf : forallb plain_component (root ++ [d; f]) = true).
  { rewrite forallb_app, Hroot. cbn [forallb]. now rewrite Hd, Hf. }
  rewrite (abspath_plain (root ++ [d; f]) Hrdf).
  unfold dirname, join, abspath.
  change (root ++ [d; f]) with (root ++ [d] ++ [f]).
  rewrite app_assoc, removelast_last, normpath_onto_app.
  rewrite (normpath_onto_plain [] (root ++ [d]) Hrd). cbn [app].
  cbn [normpath_onto]. replace (String.eqb ".." "..") with true by reflexivity.
  rewrite removelast_last.
  unfold plain_component in Hs.
  destruct (String.eqb s ".."); [simpl in Hs; discriminate|].
  cbn [orb] in Hs. apply Bool.negb_true_iff in Hs. now rewrite Hs.
Qed.

(** The dashboard runs the pipeline and then opens a database, but not the
    file the pipeline wrote: with the dashboard in a folder below [root],
    [write_data] (called by [main] with [src_path]) writes
    [root/src/data/employee_tracker.db], and the dashboard connects to
    [root/data/employee_tracker.db]. *)
Theorem dashboard_reads_another_database (root : path) (d f : string) :
  forallb plain_component root = true ->
  plain_component d = true -> plain_component f = true ->
  manage_database (imported_manage_file (root ++ [d; f]))
  = root ++ ["src"; "data"; "employee_tracker.db"]
  /\ dashboard_database (root ++ [d; f])
     = root ++ ["data"; "employee_tracker.db"]
  /\ manage_database (imported_manage_file (root ++ [d; f]))
     <> dashboard_database (root ++ [d; f]).
Proof.
  intros Hroot Hd Hf.
  assert (Hm : manage_database (imported_manage_file (root ++ [d; f]))
               = root ++ ["src"; "data"; "employee_tracker.db"]).
  { unfold manage_database, manage_src_path, imported_manage_file,
      dashboard_script_path.
    rewrite (sibling_folder root d f "scripts" Hroot Hd Hf eq_refl).
    replace (join (root ++ ["scripts"]) ["spreadsheet_manage.py"])
      with (root ++ ["scripts"; "spreadsheet_manage.py"])
      by (unfold join; now rewrite <- app_assoc).
    rewrite (sibling_folder root "scripts" "spreadsheet_manage.py" "src"
               Hroot eq_refl eq_refl eq_refl).
    unfold join. now rewrite <- app_assoc. }
  assert (Hdash : dashboard_database (root ++ [d; f])
                  = root ++ ["data"; "employee_tracker.db"]).
  { unfold dashboard_database, dashboard_data_path.
    rewrite (sibling_folder root d f "data" Hroot Hd Hf eq_refl).
    unfold join. now rewrite <- app_assoc. }
  split; [exact Hm|]. split; [exact Hdash|].
  rewrite Hm, Hdash. intros H. apply app_inv_head in H. discriminate.
Qed.

Lemma dashboard_reads_another_database_witness :
  manage_database
    (imported_manage_file ["home"; "tracker"; "src"; "dashboard.py"])
  = ["home"; "tracker"; "src"; "data"; "employee_tracker.db"]
  /\ dashboard_database ["home"; "tracker"; "src"; "dashboard.py"]
     = ["home"; "tracker"; "data"; "employee_tracker.db"]
  /\ manage_database
       (imported_manage_file ["home"; "tracker"; "src"; "dashboard.py"])
     <> dashboard_database ["home"; "tracker"; "src"; "dashboard.py"].
Proof.
  apply (dashboard_reads_another_database ["home"; "tracker"]
           "src" "dashboard.py"); reflexivity.
Defined.

(* ================================================================= *)
(** ** Further properties: the fallback name of a column *)

Lemma map_chars_map_chars (f g : ascii -> ascii) (s : string) :
  map_chars f (map_chars g s) = map_chars (fun a => f (g a)) s.
Proof. induction s as [|a s IH]; simpl; [reflexivity | now rewrite IH]. Qed.

Lemma map_chars_ext (f g : ascii -> ascii) (s : string) :
  (forall a, f a = g a) -> map_chars f s = map_chars g s.
Proof.
  intros H. induction s as [|a s IH]; simpl; [reflexivity|].
  now rewrite H, IH.
Qed.

Lemma length_lstrip (s : string) : String.length (lstrip s) <= String.length s.
Proof.
  induction s as [|a s IH]; simpl; [lia|].
  destruct (isspace a); simpl; lia.
Qed.

(** A string that [lstrip] leaves alone starts with no whitespace. *)
Lemma lstrip_fixed_head (a : ascii) (s : string) :
  lstrip (String a s) = String a s -> isspace a = false.
Proof.
  simpl. destruct (isspace a); [|reflexivity].
  intros H. pose proof (length_lstrip s) as Hl. rewrite H in Hl.
  simpl in Hl. lia.
Qed.

(** A string that [rstrip] leaves alone ends with no whitespace. *)
Lemma rstrip_fixed_cases (a : ascii) (s : string) :
  rstrip (String a s) = String a s ->
  (s = EmptyString /\ isspace a = false)
  \/ (s <> EmptyString /\ rstrip s = s).
Proof.
  simpl. destruct (rstrip s) as [|b r] eqn:E.
  - destruct (isspace a); [discriminate|].
    intros [= <-]. left. auto.
  - intros [= <-]. right. split; [discriminate | reflexivity].
Qed.

Lemma rstrip_rstrip (s : string) : rstrip (rstrip s) = rstrip s.
Proof.
  induction s as [|a s IH]; simpl; [reflexivity|].
  destruct (rstrip s) as [|b r] eqn:E.
  - destruct (isspace a) eqn:Ea; simpl; [reflexivity|]. now rewrite Ea.
  - simpl. simpl in IH. rewrite IH. reflexivity.
Qed.

Lemma lstrip_rstrip_fixed (s : string) :
  lstrip s = s -> lstrip (rstrip s) = rstrip s.
Proof.
  destruct s as [|a s]; [reflexivity|]. intros H.
  pose proof (lstrip_fixed_head a s H) as Ha.
  simpl. destruct (rstrip s); rewrite ?Ha; simpl; now rewrite Ha.
Qed.

Lemma lstrip_lstrip (s : string) : lstrip (lstrip s) = lstrip s.
Proof.
  induction s as [|a s IH]; simpl; [reflexivity|].
  destruct (isspace a) eqn:Ea; [exact IH|]. simpl. now rewrite Ea.
Qed.

(** A map over the characters that turns none but whitespace into
    whitespace keeps the ends of a stripped string. *)
Lemma lstrip_map_chars (f : ascii -> ascii) (s : string) :
  (forall a, isspace a = false -> isspace (f a) = false) ->
  lstrip s = s -> lstrip (map_chars f s) = map_chars f s.
Proof.
  intros Hf H. destruct s as [|a s]; [reflexivity|].
  simpl. now rewrite (Hf a (lstrip_fixed_head a s H)).
Qed.

Lemma rstrip_map_chars (f : ascii -> ascii) (s : string) :
  (forall a, isspace a = false -> isspace (f a) = false) ->
  rstrip s = s -> rstrip (map_chars f s) = map_chars f s.
Proof.
  intros Hf. induction s as [|a s IH]; intros H; [reflexivity|].
  destruct (rstrip_fixed_cases a s H) as [[-> Ha]|[Hne Hs]].
  - simpl. now rewrite (Hf a Ha).
  - cbn [map_chars rstrip]. rewrite (IH Hs).
    destruct s as [|b s]; [contradiction | reflexivity].
Qed.

Lemma lower_char_keeps_nonspace (a : ascii) :
  isspace a = false -> isspace (lower_char a) = false.
Proof.
  destruct a as [[] [] [] [] [] [] [] []]; vm_compute; trivial.
Qed.

Lemma underscore_keeps_nonspace (a : ascii) :
  isspace a = false ->
  isspace (if Ascii.eqb a " " then "_"%char else a) = false.
Proof.
  destruct a as [[] [] [] [] [] [] [] []]; vm_compute; trivial.
Qed.

Lemma slug_char_fixed (a : ascii) :
  let f := fun a => if Ascii.eqb (lower_char a) " " then "_"%char
                    else lower_char a in
  f (f a) = f a /\ lower_char (f a) = f a /\ Ascii.eqb (f a) " " = false.
Proof.
  destruct a as [[] [] [] [] [] [] [] []]; vm_compute; auto.
Qed.

Lemma slug_chars (s : string) :
  slug s = map_chars (fun a => if Ascii.eqb (lower_char a) " " then "_"%char
                               else lower_char a) (strip s).
Proof. unfold slug, replace, lower. apply map_chars_map_chars. Qed.

Lemma find_map_chars_None (f : ascii -> ascii) (c : ascii) (s : string) :
  (forall a, Ascii.eqb (f a) c = false) -> find c (map_chars f s) = None.
Proof.
  intros H. induction s as [|a s IH]; simpl; [reflexivity|].
  now rewrite H, IH.
Qed.

Lemma strip_slug (s : string) : strip (slug s) = slug s.
Proof.
  assert (Hl : lstrip (strip s) = strip s).
  { unfold strip. apply lstrip_rstrip_fixed. apply lstrip_lstrip. }
  assert (Hr : rstrip (strip s) = strip s).
  { unfold strip. apply rstrip_rstrip. }
  unfold slug, replace, lower, strip at 1.
  rewrite (lstrip_map_chars _ _ underscore_keeps_nonspace
             (lstrip_map_chars _ _ lower_char_keeps_nonspace Hl)).
  apply (rstrip_map_chars _ _ underscore_keeps_nonspace
           (rstrip_map_chars _ _ lower_char_keeps_nonspace Hr)).
Qed.

(** The fallback name [val.strip().lower().replace(" ", "_")] is in normal
    form: it holds no space, no capital letter and no whitespace at its
    ends, and taking the fallback name of a fallback name gives it back. *)
Theorem slug_normal_form (val : string) :
  find " " (slug val) = None
  /\ lower (slug val) = slug val
  /\ strip (slug val) = slug val
  /\ slug (slug val) = slug val.
Proof.
  split; [|split; [|split]].
  - rewrite slug_chars. apply find_map_chars_None.
    intros a. apply (slug_char_fixed a).
  - rewrite slug_chars. unfold lower. rewrite map_chars_map_chars.
    apply map_chars_ext. intros a. apply (slug_char_fixed a).
  - apply strip_slug.
  - rewrite (slug_chars (slug val)), strip_slug, slug_chars.
    rewrite map_chars_map_chars.
    apply map_chars_ext. intros a. apply (slug_char_fixed a).
Qed.

(* ================================================================= *)
(** ** Further properties: resolver, locator and block loop together *)

Lemma entries_from_bound (mapping : dict string) (hdr : list cell)
      (k : nat) (name : string) (i : nat) :
  In (name, i) (entries_from mapping k hdr) -> i < k + List.length hdr.
Proof.
  revert k. induction hdr as [|c hdr IH]; intros k H; [contradiction|].
  cbn [entries_from List.length] in *.
  assert (Hrest : In (name, i) (entries_from mapping (S k) hdr) ->
                  i < k + S (List.length hdr)).
  { intros H'. apply IH in H'. lia. }
  destruct c; try (now apply Hrest).
  destruct H as [[= _ <-]|H]; [lia | now apply Hrest].
Qed.

(** A column map that a resolver returns has distinct keys, and each of
    its indices is a position of the header row. *)
Lemma resolve_in_header (mapping : dict string) (hdr : list cell) (m : dict nat) :
  resolve mapping hdr = Ok m ->
  NoDup (keys m)
  /\ forall name i, In (name, i) m -> i < List.length hdr.
Proof.
  intros H.
  destruct (Forall_dec text_or_null text_or_null_dec hdr) as [Hok|Hbad].
  - assert (E : resolve mapping hdr = Ok (set_all (entries mapping hdr) []))
      by exact (resolve_loop_ok mapping hdr Hok 0 []).
    rewrite E in H. injection H as <-.
    split; [apply NoDup_keys_set_all; constructor|].
    intros name i Hin. apply in_set_all in Hin. destruct Hin as [Hin|[]].
    apply (entries_from_bound mapping hdr 0 name i Hin).
  - assert (E : resolve mapping hdr = Raise AttributeError)
      by exact (resolve_loop_raise mapping hdr Hbad 0 []).
    rewrite E in H. discriminate.
Qed.

Lemma labels_loop_NoDup
      (step : employee_state -> nat * row -> result employee_state)
      (its : list (nat * row)) :
  (forall st it st', step st it = Ok st' ->
                     NoDup (keys (fst st)) -> NoDup (keys (fst st'))) ->
  forall st st', for_each its st step = Ok st' ->
                 NoDup (keys (fst st)) -> NoDup (keys (fst st')).
Proof.
  intros Hstep. induction its as [|it its IH]; intros st st' H ND.
  - simpl in H. now injection H as <-.
  - simpl in H. destruct (step st it) as [st1|] eqn:E; [|discriminate].
    simpl in H. apply (IH st1 st' H). apply (Hstep st it st1 E ND).
Qed.

Lemma get_employees_step_NoDup (st : employee_state) (it : nat * row)
      (st' : employee_state) :
  get_employees_step st it = Ok st' ->
  NoDup (keys (fst st)) -> NoDup (keys (fst st')).
Proof.
  destruct st as [er ed], it as [idx r]. unfold get_employees_step.
  destruct (iloc r 0) as [c|]; [|discriminate]. cbn [bind].
  destruct (in_str "Employee Number:" c).
  - destruct (text_of c) as [s|]; [|discriminate]. cbn [bind].
    destruct (index ":" s) as [colon|]; [|discriminate]. cbn [bind].
    destruct (unpack2 _) as [[last first]|]; [|discriminate]. cbn [bind].
    intros [= <-] ND. cbn [fst]. now apply NoDup_keys_dict_set.
  - intros [= <-] ND. exact ND.
Qed.

Lemma get_sections_step_NoDup (st : employee_state) (it : nat * row)
      (st' : employee_state) :
  get_sections_step st it = Ok st' ->
  NoDup (keys (fst st)) -> NoDup (keys (fst st')).
Proof.
  destruct st as [sr sd], it as [idx r]. unfold get_sections_step.
  destruct (iloc r 0) as [c|]; [|discriminate]. cbn [bind].
  destruct (in_str "Section:" c).
  - destruct (text_of c) as [s|]; [|discriminate]. cbn [bind].
    destruct (index ":" s) as [colon|]; [|discriminate]. cbn [bind].
    intros [= <-] ND. cbn [fst]. now apply NoDup_keys_dict_set.
  - intros [= <-] ND. exact ND.
Qed.

Lemma get_employees_NoDup (p : page) (L : dict nat) (df : frame string) :
  get_employees p = Ok (L, df) -> NoDup (keys L).
Proof.
  unfold get_employees. intros H.
  destruct (for_each (iterrows p) ([], []) get_employees_step)
    as [[er ed]|] eqn:E; [|discriminate].
  cbn [bind] in H.
  destruct (from_dict ed employee_columns); [|discriminate].
  cbn [bind] in H. injection H as <- _.
  apply (labels_loop_NoDup get_employees_step (iterrows p)
           get_employees_step_NoDup ([], []) (er, ed) E).
  constructor.
Qed.

Lemma get_sections_NoDup (p : page) (L : dict nat) (df : frame string) :
  get_sections p = Ok (L, df) -> NoDup (keys L).
Proof.
  unfold get_sections. intros H.
  destruct (for_each (iterrows p) ([], []) get_sections_step)
    as [[sr sd]|] eqn:E; [|discriminate].
  cbn [bind] in H.
  destruct (from_dict sd ["section_name"]); [|discriminate].
  cbn [bind] in H. injection H as <- _.
  apply (labels_loop_NoDup get_sections_step (iterrows p)
           get_sections_step_NoDup ([], []) (sr, sd) E).
  constructor.
Qed.

(** On a page whose rows all have [n] cells, a block is within the page
    as soon as its three rows are, when the column indices are below
    [n]. *)
Lemma block_in_range_rectangular (p : page) (n R : nat) (C : dict nat) :
  Forall (fun r => List.length r = n) (rows p) ->
  (forall name i, In (name, i) C -> i < n) ->
  R + 3 < List.length (rows p) -> block_in_range p R C.
Proof.
  intros Hrect HC HR. split; [exact HR|].
  rewrite Forall_forall in Hrect.
  assert (Hcell : forall k cidx, k <= 3 -> cidx < n ->
                                 cell_at p (R + k) cidx <> None).
  { intros k cidx Hk Hc. unfold cell_at.
    destruct (nth_error (rows p) (R + k)) as [r|] eqn:E.
    - apply nth_error_Some. rewrite (Hrect r (nth_error_In _ _ E)). exact Hc.
    - apply nth_error_None in E. lia. }
  intros col cidx Hin. specialize (HC col cidx Hin).
  repeat split; apply Hcell; lia || assumption.
Qed.

Lemma read_blocks_rectangular (p : page) (n : nat) (L C : dict nat) :
  Forall (fun r => List.length r = n) (rows p) ->
  (forall name i, In (name, i) C -> i < n) ->
  NoDup (keys L) -> NoDup (keys C) ->
  ((exists r, read_blocks p L C = Ok r) <->
   forall e R, In (e, R) L -> R + 3 < List.length (rows p)).
Proof.
  intros Hrect HC NDL NDC. split.
  - intros [r Hr] e R HL.
    destruct (read_blocks_ok_in_range p L C r NDL NDC Hr e R HL) as [H _].
    exact H.
  - intros H. rewrite (read_blocks_spec p L C NDL NDC).
    destruct (all_blocks_total p L C) as [bs ->]; [|eauto].
    intros e R HL.
    apply (block_in_range_rectangular p n R C Hrect HC (H e R HL)).
Qed.

(** On a sheet as pandas reads it (every row has the same number of
    cells), with the column map and the label index the program itself
    builds from the page, the block loop never fails on a column: it
    returns exactly when no label row is among the last three rows of the
    page. This holds for the roster page ([get_columns],
    [get_employees]) and for the firm page ([get_firm_columns],
    [get_sections]). *)
Theorem blocks_fail_only_at_page_end (p : page) (n : nat)
        (col_name_idx label_rows : dict nat) (df : frame string) :
  Forall (fun r => List.length r = n) (rows p) ->
  (get_columns p = Ok col_name_idx /\ get_employees p = Ok (label_rows, df))
  \/ (get_firm_columns p = Ok col_name_idx
      /\ get_sections p = Ok (label_rows, df)) ->
  ((exists r, read_blocks p label_rows col_name_idx = Ok r) <->
   forall e R, In (e, R) label_rows -> R + 3 < List.length (rows p)).
Proof.
  intros Hrect Hsrc.
  assert (Hhdr : forall k mapping,
             (column_names <- iloc (rows p) k ;; resolve mapping column_names)
             = Ok col_name_idx ->
             NoDup (keys col_name_idx)
             /\ forall name i, In (name, i) col_name_idx -> i < n).
  { intros k mapping H. unfold iloc, getitem in H.
    destruct (nth_error (rows p) k) as [hdr|] eqn:E; [|discriminate].
    cbn [bind] in H.
    destruct (resolve_in_header mapping hdr col_name_idx H) as [ND Hb].
    rewrite Forall_forall in Hrect.
    rewrite (Hrect hdr (nth_error_In _ _ E)) in Hb. auto. }
  destruct Hsrc as [[Hc Hl]|[Hc Hl]].
  - destruct (Hhdr 0 employee_mapping Hc) as [NDC HC].
    apply (read_blocks_rectangular p n label_rows col_name_idx Hrect HC
             (get_employees_NoDup p label_rows df Hl) NDC).
  - destruct (Hhdr 7 firm_mapping Hc) as [NDC HC].
    apply (read_blocks_rectangular p n label_rows col_name_idx Hrect HC
             (get_sections_NoDup p label_rows df Hl) NDC).
Qed.

Lemma blocks_fail_only_at_page_end_witness :
  (exists r, read_blocks roster_page roster_labels roster_colmap = Ok r) <->
  forall e R, In (e, R) roster_labels -> R + 3 < List.length (rows roster_page).
Proof.
  apply (blocks_fail_only_at_page_end roster_page 4 roster_colmap roster_labels
           roster_employees).
  - repeat constructor.
  - left. split; reflexivity.
Defined.
